(** * Rfam secondary-structure widget: acquisition and interaction engine

    A shallow embedding of the React component [SecondaryStructure]
    (SecondaryStructures.jsx): the fallback loader, the availability probe,
    the R-scape annotation pass, the svg-pan-zoom life cycle, the layer
    toggle, the R-chie loupe and the download action, followed by the
    properties the specification states about them.

    Modelling conventions.
    - JavaScript strings are [string]; the three literal values of the load
      status are an enumeration; counters incremented from zero are [nat];
      the toggle phase and pixel coordinates are [Z].  Pointer positions
      and bounding boxes are taken on whole pixels: the source computes on
      doubles, and positions with a fractional part are not covered.
    - The component's [useState] cells, its refs and the part of the outside
      world it talks to (network, svg-pan-zoom, the browser) are gathered in
      one record [World]; every callback is a state transformer in the
      monad [M].  An [async] callback runs to completion: each [await] is a
      call of [fetch], which asks the server oracle and records the request.
    - The remote image service is an oracle that may answer differently
      depending on everything requested before.
    - A mounted diagram is represented by what the component's selectors
      return on it: its [tspan] and [path] elements in document order, the
      title node, the three named sub-layers, the declared dimensions.
    - The svg-pan-zoom library is represented by the history of instances
      created and destroyed; whether a creation raises is chosen by the
      environment.
    - React is represented by a transition system: an event is a handler
      the screen offers, a timer whose effect found its condition true, or
      the (re)mounting of a DOM node; after each event the effects whose
      dependencies changed are run.  Timers and mountings may occur more
      often than React would allow, so what holds of every run of the
      system holds of every run of the component.
    - The initial-load effect depends on the identity of [imageTypes].  A
      list the caller passes is one array; when the prop is left out, the
      default is a new array at every render, so the effect is run again,
      clean-up first, after every render.  The event [InitialEffectRerun]
      is one such run.  A run that calls [initializeImages] writes state
      and so causes the render that makes the next run due; the event is
      offered at any time, which covers every schedule of the re-runs. *)

From Stdlib Require Import String Ascii List ZArith Bool Lia PeanoNat.
From Stdlib Require Import DecimalString.
Import ListNotations.

Local Open Scope string_scope.
Local Open Scope list_scope.

(** ** JavaScript helpers *)

Module JS.

(** [s.includes(sub)] *)
Fixpoint includes (s sub : string) : bool :=
  String.prefix sub s ||
  match s with
  | EmptyString => false
  | String _ rest => includes rest sub
  end.

(** [arr.includes(x)] on an array of strings *)
Definition arr_includes (arr : list string) (x : string) : bool :=
  existsb (String.eqb x) arr.

(** truthiness of a string: only the empty string is falsy *)
Definition truthy (s : string) : bool := negb (s =? "").

(** truthiness of a possibly [undefined] string *)
Definition truthy_opt (s : option string) : bool :=
  match s with
  | Some v => truthy v
  | None => false
  end.

(** a possibly [undefined] string inside a template literal *)
Definition interpolate (s : option string) : string :=
  match s with
  | Some v => v
  | None => "undefined"
  end.

(** an integer inside a template literal *)
Definition show (z : Z) : string := NilZero.string_of_int (Z.to_int z).

(** [a || b] on strings *)
Definition or_else (a : option string) (b : string) : string :=
  match a with
  | Some v => if truthy v then v else b
  | None => b
  end.

End JS.

(** ** The remote image service *)

Inductive Method : Type := HEAD | GET.

Record Request : Type := mkRequest {
  req_method : Method;
  req_url : string
}.

(** What [fetch] resolves to.  [body = None] stands for a response whose
    [text()] promise rejects; [content_type = None] for a missing header. *)
Record Response : Type := mkResponse {
  ok : bool;
  status : Z;
  body : option string;
  content_type : option string
}.

Inductive FetchOutcome : Type :=
| NetworkError
| Responded (r : Response).

(** The service answers a request knowing all earlier requests. *)
Definition Server : Type := list Request -> Request -> FetchOutcome.

(** ** The rendered diagram, as the component's selectors see it *)

(** a [tspan] of the diagram *)
Record TSpan : Type := mkTSpan {
  ts_fill : option string;
  ts_textContent : string;
  ts_cursor : option string;
  ts_tooltip : option string
}.

(** a [path] of the diagram *)
Record PathEl : Type := mkPathEl {
  p_fill : option string;
  p_stroke_width : option string;
  p_cursor : option string;
  p_tooltip : option string
}.

(** The [svg] root.  [svg_width]/[svg_height] hold what [parseInt] makes of
    the attribute ([None] for NaN); [el_seq], [el_outline], [el_pairs] are
    the elements found by [#seq], [#outline], [#pairs], each with its
    [style.visibility]. *)
Record SvgElement : Type := mkSvg {
  svg_width : option Z;
  svg_height : option Z;
  tspans : list TSpan;
  paths : list PathEl;
  text1000 : bool;
  el_seq : option string;
  el_outline : option string;
  el_pairs : option string
}.

(** a container [div]; [svg] is [querySelector('svg')] *)
Record Container : Type := mkContainer {
  svg : option SvgElement
}.

(** [getBoundingClientRect()] of the R-chie image *)
Record Rect : Type := mkRect {
  rect_left : Z;
  rect_top : Z
}.

(** ** Widget state *)

Inductive Status : Type := Loading | Loaded | Error.

Definition Status_eqb (a b : Status) : bool :=
  match a, b with
  | Loading, Loading | Loaded, Loaded | Error, Error => true
  | _, _ => false
  end.

Record Stats : Type := mkStats {
  basepairs : nat;
  significantBasepairs : nat
}.

Record Tooltip : Type := mkTooltip {
  tt_visible : bool;
  tt_content : string;
  tt_x : Z;
  tt_y : Z
}.

Record Loupe : Type := mkLoupe {
  lp_x : Z;
  lp_y : Z;
  lp_bgX : option Z;
  lp_bgY : option Z;
  lp_visible : bool
}.

(** the two diagram slots: the main one and the comparator's *)
Inductive Slot : Type := Main | Cyk.

Definition Slot_eqb (a b : Slot) : bool :=
  match a, b with
  | Main, Main | Cyk, Cyk => true
  | _, _ => false
  end.

(** what the component does to the svg-pan-zoom library *)
Inductive PzEffect : Type :=
| PzCreate (id : nat) (slot : Slot)
| PzDestroy (id : nat).

(** a file offered for download: the blob and the anchor's [download] *)
Record Download : Type := mkDownload {
  blob_type : string;
  blob_content : string;
  filename : option string
}.

(** The props as the component is given them.  [imageTypesProp] is [None]
    when the caller leaves [imageTypes] out; the other fields hold the
    values after their defaults. *)
Record Props : Type := mkProps {
  familyAcc : option string;
  imageTypesProp : option (list string);
  apiBaseUrl : string;
  varnaEnabled : bool;
  showLegend : bool;
  showDescription : bool
}.

(** the default of the [imageTypes] parameter *)
Definition DEFAULT_IMAGE_TYPES : list string :=
  ["rscape"; "cons"; "norm"; "cov"; "ent"; "maxcm"; "fcbp"; "rchie"].

(** [imageTypes] as the body of the component sees it *)
Definition imageTypes (props : Props) : list string :=
  match imageTypesProp props with
  | Some types => types
  | None => DEFAULT_IMAGE_TYPES
  end.

(** Whether [imageTypes] is a new array at every render.  The default is
    an array literal in the parameter list, evaluated at every call of
    the component; a list the caller passes is the caller's array. *)
Definition imageTypesFresh (props : Props) : bool :=
  match imageTypesProp props with
  | Some _ => false
  | None => true
  end.

Record State : Type := mkState {
  selectedImageType : string;
  svgContent : string;
  imageStatus : Status;
  errorMessage : string;
  availableTypes : list string;
  rscapeStats : option Stats;  (* null until the annotation pass has run *)
  svgToggleState : Z;
  tooltip : Tooltip;
  loupePosition : Loupe;
  isImageNotAvailable : bool;
  rscapeCykContent : string;
  rscapeCykStatus : Status;
  rscapeCykStats : option Stats;
  isRscapeCykNotAvailable : bool
}.

Definition with_selectedImageType (v : string) (r : State) : State :=
  mkState v (svgContent r) (imageStatus r) (errorMessage r) (availableTypes
    r) (rscapeStats r) (svgToggleState r) (tooltip r) (loupePosition r)
    (isImageNotAvailable r) (rscapeCykContent r) (rscapeCykStatus r)
    (rscapeCykStats r) (isRscapeCykNotAvailable r).
Definition with_svgContent (v : string) (r : State) : State :=
  mkState (selectedImageType r) v (imageStatus r) (errorMessage r)
    (availableTypes r) (rscapeStats r) (svgToggleState r) (tooltip r)
    (loupePosition r) (isImageNotAvailable r) (rscapeCykContent r)
    (rscapeCykStatus r) (rscapeCykStats r) (isRscapeCykNotAvailable r).
Definition with_imageStatus (v : Status) (r : State) : State :=
  mkState (selectedImageType r) (svgContent r) v (errorMessage r)
    (availableTypes r) (rscapeStats r) (svgToggleState r) (tooltip r)
    (loupePosition r) (isImageNotAvailable r) (rscapeCykContent r)
    (rscapeCykStatus r) (rscapeCykStats r) (isRscapeCykNotAvailable r).
Definition with_errorMessage (v : string) (r : State) : State :=
  mkState (selectedImageType r) (svgContent r) (imageStatus r) v
    (availableTypes r) (rscapeStats r) (svgToggleState r) (tooltip r)
    (loupePosition r) (isImageNotAvailable r) (rscapeCykContent r)
    (rscapeCykStatus r) (rscapeCykStats r) (isRscapeCykNotAvailable r).
Definition with_availableTypes (v : list string) (r : State) : State :=
  mkState (selectedImageType r) (svgContent r) (imageStatus r) (errorMessage
    r) v (rscapeStats r) (svgToggleState r) (tooltip r) (loupePosition r)
    (isImageNotAvailable r) (rscapeCykContent r) (rscapeCykStatus r)
    (rscapeCykStats r) (isRscapeCykNotAvailable r).
Definition with_rscapeStats (v : option Stats) (r : State) : State :=
  mkState (selectedImageType r) (svgContent r) (imageStatus r) (errorMessage
    r) (availableTypes r) v (svgToggleState r) (tooltip r) (loupePosition r)
    (isImageNotAvailable r) (rscapeCykContent r) (rscapeCykStatus r)
    (rscapeCykStats r) (isRscapeCykNotAvailable r).
Definition with_svgToggleState (v : Z) (r : State) : State :=
  mkState (selectedImageType r) (svgContent r) (imageStatus r) (errorMessage
    r) (availableTypes r) (rscapeStats r) v (tooltip r) (loupePosition r)
    (isImageNotAvailable r) (rscapeCykContent r) (rscapeCykStatus r)
    (rscapeCykStats r) (isRscapeCykNotAvailable r).
Definition with_tooltip (v : Tooltip) (r : State) : State :=
  mkState (selectedImageType r) (svgContent r) (imageStatus r) (errorMessage
    r) (availableTypes r) (rscapeStats r) (svgToggleState r) v (loupePosition
    r) (isImageNotAvailable r) (rscapeCykContent r) (rscapeCykStatus r)
    (rscapeCykStats r) (isRscapeCykNotAvailable r).
Definition with_loupePosition (v : Loupe) (r : State) : State :=
  mkState (selectedImageType r) (svgContent r) (imageStatus r) (errorMessage
    r) (availableTypes r) (rscapeStats r) (svgToggleState r) (tooltip r) v
    (isImageNotAvailable r) (rscapeCykContent r) (rscapeCykStatus r)
    (rscapeCykStats r) (isRscapeCykNotAvailable r).
Definition with_isImageNotAvailable (v : bool) (r : State) : State :=
  mkState (selectedImageType r) (svgContent r) (imageStatus r) (errorMessage
    r) (availableTypes r) (rscapeStats r) (svgToggleState r) (tooltip r)
    (loupePosition r) v (rscapeCykContent r) (rscapeCykStatus r)
    (rscapeCykStats r) (isRscapeCykNotAvailable r).
Definition with_rscapeCykContent (v : string) (r : State) : State :=
  mkState (selectedImageType r) (svgContent r) (imageStatus r) (errorMessage
    r) (availableTypes r) (rscapeStats r) (svgToggleState r) (tooltip r)
    (loupePosition r) (isImageNotAvailable r) v (rscapeCykStatus r)
    (rscapeCykStats r) (isRscapeCykNotAvailable r).
Definition with_rscapeCykStatus (v : Status) (r : State) : State :=
  mkState (selectedImageType r) (svgContent r) (imageStatus r) (errorMessage
    r) (availableTypes r) (rscapeStats r) (svgToggleState r) (tooltip r)
    (loupePosition r) (isImageNotAvailable r) (rscapeCykContent r) v
    (rscapeCykStats r) (isRscapeCykNotAvailable r).
Definition with_rscapeCykStats (v : option Stats) (r : State) : State :=
  mkState (selectedImageType r) (svgContent r) (imageStatus r) (errorMessage
    r) (availableTypes r) (rscapeStats r) (svgToggleState r) (tooltip r)
    (loupePosition r) (isImageNotAvailable r) (rscapeCykContent r)
    (rscapeCykStatus r) v (isRscapeCykNotAvailable r).
Definition with_isRscapeCykNotAvailable (v : bool) (r : State) : State :=
  mkState (selectedImageType r) (svgContent r) (imageStatus r) (errorMessage
    r) (availableTypes r) (rscapeStats r) (svgToggleState r) (tooltip r)
    (loupePosition r) (isImageNotAvailable r) (rscapeCykContent r)
    (rscapeCykStatus r) (rscapeCykStats r) v.

Record Refs : Type := mkRefs {
  svgContainerRef : option Container;
  svgContainerCykRef : option Container;
  panZoomInstanceRef : option nat;
  panZoomCykInstanceRef : option nat;
  rchieImageRef : option Rect
}.

Definition with_svgContainerRef (v : option Container) (r : Refs) : Refs :=
  mkRefs v (svgContainerCykRef r) (panZoomInstanceRef r)
    (panZoomCykInstanceRef r) (rchieImageRef r).
Definition with_svgContainerCykRef (v : option Container) (r : Refs) : Refs :=
  mkRefs (svgContainerRef r) v (panZoomInstanceRef r) (panZoomCykInstanceRef
    r) (rchieImageRef r).
Definition with_panZoomInstanceRef (v : option nat) (r : Refs) : Refs :=
  mkRefs (svgContainerRef r) (svgContainerCykRef r) v (panZoomCykInstanceRef
    r) (rchieImageRef r).
Definition with_panZoomCykInstanceRef (v : option nat) (r : Refs) : Refs :=
  mkRefs (svgContainerRef r) (svgContainerCykRef r) (panZoomInstanceRef r) v
    (rchieImageRef r).
Definition with_rchieImageRef (v : option Rect) (r : Refs) : Refs :=
  mkRefs (svgContainerRef r) (svgContainerCykRef r) (panZoomInstanceRef r)
    (panZoomCykInstanceRef r) v.

Record Env : Type := mkEnv {
  net_log : list Request;  (* every fetch issued so far, oldest first *)
  pz_log : list PzEffect;  (* svg-pan-zoom instances created and destroyed *)
  opened : list string;  (* window.open targets *)
  downloads : list Download  (* files handed to the browser *)
}.

Definition with_net_log (v : list Request) (r : Env) : Env :=
  mkEnv v (pz_log r) (opened r) (downloads r).
Definition with_pz_log (v : list PzEffect) (r : Env) : Env :=
  mkEnv (net_log r) v (opened r) (downloads r).
Definition with_opened (v : list string) (r : Env) : Env :=
  mkEnv (net_log r) (pz_log r) v (downloads r).
Definition with_downloads (v : list Download) (r : Env) : Env :=
  mkEnv (net_log r) (pz_log r) (opened r) v.

Record World : Type := mkWorld {
  state : State;
  refs : Refs;
  env : Env
}.

Definition with_state (v : State) (r : World) : World :=
  mkWorld v (refs r) (env r).
Definition with_refs (v : Refs) (r : World) : World :=
  mkWorld (state r) v (env r).
Definition with_env (v : Env) (r : World) : World :=
  mkWorld (state r) (refs r) v.

(** ** The monad of the callbacks *)

Definition M (A : Type) : Type := World -> A * World.

Definition ret {A : Type} (a : A) : M A := fun w => (a, w).

Definition bind {A B : Type} (c : M A) (k : A -> M B) : M B :=
  fun w => k (fst (c w)) (snd (c w)).

Declare Scope js_scope.
Delimit Scope js_scope with js.
Notation "x <- c ;; k" := (bind c (fun x => k))
  (at level 61, c at next level, right associativity) : js_scope.
Notation "c ;; k" := (bind c (fun _ => k))
  (at level 61, right associativity) : js_scope.
Local Open Scope js_scope.

Definition exec {A : Type} (c : M A) (w : World) : World := snd (c w).
Definition eval {A : Type} (c : M A) (w : World) : A := fst (c w).
Definition gets {A : Type} (f : World -> A) : M A := fun w => (f w, w).
Definition modify (f : World -> World) : M unit := fun w => (tt, f w).

Definition setState (f : State -> State) : M unit :=
  modify (fun w => with_state (f (state w)) w).
Definition setRefs (f : Refs -> Refs) : M unit :=
  modify (fun w => with_refs (f (refs w)) w).
Definition setEnv (f : Env -> Env) : M unit :=
  modify (fun w => with_env (f (env w)) w).

Definition setSelectedImageType v := setState (with_selectedImageType v).
Definition setSvgContent v := setState (with_svgContent v).
Definition setImageStatus v := setState (with_imageStatus v).
Definition setErrorMessage v := setState (with_errorMessage v).
Definition setAvailableTypes v := setState (with_availableTypes v).
Definition setRscapeStats v := setState (with_rscapeStats v).
Definition setSvgToggleState v := setState (with_svgToggleState v).
Definition setTooltip v := setState (with_tooltip v).
Definition setLoupePosition v := setState (with_loupePosition v).
Definition setIsImageNotAvailable v := setState (with_isImageNotAvailable v).
Definition setRscapeCykContent v := setState (with_rscapeCykContent v).
Definition setRscapeCykStatus v := setState (with_rscapeCykStatus v).
Definition setRscapeCykStats v := setState (with_rscapeCykStats v).
Definition setIsRscapeCykNotAvailable v :=
  setState (with_isRscapeCykNotAvailable v).

(** ** Constants of the component *)

Record Palette : Type := mkPalette {
  significant : string;
  conserved97 : string;
  conserved90 : string;
  conserved75 : string;
  conserved50 : string
}.

Definition RSCAPE_COLORS : Palette :=
  mkPalette "#31a354" "#d90000" "#000000" "#807b88" "#ffffff".

Definition DROPDOWN_IMAGE_TYPES : list string :=
  ["rscape"; "cons"; "fcbp"; "cov"; "ent"; "maxcm"; "norm"; "rchie"].

(** the keys of [IMAGE_TYPE_INFO] with their labels *)
Definition IMAGE_TYPE_INFO : list (string * string) :=
  [("rscape", "R-scape"); ("cons", "seqcons"); ("fcbp", "bpcons");
   ("cov", "cov"); ("ent", "ent"); ("maxcm", "maxcm"); ("norm", "norm");
   ("rchie", "rchie")].

Definition NO_IMAGES_MESSAGE : string :=
  "No secondary structure images available for this family.".

(** [attr === value] for an attribute that may be absent *)
Definition attr_is (a : option string) (value : string) : bool :=
  match a with
  | Some v => v =? value
  | None => false
  end.

(** ** svg-pan-zoom instances *)

Definition pz_step (live : list (nat * Slot)) (e : PzEffect)
  : list (nat * Slot) :=
  match e with
  | PzCreate id slot => live ++ [(id, slot)]
  | PzDestroy id => filter (fun p => negb (fst p =? id)%nat) live
  end.

(** instances created and not destroyed since *)
Definition live (l : list PzEffect) : list (nat * Slot) :=
  fold_left pz_step l [].

(** the live instances bound to one slot *)
Definition live_on (s : Slot) (l : list PzEffect) : list nat :=
  map fst (filter (fun p => Slot_eqb (snd p) s) (live l)).

(** ** The result of one load *)

Record LoadResult : Type := mkLoadResult {
  content : string;
  isAvailable : bool;
  isSvg : bool
}.

(** The body of [loadImage] after the [await fetch]: every [throw] and
    every rejected promise ends in the [catch], which returns [null]. *)
Definition classify (type : string) (o : FetchOutcome) : option LoadResult :=
  match o with
  | NetworkError => None
  | Responded response =>
      if negb (ok response) then None
      else
        match body response with
        | None => None
        | Some content =>
            let contentType :=
              match content_type response with Some c => c | None => "" end in
            let isSvg := JS.includes content "<svg" in
            let isPng := JS.includes contentType "image/png" in
            if negb isSvg && negb isPng then None
            else
              let isActuallyAvailable := isSvg || (type =? "rchie") in
              Some (mkLoadResult content isActuallyAvailable isSvg)
        end
  end.

(** The body of [checkImageAvailability] after the [await fetch]. *)
Definition probe_ok (o : FetchOutcome) : bool :=
  match o with
  | NetworkError => false
  | Responded response => ok response
  end.

(** ** The R-scape annotation of single elements *)

Definition annotate_tspan (tspan : TSpan) : TSpan :=
  let fill := ts_fill tspan in
  let nucleotide := ts_textContent tspan in
  let displayNucleotide :=
    if nucleotide =? "R" then "G or A"
    else if nucleotide =? "Y" then "C or U"
    else nucleotide in
  let title :=
    if attr_is fill (conserved97 RSCAPE_COLORS)
    then (displayNucleotide ++ " present >97%")%string
    else if attr_is fill (conserved90 RSCAPE_COLORS)
            && negb (nucleotide =? "5'")
    then (displayNucleotide ++ " present 90-97%")%string
    else if attr_is fill (conserved75 RSCAPE_COLORS)
    then (displayNucleotide ++ " present 75-90%")%string
    else if attr_is fill (conserved50 RSCAPE_COLORS)
    then (displayNucleotide ++ " present 50-75%")%string
    else "" in
  if JS.truthy title
  then mkTSpan (ts_fill tspan) (ts_textContent tspan)
               (Some "pointer") (Some title)
  else tspan.

(** One turn of the [paths.forEach] loop: the element as it is left, and
    the two counters. *)
Definition annotate_path (counters : nat * nat) (path : PathEl)
  : PathEl * (nat * nat) :=
  let basepairs := fst counters in
  let significantBasepairs := snd counters in
  let fill := p_fill path in
  let strokeWidth := p_stroke_width path in
  let '(title, significantBasepairs) :=
    if attr_is fill (significant RSCAPE_COLORS)
    then ("Significant basepair", S significantBasepairs)
    else if attr_is fill (conserved97 RSCAPE_COLORS)
    then ("Nucleotide present 97%", significantBasepairs)
    else if attr_is fill (conserved90 RSCAPE_COLORS)
    then ("Nucleotide present 90%", significantBasepairs)
    else if attr_is fill (conserved75 RSCAPE_COLORS)
    then ("Nucleotide present 75%", significantBasepairs)
    else if attr_is fill (conserved50 RSCAPE_COLORS)
    then ("Nucleotide present 50%", significantBasepairs)
    else ("", significantBasepairs) in
  let basepairs :=
    if attr_is strokeWidth "1.44" then S basepairs else basepairs in
  let path' :=
    if JS.truthy title
    then mkPathEl (p_fill path) (p_stroke_width path)
                  (Some "pointer") (Some title)
    else path in
  (path', (basepairs, significantBasepairs)).

Fixpoint forEach_path (ps : list PathEl) (counters : nat * nat)
  : list PathEl * (nat * nat) :=
  match ps with
  | [] => ([], counters)
  | p :: rest =>
      let r := annotate_path counters p in
      let r' := forEach_path rest (snd r) in
      (fst r :: fst r', snd r')
  end.

(** ** Refs and the mounted diagrams *)

Definition with_svg_width (v : option Z) (e : SvgElement) : SvgElement :=
  mkSvg v (svg_height e) (tspans e) (paths e) (text1000 e)
        (el_seq e) (el_outline e) (el_pairs e).
Definition with_svg_height (v : option Z) (e : SvgElement) : SvgElement :=
  mkSvg (svg_width e) v (tspans e) (paths e) (text1000 e)
        (el_seq e) (el_outline e) (el_pairs e).
Definition with_visibility (s o p : option string) (e : SvgElement)
  : SvgElement :=
  mkSvg (svg_width e) (svg_height e) (tspans e) (paths e) (text1000 e) s o p.

(** [if (el) el.style.visibility = v] *)
Definition set_visibility (el : option string) (v : string) : option string :=
  match el with
  | Some _ => Some v
  | None => None
  end.

(** [ref.current?.querySelector('svg')] *)
Definition querySvg (c : option Container) : option SvgElement :=
  match c with
  | Some c => svg c
  | None => None
  end.

Definition containerRef_current (r : Slot) (w : World) : option Container :=
  match r with
  | Main => svgContainerRef (refs w)
  | Cyk => svgContainerCykRef (refs w)
  end.

Definition panZoomRef_current (r : Slot) (w : World) : option nat :=
  match r with
  | Main => panZoomInstanceRef (refs w)
  | Cyk => panZoomCykInstanceRef (refs w)
  end.

Definition set_containerRef (r : Slot) (v : option Container) : M unit :=
  match r with
  | Main => setRefs (with_svgContainerRef v)
  | Cyk => setRefs (with_svgContainerCykRef v)
  end.

Definition set_panZoomRef (r : Slot) (v : option nat) : M unit :=
  match r with
  | Main => setRefs (with_panZoomInstanceRef v)
  | Cyk => setRefs (with_panZoomCykInstanceRef v)
  end.

(** ** Callbacks that need neither the network nor the props *)

Definition pz_emit (e : PzEffect) : M unit :=
  setEnv (fun v => with_pz_log (pz_log v ++ [e]) v).

(** [if (ref.current) { ref.current.destroy(); ref.current = null; }] *)
Definition releasePanZoom (panZoomRef : Slot) : M unit :=
  cur <- gets (panZoomRef_current panZoomRef) ;;
  match cur with
  | Some id => pz_emit (PzDestroy id) ;; set_panZoomRef panZoomRef None
  | None => ret tt
  end.

(** a successful [svgPanZoom(svgElement, ...)] on the svg of a container:
    a new instance, named by the number of library calls made before *)
Definition svgPanZoom (containerRef : Slot) : M nat :=
  id <- gets (fun w => length (pz_log (env w))) ;;
  pz_emit (PzCreate id containerRef) ;;
  ret id.

(** [throws] says whether the library call raises. *)
Definition initializePanZoom (containerRef panZoomRef : Slot) (throws : bool)
  : M unit :=
  releasePanZoom panZoomRef ;;
  c <- gets (containerRef_current containerRef) ;;
  match querySvg c with
  | None => ret tt
  | Some svgElement =>
      let or400 (a : option Z) :=
        match a with
        | Some v => if (v =? 0)%Z then 400%Z else v
        | None => 400%Z
        end in
      let width := or400 (svg_width svgElement) in
      let height := or400 (svg_height svgElement) in
      let svgElement :=
        if (width <? 400)%Z then with_svg_width (Some 400%Z) svgElement
        else svgElement in
      let svgElement :=
        if (height <? 400)%Z then with_svg_height (Some 400%Z) svgElement
        else svgElement in
      set_containerRef containerRef (Some (mkContainer (Some svgElement))) ;;
      if throws then ret tt
      else
        id <- svgPanZoom containerRef ;;
        set_panZoomRef panZoomRef (Some id)
  end.

Definition processRscapeSvg (containerRef : Slot)
  (setStats : option Stats -> M unit) : M unit :=
  c <- gets (containerRef_current containerRef) ;;
  match querySvg c with
  | None => ret tt
  | Some svgElement =>
      let tspans' := map annotate_tspan (tspans svgElement) in
      let r := forEach_path (paths svgElement) (0, 0)%nat in
      let basepairs := fst (snd r) in
      let significantBasepairs := snd (snd r) in
      set_containerRef containerRef
        (Some (mkContainer (Some
           (mkSvg (svg_width svgElement) (svg_height svgElement)
                  tspans' (fst r) false
                  (el_seq svgElement) (el_outline svgElement)
                  (el_pairs svgElement))))) ;;
      setStats (Some (mkStats basepairs significantBasepairs))
  end.

Definition handleSvgMouseMove (tooltipText : option string)
  (clientX clientY : Z) : M unit :=
  match tooltipText with
  | Some text =>
      if JS.truthy text
      then setTooltip (mkTooltip true text (clientX + 10) (clientY - 28))
      else setState (fun s => with_tooltip
             (mkTooltip false (tt_content (tooltip s)) (tt_x (tooltip s))
                        (tt_y (tooltip s))) s)
  | None =>
      setState (fun s => with_tooltip
        (mkTooltip false (tt_content (tooltip s)) (tt_x (tooltip s))
                   (tt_y (tooltip s))) s)
  end.

Definition handleSvgMouseLeave : M unit :=
  setState (fun s => with_tooltip
    (mkTooltip false (tt_content (tooltip s)) (tt_x (tooltip s))
               (tt_y (tooltip s))) s).

Definition handleSvgClick : M unit :=
  s <- gets state ;;
  if (selectedImageType s =? "rscape") || (selectedImageType s =? "rchie")
  then ret tt
  else
    c <- gets (containerRef_current Main) ;;
    match querySvg c with
    | None => ret tt
    | Some svgElement =>
        let seq := el_seq svgElement in
        let lines := el_outline svgElement in
        let pairs := el_pairs svgElement in
        match seq, lines, pairs with
        | None, None, None => ret tt
        | _, _, _ =>
            let newState :=
              if (svgToggleState s =? 3)%Z then 1%Z
              else (svgToggleState s + 1)%Z in
            let svgElement' :=
              if (newState =? 1)%Z then
                with_visibility (set_visibility seq "visible")
                  (set_visibility lines "visible")
                  (set_visibility pairs "visible") svgElement
              else if (newState =? 2)%Z then
                with_visibility (set_visibility seq "hidden")
                  (set_visibility lines "visible")
                  (set_visibility pairs "visible") svgElement
              else if (newState =? 3)%Z then
                with_visibility (set_visibility seq "visible")
                  (set_visibility lines "hidden")
                  (set_visibility pairs "hidden") svgElement
              else svgElement in
            set_containerRef Main (Some (mkContainer (Some svgElement'))) ;;
            setSvgToggleState newState
        end
    end.

Definition handleRchieMouseMove (clientX clientY : Z) : M unit :=
  s <- gets state ;;
  img <- gets (fun w => rchieImageRef (refs w)) ;;
  if negb (selectedImageType s =? "rchie") then ret tt
  else
    match img with
    | None => ret tt
    | Some rect =>
        let x := (clientX - rect_left rect)%Z in
        let y := (clientY - rect_top rect)%Z in
        setLoupePosition (mkLoupe clientX clientY (Some x) (Some y) true)
    end.

Definition handleRchieMouseLeave : M unit :=
  setState (fun s => with_loupePosition
    (mkLoupe (lp_x (loupePosition s)) (lp_y (loupePosition s))
             (lp_bgX (loupePosition s)) (lp_bgY (loupePosition s)) false) s).

(** ** The component, for a given service and given props *)

Section Component.

Variable srv : Server.
Variable props : Props.

Definition buildImageUrl (type : string) : string :=
  (apiBaseUrl props ++ "/" ++ JS.interpolate (familyAcc props)
     ++ "/image/" ++ type)%string.

Definition buildVarnaUrl : string :=
  (apiBaseUrl props ++ "/" ++ JS.interpolate (familyAcc props)
     ++ "/varna")%string.

(** [await fetch(url, ...)]: the request is recorded and the service
    answers it knowing the earlier requests *)
Definition fetch (m : Method) (url : string) : M FetchOutcome :=
  fun w =>
    let request := mkRequest m url in
    (srv (net_log (env w)) request,
     with_env (with_net_log (net_log (env w) ++ [request]) (env w)) w).

Definition checkImageAvailability (type : string) : M bool :=
  o <- fetch HEAD (buildImageUrl type) ;;
  ret (probe_ok o).

Definition loadImage (type : string) : M (option LoadResult) :=
  o <- fetch GET (buildImageUrl type) ;;
  ret (classify type o).

(** the [for (const type of types)] loop of [tryLoadImage] and what
    follows it *)
Fixpoint tryLoadImage_loop (types : list string) : M bool :=
  match types with
  | [] =>
      setImageStatus Error ;;
      setErrorMessage NO_IMAGES_MESSAGE ;;
      ret false
  | type :: rest =>
      result <- loadImage type ;;
      match result with
      | Some r =>
          setSvgContent (content r) ;;
          setSelectedImageType type ;;
          setIsImageNotAvailable (negb (isAvailable r)) ;;
          setImageStatus Loaded ;;
          ret true
      | None => tryLoadImage_loop rest
      end
  end.

Definition tryLoadImage (types : list string) : M bool :=
  setImageStatus Loading ;;
  setIsImageNotAvailable false ;;
  tryLoadImage_loop types.

Definition loadRscapeCyk : M unit :=
  setRscapeCykStatus Loading ;;
  setIsRscapeCykNotAvailable false ;;
  setRscapeCykStats None ;;
  result <- loadImage "rscape-cacofold" ;;
  match result with
  | Some r =>
      setRscapeCykContent (content r) ;;
      setIsRscapeCykNotAvailable (negb (isAvailable r)) ;;
      setRscapeCykStatus Loaded
  | None =>
      setRscapeCykStatus Error ;;
      setIsRscapeCykNotAvailable true
  end.

Definition openRchiePopup : M unit :=
  setEnv (fun e => with_opened (opened e ++ [buildImageUrl "rchie"]) e).

Definition openVarnaViewer : M unit :=
  setEnv (fun e => with_opened (opened e ++ [buildVarnaUrl]) e).

(** the availability loop of [initializeImages]; [available] is the array
    being filled *)
Fixpoint checkAll (types : list string) (available : list string)
  : M (list string) :=
  match types with
  | [] => ret available
  | type :: rest =>
      isAvailable <- checkImageAvailability type ;;
      checkAll rest (if isAvailable then available ++ [type] else available)
  end.

Definition typesToCheck : list string :=
  filter (JS.arr_includes DROPDOWN_IMAGE_TYPES) (imageTypes props).

Definition initializeImages : M unit :=
  available <- checkAll typesToCheck [] ;;
  setAvailableTypes available ;;
  if (0 <? length available)%nat
  then _ <- tryLoadImage available ;; ret tt
  else
    setImageStatus Error ;;
    setErrorMessage NO_IMAGES_MESSAGE.

(** the body of the initial-load effect *)
Definition initialLoadEffect : M unit :=
  if JS.truthy_opt (familyAcc props) && (0 <? length (imageTypes props))%nat
  then initializeImages
  else ret tt.

(** the clean-up of the initial-load effect *)
Definition cleanup : M unit :=
  releasePanZoom Main ;;
  releasePanZoom Cyk.

Definition handleImageTypeChange (type : string) : M unit :=
  s <- gets state ;;
  if type =? selectedImageType s then ret tt
  else
    releasePanZoom Main ;;
    releasePanZoom Cyk ;;
    setImageStatus Loading ;;
    setSelectedImageType type ;;
    setRscapeStats None ;;
    setRscapeCykStats None ;;
    setIsImageNotAvailable false ;;
    setRscapeCykContent "" ;;
    setRscapeCykStatus Loading ;;
    result <- loadImage type ;;
    match result with
    | Some r =>
        setSvgContent (content r) ;;
        setIsImageNotAvailable (negb (isAvailable r)) ;;
        setImageStatus Loaded
    | None =>
        setImageStatus Error ;;
        setErrorMessage ("Failed to load " ++ type ++ " image.")%string
    end.

Definition downloadImage : M unit :=
  s <- gets state ;;
  if negb (JS.truthy (svgContent s)) then ret tt
  else
    let isSvg := JS.includes (svgContent s) "<svg" in
    let blobType := if isSvg then "image/svg+xml" else "image/png" in
    let stem :=
      (JS.interpolate (familyAcc props) ++ "_" ++ selectedImageType s
         ++ "_structure")%string in
    let download :=
      if isSvg then (stem ++ ".svg")%string else (stem ++ ".png")%string in
    setEnv (fun e =>
      with_downloads
        (downloads e ++ [mkDownload blobType (svgContent s) (Some download)])
        e).

(** ** What is on screen *)

Definition isRscapeType (s : State) : bool := selectedImageType s =? "rscape".
Definition isRchieType (s : State) : bool := selectedImageType s =? "rchie".
Definition hasSvg (c : string) : bool := JS.truthy c && JS.includes c "<svg".

Definition canToggle (s : State) : bool :=
  negb (isRscapeType s) && negb (isRchieType s)
  && JS.includes (svgContent s) "<svg".

Definition dropdownTypes (s : State) : list string :=
  filter (JS.arr_includes DROPDOWN_IMAGE_TYPES) (availableTypes s).

Definition shown (s : State) : bool :=
  Status_eqb (imageStatus s) Loaded && negb (isImageNotAvailable s).

Definition sideBySideShown (s : State) : bool :=
  shown s && isRscapeType s && JS.includes (svgContent s) "<svg".

Definition svgWrapperShown (s : State) : bool :=
  shown s && negb (isRscapeType s) && hasSvg (svgContent s).

Definition rchieShown (s : State) : bool := shown s && isRchieType s.

(** [a * 2 - 100] on a number that may be [undefined] *)
Definition loupe_offset (bg : option Z) : option Z :=
  option_map (fun v => (v * 2 - 100)%Z) bg.

Definition show_number (n : option Z) : string :=
  match n with
  | Some z => JS.show z
  | None => "NaN"
  end.

(** the [backgroundPosition] of the loupe's style *)
Definition backgroundPosition (l : Loupe) : string :=
  ("-" ++ show_number (loupe_offset (lp_bgX l)) ++ "px -"
       ++ show_number (loupe_offset (lp_bgY l)) ++ "px")%string.

Inductive Block : Type :=
| TypeSelector (options : list string) (disabled : bool)
| VarnaButton
| DownloadButton
| Description
| LoadingBlock
| ErrorBlock (message : string)
| NotAvailableBlock
| RscapePanel (stats : option Stats)
| CykStats (stats : Stats)
| CykNotAvailable
| CykLoading
| CykDiagram
| CykFailed
| SvgWrapper (clickable : bool)
| RchieImage
| RscapeLegend
| RchieLegend
| TooltipBox (text : string) (left top : Z)
| LoupeBox (left top : Z) (background : string).

Definition when (c : bool) (b : list Block) : list Block :=
  if c then b else [].

Definition render (w : World) : list Block :=
  let s := state w in
  when (1 <? length (dropdownTypes s))%nat
    [TypeSelector (dropdownTypes s) (Status_eqb (imageStatus s) Loading)]
  ++ when (varnaEnabled props) [VarnaButton]
  ++ when (shown s) [DownloadButton]
  ++ when (showDescription props && shown s
           && existsb (fun kv => fst kv =? selectedImageType s)
                IMAGE_TYPE_INFO)
       [Description]
  ++ when (Status_eqb (imageStatus s) Loading) [LoadingBlock]
  ++ when (Status_eqb (imageStatus s) Error) [ErrorBlock (errorMessage s)]
  ++ when (Status_eqb (imageStatus s) Loaded && isImageNotAvailable s)
       [NotAvailableBlock]
  ++ when (sideBySideShown s)
       ([RscapePanel (rscapeStats s)]
        ++ match rscapeCykStats s with
           | Some st =>
               when (Status_eqb (rscapeCykStatus s) Loaded
                     && negb (isRscapeCykNotAvailable s)) [CykStats st]
           | None => []
           end
        ++ when (Status_eqb (rscapeCykStatus s) Loaded
                 && isRscapeCykNotAvailable s) [CykNotAvailable]
        ++ (if Status_eqb (rscapeCykStatus s) Error
               || (Status_eqb (rscapeCykStatus s) Loaded
                   && isRscapeCykNotAvailable s)
            then []
            else if Status_eqb (rscapeCykStatus s) Loading then [CykLoading]
            else when (JS.includes (rscapeCykContent s) "<svg") [CykDiagram])
        ++ when (Status_eqb (rscapeCykStatus s) Error) [CykFailed])
  ++ when (svgWrapperShown s) [SvgWrapper (canToggle s)]
  ++ when (rchieShown s) [RchieImage]
  ++ when (showLegend props && shown s && isRscapeType s) [RscapeLegend]
  ++ when (showLegend props && shown s && isRchieType s) [RchieLegend]
  ++ when (tt_visible (tooltip s))
       [TooltipBox (tt_content (tooltip s)) (tt_x (tooltip s))
                   (tt_y (tooltip s))]
  ++ match rchieImageRef (refs w) with
     | Some _ =>
         when (lp_visible (loupePosition s) && isRchieType s)
           [LoupeBox (lp_x (loupePosition s) - 100)
                     (lp_y (loupePosition s) - 100)
                     (backgroundPosition (loupePosition s))]
     | None => []
     end.

(** ** Effects that follow a state change *)

(** [useEffect(..., [selectedImageType, imageStatus, loadRscapeCyk])] *)
Definition effect_loadRscapeCyk (prev : State) : M unit :=
  s <- gets state ;;
  if (selectedImageType prev =? selectedImageType s)
     && Status_eqb (imageStatus prev) (imageStatus s)
  then ret tt
  else if isRscapeType s && Status_eqb (imageStatus s) Loaded
  then loadRscapeCyk
  else ret tt.

(** [useEffect(() => setSvgToggleState(1), [selectedImageType])] *)
Definition effect_resetToggle (prev : State) : M unit :=
  s <- gets state ;;
  if selectedImageType prev =? selectedImageType s then ret tt
  else setSvgToggleState 1.

(** the effects run after a callback changed the state rendered as [prev] *)
Definition commitEffects (prev : State) : M unit :=
  effect_loadRscapeCyk prev ;;
  effect_resetToggle prev.

(** the two 100 ms timers of the processing effects *)
Definition timerMain (throws : bool) : M unit :=
  processRscapeSvg Main setRscapeStats ;;
  initializePanZoom Main Main throws.

Definition timerCyk (throws : bool) : M unit :=
  processRscapeSvg Cyk setRscapeCykStats ;;
  initializePanZoom Cyk Cyk throws.

(** ** The widget as a transition system *)

Inductive Event : Type :=
| SelectType (type : string)
| ClickVarna
| ClickDownload
| SvgMouseMove (tooltipText : option string) (clientX clientY : Z)
| SvgMouseLeave
| SvgClick
| RchieMouseMove (clientX clientY : Z)
| RchieMouseLeave
| RchieClick
| TimerMain (throws : bool)
| TimerCyk (throws : bool)
| Mounted (slot : Slot) (c : option Container)
| RchieMounted (r : option Rect)
| Unmount
| InitialEffectRerun.

(** Whether the screen offers the event: the handler is attached to an
    element that is rendered (and not disabled), the timer's effect found
    its condition true, or the initial-load effect finds [imageTypes]
    changed at every render. *)
Definition enabled (w : World) (ev : Event) : bool :=
  let s := state w in
  match ev with
  | SelectType type =>
      (1 <? length (dropdownTypes s))%nat
      && negb (Status_eqb (imageStatus s) Loading)
      && JS.arr_includes (dropdownTypes s) type
  | ClickVarna => varnaEnabled props
  | ClickDownload => shown s
  | SvgMouseMove _ _ _ | SvgMouseLeave => sideBySideShown s
  | SvgClick => svgWrapperShown s && canToggle s
  | RchieMouseMove _ _ | RchieMouseLeave | RchieClick => rchieShown s
  | TimerMain _ =>
      Status_eqb (imageStatus s) Loaded && hasSvg (svgContent s)
      && isRscapeType s
  | TimerCyk _ =>
      Status_eqb (rscapeCykStatus s) Loaded && hasSvg (rscapeCykContent s)
  | Mounted _ _ | RchieMounted _ | Unmount => true
  | InitialEffectRerun => imageTypesFresh props
  end.

Definition handler (ev : Event) : M unit :=
  match ev with
  | SelectType type => handleImageTypeChange type
  | ClickVarna => openVarnaViewer
  | ClickDownload => downloadImage
  | SvgMouseMove t x y => handleSvgMouseMove t x y
  | SvgMouseLeave => handleSvgMouseLeave
  | SvgClick => handleSvgClick
  | RchieMouseMove x y => handleRchieMouseMove x y
  | RchieMouseLeave => handleRchieMouseLeave
  | RchieClick => openRchiePopup
  | TimerMain throws => timerMain throws
  | TimerCyk throws => timerCyk throws
  | Mounted slot c => set_containerRef slot c
  | RchieMounted r => setRefs (with_rchieImageRef r)
  | Unmount => cleanup
  | InitialEffectRerun => cleanup ;; initialLoadEffect
  end.

(** The state of the last render before the one that follows the event.
    A run of [initializeImages] passes through a render with status
    ['loading'] (the first write of [tryLoadImage]) before it settles;
    every other handler's intermediate render differs from the render
    before it only in cells that the final render changes too. *)
Definition lastRendered (w : World) (ev : Event) : State :=
  match ev with
  | InitialEffectRerun =>
      if JS.truthy_opt (familyAcc props)
         && (0 <? length (imageTypes props))%nat
      then with_imageStatus Loading (state w)
      else state w
  | _ => state w
  end.

Definition step (w : World) (ev : Event) : World :=
  if enabled w ev
  then exec (handler ev ;; commitEffects (lastRendered w ev)) w
  else w.

Definition run (evs : list Event) (w : World) : World :=
  fold_left step evs w.

Definition initialState : State :=
  mkState (JS.or_else (hd_error (imageTypes props)) "rscape") "" Loading ""
          [] None 1 (mkTooltip false "" 0 0) (mkLoupe 0 0 None None false)
          false "" Loading None false.

Definition initialWorld : World :=
  mkWorld initialState (mkRefs None None None None None)
          (mkEnv [] [] [] []).

(** the widget once the first run of its initial-load effect has settled *)
Definition mount : World :=
  exec (initialLoadEffect ;; commitEffects initialState) initialWorld.

End Component.

(** ** The earlier copy of the component (src/SecondaryStructures.jsx) *)

Module Legacy.

(** [downloadImage] of the earlier copy: the anchor's [download] is [null]
    when the content is not vector markup *)
Definition downloadImage (props : Props) : M unit :=
  s <- gets state ;;
  if negb (JS.truthy (svgContent s)) then ret tt
  else
    let isSvg := JS.includes (svgContent s) "<svg" in
    let blobType := if isSvg then "image/svg+xml" else "image/png" in
    let download :=
      if isSvg
      then Some (JS.interpolate (familyAcc props) ++ "_"
                   ++ selectedImageType s ++ "_structure.svg")%string
      else None in
    setEnv (fun e =>
      with_downloads
        (downloads e ++ [mkDownload blobType (svgContent s) download]) e).

End Legacy.

(** * Vocabulary of the properties *)

(** ** Requests and answers *)

Definition getRequest (props : Props) (type : string) : Request :=
  mkRequest GET (buildImageUrl props type).

Definition headRequest (props : Props) (type : string) : Request :=
  mkRequest HEAD (buildImageUrl props type).

(** the world after some more requests were issued *)
Definition log_requests (rs : list Request) (w : World) : World :=
  with_env (with_net_log (net_log (env w) ++ rs) (env w)) w.

(** The fetch succeeded and its body [c] is a recognized image: the vector
    root tag is present, or the content type is the raster one. *)
Definition recognized (o : FetchOutcome) (c : string) : Prop :=
  exists response,
    o = Responded response /\ ok response = true /\
    body response = Some c /\
    (JS.includes c "<svg" = true \/
     exists ct, content_type response = Some ct /\
                JS.includes ct "image/png" = true).

Definition failed (o : FetchOutcome) : Prop :=
  forall c, ~ recognized o c.

(** the placeholder flag of the data model *)
Definition isPlaceholder (r : LoadResult) : bool := negb (isAvailable r).

(** The service answered with raster content [c] and no vector markup. *)
Definition rasterOnly (o : FetchOutcome) (c : string) : Prop :=
  exists response ct,
    o = Responded response /\ ok response = true /\
    body response = Some c /\ JS.includes c "<svg" = false /\
    content_type response = Some ct /\ JS.includes ct "image/png" = true.

(** ** The two halves of a type switch *)

(** the state writes of [handleImageTypeChange] before its [await] *)
Definition switch_begin (type : string) : M unit :=
  setImageStatus Loading ;;
  setSelectedImageType type ;;
  setRscapeStats None ;;
  setRscapeCykStats None ;;
  setIsImageNotAvailable false ;;
  setRscapeCykContent "" ;;
  setRscapeCykStatus Loading.

(** ... and after it *)
Definition switch_end (type : string) (result : option LoadResult) : M unit :=
  match result with
  | Some r =>
      setSvgContent (content r) ;;
      setIsImageNotAvailable (negb (isAvailable r)) ;;
      setImageStatus Loaded
  | None =>
      setImageStatus Error ;;
      setErrorMessage ("Failed to load " ++ type ++ " image.")%string
  end.

(** ** Probing *)

(** The candidates whose probe succeeds, each asked in turn; [history] is
    what the service has seen before the first probe. *)
Fixpoint probe_results (srv : Server) (props : Props)
  (history : list Request) (types : list string) : list string :=
  match types with
  | [] => []
  | t :: rest =>
      (if probe_ok (srv history (headRequest props t)) then [t] else [])
      ++ probe_results srv props (history ++ [headRequest props t]) rest
  end.

(** ** What a callback may change *)

(** [w'] has issued, since [w], content fetches only *)
Definition extends_with_gets (w w' : World) : Prop :=
  exists l, net_log (env w') = net_log (env w) ++ l /\
            Forall (fun r => req_method r = GET) l.

(** what a callback leaves alone, and what it may select *)
Record frame (candidates : list string) (w w' : World) : Prop := mkFrame {
  frame_available : availableTypes (state w') = availableTypes (state w);
  frame_selected :
    selectedImageType (state w') = selectedImageType (state w) \/
    In (selectedImageType (state w')) candidates;
  frame_log : extends_with_gets w w';
  frame_refs : refs w' = refs w;
  frame_pz : pz_log (env w') = pz_log (env w)
}.

(** nothing was found, nothing was asked, everything is still loading *)
Definition idle (w : World) : Prop :=
  imageStatus (state w) = Loading /\
  availableTypes (state w) = [] /\
  rscapeCykStatus (state w) = Loading /\
  net_log (env w) = [].

(** ** Statistics of the annotation pass *)

(** the pairing-line marker *)
Definition is_pairing_line (p : PathEl) : bool :=
  attr_is (p_stroke_width p) "1.44".

(** the fill of the significant tier *)
Definition has_significant_fill (p : PathEl) : bool :=
  attr_is (p_fill p) (significant RSCAPE_COLORS).

(** The statistics as the specification words them: the pairing lines, and
    those of them that also carry the significant fill. *)
Definition stats_as_specified (ps : list PathEl) : Stats :=
  mkStats (length (filter is_pairing_line ps))
          (length (filter (fun p => is_pairing_line p && has_significant_fill p)
                          ps)).

(** The statistics as the loop computes them: the two markers are counted
    independently over all paths. *)
Definition stats_as_counted (ps : list PathEl) : Stats :=
  mkStats (length (filter is_pairing_line ps))
          (length (filter has_significant_fill ps)).

Definition stats_of (slot : Slot) (w : World) : option Stats :=
  match slot with
  | Main => rscapeStats (state w)
  | Cyk => rscapeCykStats (state w)
  end.

Definition setStats_of (slot : Slot) : option Stats -> M unit :=
  match slot with
  | Main => setRscapeStats
  | Cyk => setRscapeCykStats
  end.

(** a world in which the diagram [el] has just been mounted in a slot *)
Definition mounted (slot : Slot) (el : SvgElement) (w : World) : World :=
  exec (set_containerRef slot (Some (mkContainer (Some el)))) w.

(** ** The pan/zoom discipline *)

(** what the pan/zoom discipline is about: the two instance refs and the
    history of library calls *)
Definition View : Type := (option nat * option nat * list PzEffect)%type.

Definition pz_view (w : World) : View :=
  (panZoomInstanceRef (refs w), panZoomCykInstanceRef (refs w),
   pz_log (env w)).

Definition view_ref (s : Slot) (v : View) : option nat :=
  match s with
  | Main => fst (fst v)
  | Cyk => snd (fst v)
  end.

Definition view_set (s : Slot) (x : option nat) (v : View) : View :=
  match s with
  | Main => (x, snd (fst v), snd v)
  | Cyk => (fst (fst v), x, snd v)
  end.

Definition release_view (s : Slot) (v : View) : View :=
  match view_ref s v with
  | Some id => view_set s None (fst v, snd v ++ [PzDestroy id])
  | None => v
  end.

Definition create_view (s : Slot) (v : View) : View :=
  view_set s (Some (length (snd v)))
           (fst v, snd v ++ [PzCreate (length (snd v)) s]).

(** every live instance is the one its slot's ref holds *)
Record pz_ok (v : View) : Prop := mkPzOk {
  pz_held : forall id s, In (id, s) (live (snd v)) <-> view_ref s v = Some id;
  pz_nodup : NoDup (map fst (live (snd v)));
  pz_fresh : forall id s, In (id, s) (live (snd v)) ->
                          (id < length (snd v))%nat
}.

(** ** Phases of the layer toggle *)

Inductive Phase : Type := AllVisible | StructureOnly | SequenceOnly.

(** the phase a value of [svgToggleState] stands for *)
Definition phase_of (toggle : Z) : option Phase :=
  if (toggle =? 1)%Z then Some AllVisible
  else if (toggle =? 2)%Z then Some StructureOnly
  else if (toggle =? 3)%Z then Some SequenceOnly
  else None.

Definition next_phase (p : Phase) : Phase :=
  match p with
  | AllVisible => StructureOnly
  | StructureOnly => SequenceOnly
  | SequenceOnly => AllVisible
  end.

(** visibility of the sequence labels, the outline and the pairing lines *)
Definition layers_of (p : Phase) : string * string * string :=
  match p with
  | AllVisible => ("visible", "visible", "visible")
  | StructureOnly => ("hidden", "visible", "visible")
  | SequenceOnly => ("visible", "hidden", "hidden")
  end.

Definition phase (w : World) : option Phase :=
  phase_of (svgToggleState (state w)).

(** the [style.visibility] of the three sub-layers of the main diagram,
    when all three exist *)
Definition layers (w : World) : option (string * string * string) :=
  match querySvg (svgContainerRef (refs w)) with
  | Some el =>
      match el_seq el, el_outline el, el_pairs el with
      | Some s, Some o, Some p => Some (s, o, p)
      | _, _, _ => None
      end
  | None => None
  end.

Definition click : World -> World := exec handleSvgClick.

(** the toggle state denotes a phase *)
Definition has_phase (w : World) : Prop := exists p, phase w = Some p.

(** ** Concrete services, diagrams and states *)

Definition demoProps : Props :=
  mkProps (Some "RF00001")
          (Some ["rscape"; "seqcons"; "cons"; "norm"; "rchie"])
          "rfam" true true true.

Definition svgResponse : FetchOutcome :=
  Responded (mkResponse true 200 (Some "<svg></svg>") (Some "image/svg+xml")).

Definition pngResponse : FetchOutcome :=
  Responded (mkResponse true 200 (Some "PNG") (Some "image/png")).

Definition notFound : FetchOutcome :=
  Responded (mkResponse false 404 (Some "Not Found") (Some "text/html")).

(** [cons] is missing, [norm] is a diagram, everything else is the raster
    sentinel *)
Definition demoServer : Server := fun _ request =>
  if req_url request =? "rfam/RF00001/image/cons" then notFound
  else if req_url request =? "rfam/RF00001/image/norm" then svgResponse
  else pngResponse.

(** the same widget with the candidate list left out *)
Definition defaultProps : Props :=
  mkProps (Some "RF00001") None "rfam" true true true.

(** nothing exists *)
Definition emptyServer : Server := fun _ _ => notFound.

(** every probe succeeds, no content can be fetched *)
Definition probeOnlyServer : Server := fun _ request =>
  match req_method request with
  | HEAD => svgResponse
  | GET => NetworkError
  end.

(** every diagram is a plain vector image *)
Definition svgServer : Server := fun _ _ => svgResponse.

(** a diagram with one filled shape that is not a pairing line *)
Definition shadedDiagram : SvgElement :=
  mkSvg (Some 500%Z) (Some 500%Z) []
        [mkPathEl (Some "#31a354") None None None]
        false None None None.

(** the fixture of the specification: ten pairing lines, three of them with
    the significant fill, and a conserved nucleotide's circle *)
Definition fixtureDiagram : SvgElement :=
  let line (fill : option string) := mkPathEl fill (Some "1.44") None None in
  mkSvg (Some 500%Z) (Some 500%Z)
        [mkTSpan (Some "#d90000") "R" None None]
        [line (Some "#31a354"); line None; line None;
         line (Some "#31a354"); line None; line None; line None;
         line (Some "#31a354"); line None; line None;
         mkPathEl (Some "#d90000") (Some "0.72") None None]
        true None None None.

(** a diagram with the three sub-layers *)
Definition layeredDiagram : SvgElement :=
  mkSvg (Some 500%Z) (Some 500%Z) [] [] false (Some "") (Some "") (Some "").

Definition layeredWorld : World :=
  mounted Main layeredDiagram
    (exec (setSelectedImageType "norm") (initialWorld demoProps)).

Definition rasterWorld : World :=
  exec (setSelectedImageType "rchie" ;; setSvgContent "PNG" ;;
        setImageStatus Loaded)
       (initialWorld demoProps).

Definition vectorWorld : World :=
  exec (setSelectedImageType "norm" ;; setSvgContent "<svg></svg>" ;;
        setImageStatus Loaded)
       (initialWorld demoProps).

(** * The rest of the earlier copy (src/SecondaryStructures.jsx) *)

(** [buildImageUrl], [buildVarnaUrl] and [checkImageAvailability] of the
    earlier copy are the same text as the component's and are not
    repeated.  The earlier copy has five state cells (selected type,
    content, status, error message, available types); its callbacks are
    transformers of the same [World] that write only those. *)

Module LegacyLoader.

(** the default of the [imageTypes] parameter of the earlier copy *)
Definition DEFAULT_IMAGE_TYPES : list string :=
  ["rscape"; "cons"; "norm"; "cov"; "ent"; "maxcm"; "fcbp"; "rchie";
   "rscape-cyk"].

Definition imageTypes (props : Props) : list string :=
  match imageTypesProp props with
  | Some types => types
  | None => DEFAULT_IMAGE_TYPES
  end.

(** the body of [loadImage] after the [await fetch]: the content itself
    is returned, [null] from the [catch] *)
Definition classify (o : FetchOutcome) : option string :=
  match o with
  | NetworkError => None
  | Responded response =>
      if negb (ok response) then None
      else
        match body response with
        | None => None
        | Some content =>
            let contentType :=
              match content_type response with Some c => c | None => "" end in
            if negb (JS.includes content "<svg")
               && negb (JS.includes contentType "image/png")
            then None
            else Some content
        end
  end.

Section Component.

Variable srv : Server.
Variable props : Props.

Definition loadImage (type : string) : M (option string) :=
  o <- fetch srv GET (buildImageUrl props type) ;;
  ret (classify o).

(** the loop of [tryLoadImage]; [if (svg)] is false for [null] and for the
    empty string *)
Fixpoint tryLoadImage_loop (types : list string) : M bool :=
  match types with
  | [] =>
      setImageStatus Error ;;
      setErrorMessage NO_IMAGES_MESSAGE ;;
      ret false
  | type :: rest =>
      svg <- loadImage type ;;
      match svg with
      | Some content =>
          if JS.truthy content then
            setSvgContent content ;;
            setSelectedImageType type ;;
            setImageStatus Loaded ;;
            ret true
          else tryLoadImage_loop rest
      | None => tryLoadImage_loop rest
      end
  end.

Definition tryLoadImage (types : list string) : M bool :=
  setImageStatus Loading ;;
  tryLoadImage_loop types.

Definition initializeImages : M unit :=
  available <- checkAll srv props (imageTypes props) [] ;;
  setAvailableTypes available ;;
  if (0 <? length available)%nat
  then _ <- tryLoadImage available ;; ret tt
  else
    setImageStatus Error ;;
    setErrorMessage NO_IMAGES_MESSAGE.

End Component.

End LegacyLoader.

(** * Further vocabulary *)

(** the cells the main diagram's panel is drawn from *)
Definition core (w : World)
  : string * string * Status * string * bool * list string * option Stats :=
  (selectedImageType (state w), svgContent (state w), imageStatus (state w),
   errorMessage (state w), isImageNotAvailable (state w),
   availableTypes (state w), rscapeStats (state w)).



(** statistics of the main diagram belong to ['rscape'] *)
Definition stats_for_rscape (w : World) : Prop :=
  rscapeStats (state w) <> None -> selectedImageType (state w) = "rscape".

(** the events that load the main diagram *)
Definition is_load_event (ev : Event) : bool :=
  match ev with
  | SelectType _ | InitialEffectRerun => true
  | _ => false
  end.



(** the request for the comparator's companion type *)
Definition companionRequest (props : Props) : Request :=
  getRequest props "rscape-cacofold".

(** a service whose answers do not depend on what was asked before *)
Definition stateless (srv : Server) : Prop :=
  forall h h' r, srv h r = srv h' r.

(** ** More concrete diagrams and states *)


Definition seqOnlyDiagram : SvgElement :=
  mkSvg (Some 500%Z) (Some 500%Z) [] [] false (Some "") None None.

(** a recognized answer with an empty body *)
Definition emptyPngResponse : FetchOutcome :=
  Responded (mkResponse true 200 (Some "") (Some "image/png")).

Definition emptyPngServer : Server := fun _ _ => emptyPngResponse.

(** probes succeed; [norm] cannot be fetched, the rest are diagrams *)
Definition flakyServer : Server := fun _ request =>
  match req_method request with
  | HEAD => svgResponse
  | GET =>
      if req_url request =? "rfam/RF00001/image/norm" then NetworkError
      else svgResponse
  end.

(** whether the effect on [selectedImageType, imageStatus] loads the
    companion after a state rendered as [prev] became that of [w] *)
Definition companion_due (prev : State) (w : World) : bool :=
  negb ((selectedImageType prev =? selectedImageType (state w))
        && Status_eqb (imageStatus prev) (imageStatus (state w)))
  && (isRscapeType (state w) && Status_eqb (imageStatus (state w)) Loaded).

(** the availability probes among the requests issued so far *)
Definition is_probe (r : Request) : bool :=
  match req_method r with
  | HEAD => true
  | GET => false
  end.

Definition probes (w : World) : list Request :=
  filter is_probe (net_log (env w)).


(** the cells the companion diagram's panel is drawn from *)
Definition companion (w : World) : string * Status * bool :=
  (rscapeCykContent (state w), rscapeCykStatus (state w),
   isRscapeCykNotAvailable (state w)).

(** the not-available flag of a loaded companion says what its content is *)
Definition companion_coherent (w : World) : Prop :=
  rscapeCykStatus (state w) = Loaded ->
  isRscapeCykNotAvailable (state w)
  = negb (JS.includes (rscapeCykContent (state w)) "<svg").

(** one of the four things the companion's panel can show *)
Definition is_companion_panel (b : Block) : bool :=
  match b with
  | CykLoading | CykFailed | CykNotAvailable | CykDiagram => true
  | _ => false
  end.

(** an answer the loader of the earlier copy passes over: a failure, or a
    recognized answer with an empty body *)
Definition unusable (o : FetchOutcome) : Prop :=
  forall c, recognized o c -> c = "".

(** * Properties *)

(** ** Running a callback *)

Lemma bind_run {A B : Type} (c : M A) (k : A -> M B) w :
  bind c k w = k (fst (c w)) (snd (c w)).
Proof. reflexivity. Qed.

Lemma exec_bind {A B : Type} (c : M A) (k : M B) w :
  exec (c ;; k) w = exec k (exec c w).
Proof. reflexivity. Qed.

(** ** How an answer is classified *)

Lemma classify_Some type o r :
  classify type o = Some r ->
  recognized o (content r) /\
  isSvg r = JS.includes (content r) "<svg" /\
  isAvailable r = (isSvg r || (type =? "rchie")).
Proof.
  unfold classify, recognized.
  destruct o as [|resp]; [discriminate|].
  destruct (ok resp) eqn:Hok; cbn [negb]; [|discriminate].
  destruct (body resp) as [c|] eqn:Hbody; [|discriminate].
  destruct (JS.includes c "<svg") eqn:Hsvg; cbn [negb andb orb].
  - intros [= <-]; cbn. repeat split; auto.
    exists resp; repeat split; auto.
  - destruct (content_type resp) as [ct|] eqn:Hct.
    + destruct (JS.includes ct "image/png") eqn:Hpng; cbn [negb];
        [|discriminate].
      intros [= <-]; cbn. repeat split; auto.
      exists resp; repeat split; auto. right; exists ct; auto.
    + cbn. discriminate.
Qed.

Lemma recognized_classify type o c :
  recognized o c ->
  classify type o =
    Some (mkLoadResult c (JS.includes c "<svg" || (type =? "rchie"))
                       (JS.includes c "<svg")).
Proof.
  intros (resp & -> & Hok & Hbody & Himg).
  unfold classify. rewrite Hok, Hbody; cbn [negb].
  destruct (JS.includes c "<svg") eqn:Hsvg; cbn [negb andb]; [reflexivity|].
  destruct Himg as [Himg | (ct & Hct & Hpng)]; [discriminate|].
  rewrite Hct, Hpng. reflexivity.
Qed.

Lemma failed_classify type o : failed o -> classify type o = None.
Proof.
  intros Hf. destruct (classify type o) as [r|] eqn:Hc; [|reflexivity].
  apply classify_Some in Hc. destruct Hc as [Hr _].
  exfalso. exact (Hf _ Hr).
Qed.

Lemma classify_None_failed type o : classify type o = None -> failed o.
Proof.
  intros Hc c Hr. rewrite (recognized_classify type o c Hr) in Hc.
  discriminate.
Qed.

(** ** The fallback loop *)

Lemma log_requests_nil w : log_requests [] w = w.
Proof.
  destruct w as [s r e]; destruct e; unfold log_requests; cbn.
  now rewrite app_nil_r.
Qed.

Lemma log_requests_app a b w :
  log_requests b (log_requests a w) = log_requests (a ++ b) w.
Proof. unfold log_requests; cbn. now rewrite app_assoc. Qed.

Section Loader.

Variable srv : Server.
Variable props : Props.

Lemma loadImage_run type w :
  loadImage srv props type w =
    (classify type (srv (net_log (env w)) (getRequest props type)),
     log_requests [getRequest props type] w).
Proof. reflexivity. Qed.

(** candidates that fail are passed over, each fetched once, in order *)
Lemma tryLoadImage_loop_skip pre : forall rest w,
  (forall i p, nth_error pre i = Some p ->
     failed (srv (net_log (env w)
                    ++ map (getRequest props) (firstn i pre))
                 (getRequest props p))) ->
  tryLoadImage_loop srv props (pre ++ rest) w =
  tryLoadImage_loop srv props rest
    (log_requests (map (getRequest props) pre) w).
Proof.
  induction pre as [|a pre IH]; intros rest w H.
  - cbn [map app]. now rewrite log_requests_nil.
  - cbn [app tryLoadImage_loop]. unfold bind at 1.
    rewrite loadImage_run. cbn [fst snd].
    rewrite (failed_classify a).
    2:{ specialize (H 0%nat a eq_refl). cbn [firstn map] in H.
        now rewrite app_nil_r in H. }
    rewrite IH.
    + rewrite log_requests_app. reflexivity.
    + intros i p Hp. specialize (H (S i) p Hp).
      cbn [firstn map] in H. unfold log_requests; cbn.
      now rewrite <- app_assoc.
Qed.

(** the first candidate that answers with a recognized image is stored *)
Lemma tryLoadImage_loop_hit type post w c :
  recognized (srv (net_log (env w)) (getRequest props type)) c ->
  tryLoadImage_loop srv props (type :: post) w =
  (true,
   exec (setSvgContent c ;;
         setSelectedImageType type ;;
         setIsImageNotAvailable
           (negb (JS.includes c "<svg" || (type =? "rchie"))) ;;
         setImageStatus Loaded)
        (log_requests [getRequest props type] w)).
Proof.
  intros Hhit. cbn [tryLoadImage_loop]. unfold bind at 1.
  rewrite loadImage_run. cbn [fst snd].
  rewrite (recognized_classify type _ c Hhit). reflexivity.
Qed.

End Loader.

(** ** C1: the fallback loader *)

(** C1.  For a candidate list [pre ++ type :: post] in which every
    candidate of [pre] fails when its turn comes and [type] then answers
    with a recognized image of content [c], [tryLoadImage] returns [true]
    and leaves [c] as the displayed content with [type] selected; the
    requests it issued are the content fetches of [pre] followed by that of
    [type], in the caller's order, and nothing of [post] was fetched. *)
Theorem C1_first_success_in_order
  (srv : Server) (props : Props) (w : World)
  (pre : list string) (type : string) (post : list string) (c : string) :
  (forall i p, nth_error pre i = Some p ->
     failed (srv (net_log (env w)
                    ++ map (getRequest props) (firstn i pre))
                 (getRequest props p))) ->
  recognized (srv (net_log (env w) ++ map (getRequest props) pre)
                  (getRequest props type)) c ->
  let types := pre ++ type :: post in
  let w' := exec (tryLoadImage srv props types) w in
  eval (tryLoadImage srv props types) w = true /\
  imageStatus (state w') = Loaded /\
  svgContent (state w') = c /\
  selectedImageType (state w') = type /\
  isImageNotAvailable (state w')
    = negb (JS.includes c "<svg" || (type =? "rchie")) /\
  net_log (env w')
    = net_log (env w) ++ map (getRequest props) (pre ++ [type]).
Proof.
  intros Hpre Hhit types w'.
  set (w0 := exec (setImageStatus Loading ;; setIsImageNotAvailable false) w).
  assert (Hrun : tryLoadImage srv props types w
                 = tryLoadImage_loop srv props types w0) by reflexivity.
  assert (Hlog0 : net_log (env w0) = net_log (env w)) by reflexivity.
  unfold w', exec, eval. rewrite Hrun. unfold types.
  rewrite tryLoadImage_loop_skip by (now rewrite Hlog0).
  rewrite (tryLoadImage_loop_hit srv props type post _ c) by exact Hhit.
  cbn. rewrite map_app, app_assoc. cbn. repeat split; reflexivity.
Qed.

Lemma C1_witness :
  let w' := exec (tryLoadImage demoServer demoProps ["cons"; "norm"; "rchie"])
                 (initialWorld demoProps) in
  eval (tryLoadImage demoServer demoProps ["cons"; "norm"; "rchie"])
       (initialWorld demoProps) = true /\
  imageStatus (state w') = Loaded /\
  svgContent (state w') = "<svg></svg>" /\
  selectedImageType (state w') = "norm" /\
  isImageNotAvailable (state w') = false /\
  net_log (env w')
    = [getRequest demoProps "cons"; getRequest demoProps "norm"].
Proof.
  apply (C1_first_success_in_order demoServer demoProps
           (initialWorld demoProps) ["cons"] "norm" ["rchie"] "<svg></svg>").
  - intros [|[|i]] p; cbn; intros Hp; try discriminate.
    injection Hp as <-. apply (classify_None_failed "cons"). reflexivity.
  - apply (classify_Some "norm" _ (mkLoadResult "<svg></svg>" true true)).
    reflexivity.
Defined.

(** ** What the screen shows *)

Lemma Status_eqb_eq a b : Status_eqb a b = true <-> a = b.
Proof. destruct a, b; cbn; split; intros H; congruence. Qed.

Lemma in_when b c l : In b (when c l) <-> c = true /\ In b l.
Proof. destruct c; cbn; intuition congruence. Qed.

Lemma in_if (b : Block) (c : bool) l1 l2 :
  In b (if c then l1 else l2) <->
  (c = true /\ In b l1) \/ (c = false /\ In b l2).
Proof. destruct c; intuition congruence. Qed.

(** membership in the rendered list, one disjunct per JSX condition *)
Ltac render_cases :=
  unfold render;
  repeat match goal with
         | |- context [match ?x with Some _ => _ | None => _ end] =>
             destruct x
         end;
  repeat first [rewrite in_app_iff | rewrite in_if | rewrite in_when];
  cbn [In].

Ltac render_inv H :=
  decompose [or and] H; clear H; try discriminate; try contradiction.

Lemma render_NotAvailable props w :
  In NotAvailableBlock (render props w) <->
  imageStatus (state w) = Loaded /\ isImageNotAvailable (state w) = true.
Proof.
  split.
  - render_cases; intros H; render_inv H.
    all: match goal with
         | Hc : (_ && _) = true |- _ =>
             apply andb_true_iff in Hc; destruct Hc as [Hs Hn];
             apply Status_eqb_eq in Hs; now split
         end.
  - intros [Hs Hn]. unfold render.
    do 6 (apply in_or_app; right).
    apply in_or_app; left. rewrite Hs, Hn. cbn. auto.
Qed.

Lemma render_Error props w m :
  In (ErrorBlock m) (render props w) <->
  imageStatus (state w) = Error /\ errorMessage (state w) = m.
Proof.
  split.
  - render_cases; intros H; render_inv H.
    all: match goal with
         | Hc : Status_eqb _ Error = true, He : ErrorBlock _ = _ |- _ =>
             apply Status_eqb_eq in Hc; injection He as He; now split
         end.
  - intros [Hs Hm]. unfold render.
    do 5 (apply in_or_app; right).
    apply in_or_app; left. rewrite Hs, Hm. cbn. auto.
Qed.

(** ** Callbacks, run *)

Lemma releasePanZoom_state slot w :
  state (exec (releasePanZoom slot) w) = state w.
Proof.
  unfold releasePanZoom, exec, bind, gets; cbn [fst snd].
  destruct (panZoomRef_current slot w); destruct slot; reflexivity.
Qed.

Lemma releasePanZoom_net slot w :
  net_log (env (exec (releasePanZoom slot) w)) = net_log (env w).
Proof.
  unfold releasePanZoom, exec, bind, gets; cbn [fst snd].
  destruct (panZoomRef_current slot w); destruct slot; reflexivity.
Qed.

Section Switch.

Variable srv : Server.
Variable props : Props.

Lemma handleImageTypeChange_run type w :
  type <> selectedImageType (state w) ->
  exec (handleImageTypeChange srv props type) w =
  let w1 := exec (releasePanZoom Cyk) (exec (releasePanZoom Main) w) in
  exec (switch_end type
          (classify type (srv (net_log (env w)) (getRequest props type))))
       (log_requests [getRequest props type] (exec (switch_begin type) w1)).
Proof.
  intros Hne. apply String.eqb_neq in Hne.
  unfold handleImageTypeChange, exec at 1.
  rewrite bind_run. cbn [gets fst snd]. rewrite Hne.
  set (w1 := exec (releasePanZoom Cyk) (exec (releasePanZoom Main) w)).
  assert (Hnet : net_log (env (exec (switch_begin type) w1))
                 = net_log (env w)).
  { cbn. unfold w1. now rewrite !releasePanZoom_net. }
  cbv zeta. rewrite <- Hnet. reflexivity.
Qed.

End Switch.

(** ** C2: the raster sentinel *)

Lemma rasterOnly_recognized o c : rasterOnly o c -> recognized o c.
Proof.
  intros (resp & ct & -> & Hok & Hb & _ & Hct & Hpng).
  exists resp; repeat split; auto. right; exists ct; auto.
Qed.

(** C2.  When the service answers the content fetch of [type] with raster
    content and no vector markup, the loader's result is a placeholder
    exactly when [type] is not ['rchie'].  After a switch to [type], and
    likewise when the fallback loader reaches [type], the status is
    [loaded]; for a type other than ['rchie'] the not-available panel is on
    screen and no error panel is, and for ['rchie'] the content is genuine
    and the not-available panel is absent.  The comparator's companion
    type is treated the same way in its own slot: status [loaded], flagged
    not available. *)
Theorem C2_raster_is_placeholder_except_rchie
  (srv : Server) (props : Props) (w : World) (type c : string) :
  rasterOnly (srv (net_log (env w)) (getRequest props type)) c ->
  (exists r, eval (loadImage srv props type) w = Some r /\
             content r = c /\
             isPlaceholder r = negb (type =? "rchie")) /\
  (forall w',
     (type <> selectedImageType (state w) /\
      w' = exec (handleImageTypeChange srv props type) w) \/
     (exists rest, w' = exec (tryLoadImage srv props (type :: rest)) w) ->
     imageStatus (state w') = Loaded /\
     svgContent (state w') = c /\
     isImageNotAvailable (state w') = negb (type =? "rchie") /\
     (type <> "rchie" ->
        In NotAvailableBlock (render props w') /\
        forall m, ~ In (ErrorBlock m) (render props w')) /\
     (type = "rchie" -> ~ In NotAvailableBlock (render props w'))) /\
  (type = "rscape-cacofold" ->
     let w' := exec (loadRscapeCyk srv props) w in
     rscapeCykStatus (state w') = Loaded /\
     rscapeCykContent (state w') = c /\
     isRscapeCykNotAvailable (state w') = true /\
     imageStatus (state w') = imageStatus (state w)).
Proof.
  intros Hr.
  assert (Hsvg : JS.includes c "<svg" = false)
    by (destruct Hr as (? & ? & _ & _ & _ & H & _); exact H).
  pose proof (recognized_classify type _ c (rasterOnly_recognized _ _ Hr))
    as Hc.
  rewrite Hsvg in Hc; cbn [orb] in Hc.
  split; [|split].
  - eexists; split; [unfold eval; rewrite loadImage_run; exact Hc|].
    split; reflexivity.
  - intros w' Hw'.
    assert (Hst : imageStatus (state w') = Loaded /\
                  svgContent (state w') = c /\
                  isImageNotAvailable (state w') = negb (type =? "rchie")).
    { destruct Hw' as [[Hne ->] | [rest ->]].
      - rewrite handleImageTypeChange_run by exact Hne.
        cbv zeta. rewrite Hc. cbn. auto.
      - unfold tryLoadImage, exec. do 2 rewrite bind_run.
        rewrite (tryLoadImage_loop_hit srv props type rest _ c)
          by exact (rasterOnly_recognized _ _ Hr).
        rewrite Hsvg. cbn. auto. }
    destruct Hst as (Hs & Hcont & Hna). repeat split; auto.
    + apply render_NotAvailable. rewrite Hs, Hna.
      apply String.eqb_neq in H. now rewrite H.
    + intros m Hm. apply render_Error in Hm. destruct Hm as [Hm _].
      congruence.
    + intros -> Hn. apply render_NotAvailable in Hn.
      destruct Hn as [_ Hn]. rewrite Hna in Hn. discriminate.
  - intros -> w'. unfold w', loadRscapeCyk, exec.
    do 4 rewrite bind_run. rewrite loadImage_run. cbn [fst snd].
    change (net_log (env (snd (setRscapeCykStats None
              (snd (setIsRscapeCykNotAvailable false
                 (snd (setRscapeCykStatus Loading w))))))))
      with (net_log (env w)).
    rewrite Hc. cbn. auto.
Qed.

Lemma C2_witness :
  rasterOnly (demoServer [] (getRequest demoProps "rscape")) "PNG" /\
  In NotAvailableBlock
     (render demoProps
        (exec (tryLoadImage demoServer demoProps ["rscape"])
              (initialWorld demoProps))).
Proof.
  assert (H : rasterOnly (demoServer [] (getRequest demoProps "rscape")) "PNG").
  { exists (mkResponse true 200 (Some "PNG") (Some "image/png")), "image/png".
    repeat split; reflexivity. }
  split; [exact H|].
  destruct (C2_raster_is_placeholder_except_rchie
              demoServer demoProps (initialWorld demoProps) "rscape" "PNG" H)
    as (_ & Hs & _).
  destruct (Hs _ (or_intror (ex_intro _ [] eq_refl)))
    as (_ & _ & _ & Hshown & _).
  apply Hshown. discriminate.
Defined.

(** ** Initialization, run *)

Lemma probe_results_incl srv props types : forall history t,
  In t (probe_results srv props history types) -> In t types.
Proof.
  induction types as [|a types IH]; intros history t; cbn; [auto|].
  rewrite in_app_iff. intros [H | H].
  - destruct (probe_ok _); cbn in H; intuition.
  - right. eapply IH; eauto.
Qed.

Lemma probe_results_none srv props types : forall history,
  (forall i t, nth_error types i = Some t ->
     probe_ok (srv (history ++ map (headRequest props) (firstn i types))
                   (headRequest props t)) = false) ->
  probe_results srv props history types = [].
Proof.
  induction types as [|a types IH]; intros history H; cbn; [reflexivity|].
  pose proof (H 0%nat a eq_refl) as H0. cbn in H0.
  rewrite app_nil_r in H0. rewrite H0. cbn.
  apply IH. intros i t Ht. specialize (H (S i) t Ht). cbn in H.
  now rewrite <- app_assoc.
Qed.

Lemma typesToCheck_In props t :
  In t (typesToCheck props) <->
  In t (imageTypes props) /\ In t DROPDOWN_IMAGE_TYPES.
Proof.
  unfold typesToCheck. rewrite filter_In. unfold JS.arr_includes.
  rewrite existsb_exists. split.
  - intros [Hi (x & Hx & He)]. apply String.eqb_eq in He. subst. auto.
  - intros [Hi Hd]. split; auto. exists t. split; auto.
    apply String.eqb_refl.
Qed.

Section Initialization.

Variable srv : Server.
Variable props : Props.

Lemma checkAll_run types : forall available w,
  checkAll srv props types available w =
  (available ++ probe_results srv props (net_log (env w)) types,
   log_requests (map (headRequest props) types) w).
Proof.
  induction types as [|a types IH]; intros available w.
  - cbn. now rewrite app_nil_r, log_requests_nil.
  - cbn [checkAll]. rewrite bind_run.
    unfold checkImageAvailability at 1 2. rewrite !bind_run.
    cbn [fetch ret fst snd]. rewrite IH.
    cbn [map probe_results]. f_equal.
    + cbn. destruct (probe_ok _); cbn; [now rewrite <- app_assoc | reflexivity].
    + unfold log_requests; cbn. now rewrite <- app_assoc.
Qed.

Lemma tryLoadImage_exhausted types w :
  (forall i t, nth_error types i = Some t ->
     failed (srv (net_log (env w)
                    ++ map (getRequest props) (firstn i types))
                 (getRequest props t))) ->
  tryLoadImage srv props types w =
  (false,
   exec (setImageStatus Error ;; setErrorMessage NO_IMAGES_MESSAGE)
     (log_requests (map (getRequest props) types)
        (exec (setImageStatus Loading ;; setIsImageNotAvailable false) w))).
Proof.
  intros H. unfold tryLoadImage. do 2 rewrite bind_run.
  rewrite <- (app_nil_r types) at 1.
  rewrite tryLoadImage_loop_skip by exact H.
  reflexivity.
Qed.

(** [initializeImages], once probing is done *)
Lemma initializeImages_run w :
  let available := probe_results srv props (net_log (env w))
                     (typesToCheck props) in
  let w1 := exec (setAvailableTypes available)
              (log_requests (map (headRequest props) (typesToCheck props)) w)
  in
  exec (initializeImages srv props) w =
  if (0 <? length available)%nat
  then exec (tryLoadImage srv props available) w1
  else exec (setImageStatus Error ;; setErrorMessage NO_IMAGES_MESSAGE) w1.
Proof.
  cbv zeta. unfold initializeImages, exec at 1.
  rewrite bind_run, checkAll_run. cbn [fst snd app].
  rewrite bind_run. cbn [fst snd].
  destruct (0 <? length _)%nat; reflexivity.
Qed.

End Initialization.

Lemma commitEffects_not_loaded srv props prev w :
  imageStatus (state w) <> Loaded ->
  selectedImageType (state w) = selectedImageType prev ->
  exec (commitEffects srv props prev) w = w.
Proof.
  intros Hs Hsel.
  unfold commitEffects, effect_loadRscapeCyk, effect_resetToggle, exec.
  rewrite !bind_run. cbn [gets fst snd].
  rewrite Hsel, String.eqb_refl. cbn [andb].
  destruct (Status_eqb (imageStatus prev) (imageStatus (state w)));
    cbn [ret fst snd].
  - rewrite Hsel, String.eqb_refl. reflexivity.
  - destruct (imageStatus (state w)) eqn:E; try congruence;
      rewrite andb_false_r; cbn [ret snd fst];
      rewrite Hsel, String.eqb_refl; reflexivity.
Qed.

Lemma initialLoadEffect_guarded srv props :
  JS.truthy_opt (familyAcc props) = true ->
  imageTypes props <> [] ->
  initialLoadEffect srv props = initializeImages srv props.
Proof.
  intros Hf Ht. unfold initialLoadEffect. rewrite Hf.
  destruct (imageTypes props); [congruence | reflexivity].
Qed.

Lemma initialLoadEffect_unguarded srv props :
  JS.truthy_opt (familyAcc props) && (0 <? length (imageTypes props))%nat
    = false ->
  initialLoadEffect srv props = ret tt.
Proof. intros Hg. unfold initialLoadEffect. now rewrite Hg. Qed.

Lemma cleanup_state w : state (exec cleanup w) = state w.
Proof.
  unfold cleanup. rewrite exec_bind. now rewrite !releasePanZoom_state.
Qed.

Lemma cleanup_net w : net_log (env (exec cleanup w)) = net_log (env w).
Proof.
  unfold cleanup. rewrite exec_bind. now rewrite !releasePanZoom_net.
Qed.

(** ** Exhaustion at the initial load *)

(** The first run of the initial-load effect, with an entity reference and
    a non-empty candidate list, when every candidate found available fails
    its content fetch as its turn comes: the widget is in status [error]
    with the fixed message on screen; the requests issued are the probes
    followed by one content fetch per available candidate; no timer is
    pending.  In particular, if every probe answers unavailable, no
    candidate is available and no content fetch is issued at all. *)
Lemma initial_load_exhausted (srv : Server) (props : Props) :
  JS.truthy_opt (familyAcc props) = true ->
  imageTypes props <> [] ->
  let heads := map (headRequest props) (typesToCheck props) in
  let available := probe_results srv props [] (typesToCheck props) in
  (forall i t, nth_error available i = Some t ->
     failed (srv (heads ++ map (getRequest props) (firstn i available))
                 (getRequest props t))) ->
  let w := mount srv props in
  imageStatus (state w) = Error /\
  errorMessage (state w) = NO_IMAGES_MESSAGE /\
  In (ErrorBlock NO_IMAGES_MESSAGE) (render props w) /\
  net_log (env w) = heads ++ map (getRequest props) available /\
  ((forall i t, nth_error (typesToCheck props) i = Some t ->
      probe_ok (srv (map (headRequest props) (firstn i (typesToCheck props)))
                    (headRequest props t)) = false) ->
   available = [] /\ net_log (env w) = heads /\
   forall r, In r (net_log (env w)) -> req_method r = HEAD) /\
  (forall throws, enabled props w (TimerMain throws) = false /\
                  enabled props w (TimerCyk throws) = false).
Proof.
  intros Hf Ht heads available Hfail w.
  assert (Hw : w = exec (commitEffects srv props (initialState props))
                        (exec (initializeImages srv props)
                              (initialWorld props))).
  { unfold w, mount. rewrite exec_bind.
    now rewrite initialLoadEffect_guarded. }
  rewrite initializeImages_run in Hw. cbv zeta in Hw.
  change (net_log (env (initialWorld props))) with (@nil Request) in Hw.
  fold available in Hw.
  assert (Hcore :
    imageStatus (state w) = Error /\
    errorMessage (state w) = NO_IMAGES_MESSAGE /\
    rscapeCykStatus (state w) = Loading /\
    net_log (env w) = heads ++ map (getRequest props) available).
  { destruct (0 <? length available)%nat eqn:Hlen.
    - unfold exec at 2 in Hw. rewrite tryLoadImage_exhausted in Hw.
      2:{ intros i t Hi. apply Hfail. exact Hi. }
      cbn [snd] in Hw.
      rewrite commitEffects_not_loaded in Hw;
        [| cbn; discriminate | reflexivity].
      rewrite Hw. cbn. auto.
    - rewrite commitEffects_not_loaded in Hw;
        [| cbn; discriminate | reflexivity].
      destruct available; [|discriminate].
      rewrite Hw. cbn. now rewrite app_nil_r. }
  destruct Hcore as (Hs & Hm & Hcyk & Hlog).
  split; [exact Hs|]. split; [exact Hm|].
  split; [apply render_Error; auto|]. split; [exact Hlog|]. split.
  - intros Hprobe.
    assert (Hnone : available = [])
      by exact (probe_results_none srv props (typesToCheck props) [] Hprobe).
    rewrite Hnone in Hlog. cbn [map] in Hlog. rewrite app_nil_r in Hlog.
    split; [exact Hnone|]. split; [exact Hlog|].
    intros r Hr. rewrite Hlog in Hr. unfold heads in Hr.
    apply in_map_iff in Hr. destruct Hr as (t & <- & _). reflexivity.
  - intros throws. cbn. rewrite Hs, Hcyk. split; reflexivity.
Qed.

(** ** What a run may add to the request log *)

Lemma extends_refl w : extends_with_gets w w.
Proof. exists []. split; [now rewrite app_nil_r | constructor]. Qed.

Lemma extends_same_log w w' :
  net_log (env w') = net_log (env w) -> extends_with_gets w w'.
Proof.
  intros H. exists []. split; [now rewrite app_nil_r | constructor].
Qed.

Lemma extends_trans a b c :
  extends_with_gets a b -> extends_with_gets b c -> extends_with_gets a c.
Proof.
  intros (l1 & H1 & F1) (l2 & H2 & F2). exists (l1 ++ l2). split.
  - now rewrite H2, H1, app_assoc.
  - apply Forall_app; auto.
Qed.

Section Frames.

Variable srv : Server.
Variable props : Props.

Lemma extends_get type w :
  extends_with_gets w (log_requests [getRequest props type] w).
Proof. exists [getRequest props type]. split; [reflexivity|]. repeat constructor. Qed.

Lemma tryLoadImage_loop_frame types : forall w,
  frame types w (exec (tryLoadImage_loop srv props types) w).
Proof.
  induction types as [|a types IH]; intros w.
  - split; try reflexivity; cbn; auto. now apply extends_same_log.
  - cbn [tryLoadImage_loop]. unfold exec. rewrite bind_run, loadImage_run.
    cbn [fst snd]. destruct (classify a _) as [r|].
    + split; try reflexivity; cbn; auto.
      exists [getRequest props a]. split; [reflexivity | repeat constructor].
    + destruct (IH (log_requests [getRequest props a] w))
        as [Ha Hs Hl Hr Hp].
      split.
      * exact Ha.
      * destruct Hs as [Hs | Hs]; [left; exact Hs | right; right; exact Hs].
      * eapply extends_trans; [apply (extends_get a w) | exact Hl].
      * exact Hr.
      * exact Hp.
Qed.

Lemma tryLoadImage_frame types w :
  frame types w (exec (tryLoadImage srv props types) w).
Proof.
  unfold tryLoadImage, exec. do 2 rewrite bind_run.
  destruct (tryLoadImage_loop_frame types
    (snd (setIsImageNotAvailable false (snd (setImageStatus Loading w)))))
    as [Ha Hs Hl Hr Hp].
  split; [exact Ha | exact Hs | exact Hl | exact Hr | exact Hp].
Qed.

Lemma loadRscapeCyk_frame w :
  frame [] w (exec (loadRscapeCyk srv props) w).
Proof.
  unfold loadRscapeCyk, exec. do 4 rewrite bind_run. rewrite loadImage_run.
  cbn [fst snd].
  destruct (classify _ _); split; try reflexivity; cbn; auto;
    exists [getRequest props "rscape-cacofold"];
    (split; [reflexivity | repeat constructor]).
Qed.

Lemma commitEffects_frame prev w :
  frame [] w (exec (commitEffects srv props prev) w).
Proof.
  unfold commitEffects. rewrite exec_bind.
  set (w1 := exec (effect_loadRscapeCyk srv props prev) w).
  assert (H1 : frame [] w w1).
  { unfold w1, effect_loadRscapeCyk, exec. rewrite bind_run.
    cbn [gets fst snd].
    destruct (_ && _); [split; auto using extends_refl|].
    destruct (_ && _); [apply loadRscapeCyk_frame|].
    split; auto using extends_refl. }
  destruct H1 as [Ha Hs Hl Hr Hp].
  unfold effect_resetToggle, exec. rewrite bind_run. cbn [gets fst snd].
  destruct (_ =? _); cbn [ret snd]; split; cbn; auto.
Qed.

(** a run of [initializeImages] from any state: after the probes and the
    write of [availableTypes], it is a run of the loader *)
Lemma initializeImages_frame w :
  let available := probe_results srv props (net_log (env w))
                     (typesToCheck props) in
  let w1 := exec (setAvailableTypes available)
              (log_requests (map (headRequest props) (typesToCheck props)) w)
  in
  frame available w1 (exec (initializeImages srv props) w).
Proof.
  cbv zeta. rewrite initializeImages_run. cbv zeta.
  destruct (0 <? length _)%nat.
  - apply tryLoadImage_frame.
  - split; try reflexivity; cbn; auto. now apply extends_same_log.
Qed.

Lemma initialLoadEffect_refs w :
  refs (exec (initialLoadEffect srv props) w) = refs w /\
  pz_log (env (exec (initialLoadEffect srv props) w)) = pz_log (env w).
Proof.
  unfold initialLoadEffect.
  destruct (_ && _); [|split; reflexivity].
  destruct (initializeImages_frame w) as [_ _ _ Hr Hp].
  rewrite Hr, Hp. split; reflexivity.
Qed.

End Frames.

(** ** C3: exhaustion is not the end when the candidate list is left out *)

Lemma typesToCheck_default props :
  imageTypesProp props = None -> typesToCheck props = DEFAULT_IMAGE_TYPES.
Proof. intros H. unfold typesToCheck, imageTypes. now rewrite H. Qed.

(** a further run of the initial-load effect issues the probes again *)
Lemma rerun_probes srv props w :
  JS.truthy_opt (familyAcc props) = true ->
  imageTypes props <> [] ->
  exists more,
    net_log (env (exec (handler srv props InitialEffectRerun ;;
                        commitEffects srv props
                          (lastRendered props w InitialEffectRerun)) w))
    = net_log (env w) ++ map (headRequest props) (typesToCheck props) ++ more.
Proof.
  intros Hf Ht. rewrite exec_bind. cbn [handler]. rewrite exec_bind.
  rewrite initialLoadEffect_guarded by assumption.
  set (wc := exec cleanup w).
  set (prev := lastRendered props w InitialEffectRerun).
  destruct (initializeImages_frame srv props wc) as [_ _ (l & Hl & _) _ _].
  destruct (commitEffects_frame srv props prev
              (exec (initializeImages srv props) wc))
    as [_ _ (l' & Hl' & _) _ _].
  exists (l ++ l'). rewrite Hl', Hl. cbn.
  unfold wc. rewrite cleanup_net. now rewrite <- !app_assoc.
Qed.

(** C3.  Let the candidate list be left out (the component then takes its
    default list of eight types) and an entity reference be given.  If
    every candidate found available fails its content fetch as its turn
    comes, the first run of the initial-load effect does end in status
    [error] with the fixed message on screen, after the eight probes and
    one content fetch per available candidate.  But the error is not
    terminal: a further run of the effect is due, it sends the eight probes
    again, and so does every run after it, so the request log grows without
    bound. *)
Theorem C3_omitted_list_is_probed_again (srv : Server) (props : Props) :
  imageTypesProp props = None ->
  JS.truthy_opt (familyAcc props) = true ->
  let heads := map (headRequest props) DEFAULT_IMAGE_TYPES in
  let available := probe_results srv props [] DEFAULT_IMAGE_TYPES in
  (forall i t, nth_error available i = Some t ->
     failed (srv (heads ++ map (getRequest props) (firstn i available))
                 (getRequest props t))) ->
  let w := mount srv props in
  (imageStatus (state w) = Error /\
   errorMessage (state w) = NO_IMAGES_MESSAGE /\
   In (ErrorBlock NO_IMAGES_MESSAGE) (render props w) /\
   net_log (env w) = heads ++ map (getRequest props) available) /\
  enabled props w InitialEffectRerun = true /\
  (exists more,
     net_log (env (step srv props w InitialEffectRerun))
     = net_log (env w) ++ heads ++ more) /\
  (forall n,
     (length (net_log (env w)) + n * 8
      <= length (net_log (env (run srv props
                                 (repeat InitialEffectRerun n) w))))%nat).
Proof.
  intros Hnone Hf heads available Hfail w.
  assert (Htc : typesToCheck props = DEFAULT_IMAGE_TYPES)
    by now apply typesToCheck_default.
  assert (Ht : imageTypes props <> [])
    by (unfold imageTypes; rewrite Hnone; discriminate).
  assert (He : forall w0, enabled props w0 InitialEffectRerun = true)
    by (intros w0; cbn [enabled]; unfold imageTypesFresh; now rewrite Hnone).
  assert (Hstep : forall w0, exists more,
            net_log (env (step srv props w0 InitialEffectRerun))
            = net_log (env w0) ++ heads ++ more).
  { intros w0. unfold step. rewrite He.
    destruct (rerun_probes srv props w0 Hf Ht) as (more & Hm).
    exists more. rewrite Hm, Htc. reflexivity. }
  split; [|split; [apply He | split; [apply Hstep|]]].
  - destruct (initial_load_exhausted srv props Hf Ht) as (H1 & H2 & H3 & H4 & _).
    + rewrite Htc. exact Hfail.
    + rewrite Htc in H4. auto.
  - intros n. generalize w. clear w.
    induction n as [|n IH]; intros w; [cbn; lia|].
    cbn [repeat run fold_left].
    specialize (IH (step srv props w InitialEffectRerun)).
    unfold run in IH.
    destruct (Hstep w) as (more & Hm). rewrite Hm in IH.
    rewrite !length_app in IH. unfold heads in IH.
    rewrite length_map in IH. cbn [DEFAULT_IMAGE_TYPES length] in IH.
    cbn [Nat.mul]. lia.
Qed.

Lemma C3_witness :
  let w := mount probeOnlyServer defaultProps in
  let w0 := mount emptyServer defaultProps in
  (imageStatus (state w) = Error /\
   length (net_log (env w)) = 16%nat /\
   exists more,
     net_log (env (step probeOnlyServer defaultProps w InitialEffectRerun))
     = net_log (env w)
       ++ map (headRequest defaultProps) DEFAULT_IMAGE_TYPES ++ more) /\
  (imageStatus (state w0) = Error /\
   net_log (env w0) = map (headRequest defaultProps) DEFAULT_IMAGE_TYPES /\
   exists more,
     net_log (env (step emptyServer defaultProps w0 InitialEffectRerun))
     = net_log (env w0)
       ++ map (headRequest defaultProps) DEFAULT_IMAGE_TYPES ++ more).
Proof.
  intros w w0. split.
  - destruct (C3_omitted_list_is_probed_again probeOnlyServer defaultProps
                eq_refl eq_refl) as ((Hs & _ & _ & Hl) & _ & Hmore & _).
    + intros i t _. apply (classify_None_failed t). reflexivity.
    + split; [exact Hs|]. split; [|exact Hmore].
      unfold w. rewrite Hl. reflexivity.
  - destruct (C3_omitted_list_is_probed_again emptyServer defaultProps
                eq_refl eq_refl) as ((Hs & _ & _ & Hl) & _ & Hmore & _).
    + intros i t Hi. destruct i; discriminate Hi.
    + split; [exact Hs|]. split; [exact Hl | exact Hmore].
Defined.

Lemma append_cancel_l (a b c : string) :
  (a ++ b)%string = (a ++ c)%string -> b = c.
Proof.
  induction a as [|x a IH]; cbn; [auto|].
  intros H. injection H as H. auto.
Qed.

Lemma buildImageUrl_inj props t t' :
  buildImageUrl props t = buildImageUrl props t' -> t = t'.
Proof.
  unfold buildImageUrl. intros H.
  do 4 apply append_cancel_l in H. exact H.
Qed.

Lemma render_TypeSelector props w options disabled :
  In (TypeSelector options disabled) (render props w) ->
  options = dropdownTypes (state w).
Proof.
  render_cases; intros H; render_inv H.
  all: match goal with
       | He : TypeSelector _ _ = TypeSelector _ _ |- _ =>
           injection He as He _; now symmetry
       end.
Qed.

Lemma dropdownTypes_In s t :
  In t (dropdownTypes s) -> In t DROPDOWN_IMAGE_TYPES.
Proof.
  unfold dropdownTypes. rewrite filter_In. unfold JS.arr_includes.
  rewrite existsb_exists. intros [_ (x & Hx & He)].
  apply String.eqb_eq in He. now subst.
Qed.

Lemma tryLoadImage_loop_selected srv props types : forall w,
  imageStatus (state w) <> Loaded ->
  imageStatus (state (exec (tryLoadImage_loop srv props types) w)) = Loaded ->
  In (selectedImageType (state (exec (tryLoadImage_loop srv props types) w)))
     types.
Proof.
  induction types as [|a types IH]; intros w Hw; cbn [tryLoadImage_loop].
  - cbn. discriminate.
  - unfold exec. rewrite bind_run, loadImage_run. cbn [fst snd].
    destruct (classify a _) as [r|].
    + intros _. now left.
    + intros H. right. apply IH; [exact Hw | exact H].
Qed.

Lemma commitEffects_status srv props prev w :
  imageStatus (state (exec (commitEffects srv props prev) w))
  = imageStatus (state w).
Proof.
  unfold commitEffects, effect_loadRscapeCyk, effect_resetToggle, exec.
  rewrite !bind_run. cbn [gets fst snd].
  destruct (_ && _); cbn [ret fst snd].
  - destruct (_ =? _); reflexivity.
  - destruct (_ && _); cbn [ret fst snd].
    + unfold loadRscapeCyk. rewrite !bind_run, loadImage_run.
      cbn [fst snd]. destruct (classify _ _); cbn;
        destruct (_ =? _); reflexivity.
    + destruct (_ =? _); reflexivity.
Qed.

(** a type selected by a successful initial load was probed *)
Lemma mount_loaded_selected srv props :
  imageStatus (state (mount srv props)) = Loaded ->
  In (selectedImageType (state (mount srv props))) (typesToCheck props).
Proof.
  unfold mount. rewrite exec_bind, commitEffects_status.
  destruct (commitEffects_frame srv props (initialState props)
              (exec (initialLoadEffect srv props) (initialWorld props)))
    as [_ [Hs | []] _ _ _].
  rewrite Hs. unfold initialLoadEffect.
  destruct (_ && _); [|discriminate].
  rewrite initializeImages_run. cbv zeta.
  destruct (0 <? length _)%nat; [|discriminate].
  unfold tryLoadImage, exec. do 2 rewrite bind_run.
  intros H. apply tryLoadImage_loop_selected in H; [|cbn; discriminate].
  eapply probe_results_incl. exact H.
Qed.

(** The widget after its initial load: which candidates were probed, and
    what else happened. *)
Lemma mount_shape srv props :
  let w := mount srv props in
  exists checked,
    (checked = typesToCheck props \/ checked = []) /\
    incl (availableTypes (state w)) checked /\
    (selectedImageType (state w) = selectedImageType (initialState props) \/
     In (selectedImageType (state w)) checked) /\
    (exists l, net_log (env w) = map (headRequest props) checked ++ l /\
               Forall (fun r => req_method r = GET) l) /\
    refs w = refs (initialWorld props) /\
    pz_log (env w) = [].
Proof.
  intros w. unfold w, mount. rewrite exec_bind.
  destruct (JS.truthy_opt (familyAcc props)
            && (0 <? length (imageTypes props))%nat) eqn:Hg.
  - exists (typesToCheck props). split; [now left|].
    unfold initialLoadEffect. rewrite Hg.
    set (wi := exec (initializeImages srv props) (initialWorld props)).
    set (available := probe_results srv props [] (typesToCheck props)).
    set (w1 := exec (setAvailableTypes available)
                 (log_requests (map (headRequest props) (typesToCheck props))
                    (initialWorld props))).
    assert (Hi : frame available w1 wi).
    { unfold wi. rewrite initializeImages_run. cbv zeta.
      change (net_log (env (initialWorld props))) with (@nil Request).
      fold available. fold w1.
      destruct (0 <? length available)%nat.
      - apply tryLoadImage_frame.
      - split; try reflexivity; cbn; auto. now apply extends_same_log. }
    destruct Hi as [Ha Hs Hl Hr Hp].
    destruct (commitEffects_frame srv props (initialState props) wi)
      as [Ha' Hs' Hl' Hr' Hp'].
    assert (Hincl : incl available (typesToCheck props)).
    { intros t Ht. eapply probe_results_incl; eauto. }
    split; [|split; [|split; [|split]]].
    + rewrite Ha', Ha. exact Hincl.
    + destruct Hs' as [Hs' | []]. rewrite Hs'.
      destruct Hs as [Hs | Hs]; [left; exact Hs | right; auto].
    + destruct (extends_trans _ _ _ Hl Hl') as (l & Hlog & Hget).
      exists l. split; [|exact Hget]. rewrite Hlog. reflexivity.
    + rewrite Hr', Hr. reflexivity.
    + rewrite Hp', Hp. reflexivity.
  - exists []. split; [now right|].
    unfold initialLoadEffect. rewrite Hg.
    change (exec (ret tt) (initialWorld props)) with (initialWorld props).
    rewrite commitEffects_not_loaded; [| cbn; discriminate | reflexivity].
    split; [|split; [|split; [|split]]]; try reflexivity.
    + intros t [].
    + now left.
    + exists []. split; [reflexivity | constructor].
Qed.

(** ** C9: only the listed types are probed or offered *)

(** C9.  After the initial load, every availability probe that was issued
    is for a configured type of the fixed eight-type list; so are the
    types recorded as available and, after any further events, the options
    of the type selector.  A configured type outside the list is never
    probed.  If the initial load ends [loaded], the selected type is a
    configured type of the list; in any case it is such a type or the one
    the widget started with. *)
Theorem C9_only_dropdown_types_probed (srv : Server) (props : Props) :
  let w := mount srv props in
  (forall r, In r (net_log (env w)) -> req_method r = HEAD ->
     exists t, r = headRequest props t /\
               In t (imageTypes props) /\ In t DROPDOWN_IMAGE_TYPES) /\
  (forall t, In t (imageTypes props) -> ~ In t DROPDOWN_IMAGE_TYPES ->
     ~ In (headRequest props t) (net_log (env w))) /\
  (forall t, In t (availableTypes (state w)) ->
     In t (imageTypes props) /\ In t DROPDOWN_IMAGE_TYPES) /\
  (forall evs options disabled t,
     In (TypeSelector options disabled)
        (render props (run srv props evs w)) ->
     In t options -> In t DROPDOWN_IMAGE_TYPES) /\
  (imageStatus (state w) = Loaded ->
   In (selectedImageType (state w)) (imageTypes props) /\
   In (selectedImageType (state w)) DROPDOWN_IMAGE_TYPES) /\
  (selectedImageType (state w) = selectedImageType (initialState props) \/
   (In (selectedImageType (state w)) (imageTypes props) /\
    In (selectedImageType (state w)) DROPDOWN_IMAGE_TYPES)).
Proof.
  intros w.
  destruct (mount_shape srv props)
    as (checked & Hchecked & Havail & Hsel & (l & Hlog & Hget) & _).
  fold w in Havail, Hsel, Hlog.
  assert (Hin : forall t, In t checked ->
                  In t (imageTypes props) /\ In t DROPDOWN_IMAGE_TYPES).
  { intros t Ht. destruct Hchecked as [-> | ->]; [|destruct Ht].
    now apply typesToCheck_In. }
  assert (Hheads : forall r, In r (net_log (env w)) -> req_method r = HEAD ->
            exists t, r = headRequest props t /\ In t checked).
  { intros r Hr Hm. rewrite Hlog in Hr. apply in_app_iff in Hr.
    destruct Hr as [Hr | Hr].
    - apply in_map_iff in Hr. destruct Hr as (t & <- & Ht). eauto.
    - rewrite Forall_forall in Hget. apply Hget in Hr. congruence. }
  split; [|split; [|split; [|split; [|split]]]].
  - intros r Hr Hm. destruct (Hheads r Hr Hm) as (t & -> & Ht).
    exists t. split; [reflexivity | now apply Hin].
  - intros t _ Hnot Hr.
    destruct (Hheads _ Hr eq_refl) as (t' & He & Ht').
    injection He as He. apply buildImageUrl_inj in He. subst t'.
    apply Hnot. now apply Hin.
  - intros t Ht. apply Hin. now apply Havail.
  - intros evs options disabled t Hsel' Ht.
    apply render_TypeSelector in Hsel'. subst options.
    eapply dropdownTypes_In; eauto.
  - intros Hloaded. apply typesToCheck_In.
    now apply mount_loaded_selected.
  - destruct Hsel as [Hsel | Hsel]; [now left | right; now apply Hin].
Qed.

Lemma C9_witness :
  ~ In (headRequest demoProps "seqcons")
       (net_log (env (mount demoServer demoProps))).
Proof.
  apply (proj1 (proj2 (C9_only_dropdown_types_probed demoServer demoProps))
           "seqcons").
  - cbn. auto.
  - cbn. intuition discriminate.
Defined.

(** ** C10: a widget that never starts loading *)

Section Idle.

Variable srv : Server.
Variable props : Props.
Hypothesis Hguard :
  JS.truthy_opt (familyAcc props) && (0 <? length (imageTypes props))%nat
  = false.

Lemma commitEffects_idle prev w :
  idle w -> idle (exec (commitEffects srv props prev) w).
Proof.
  clear Hguard. intros (Hs & Ha & Hc & Hl).
  unfold commitEffects, effect_loadRscapeCyk, effect_resetToggle, exec.
  rewrite !bind_run. cbn [gets fst snd]. rewrite Hs.
  rewrite andb_false_r.
  destruct (_ && _); cbn [ret fst snd];
    destruct (_ =? _); cbn; repeat split; auto.
Qed.

Lemma handler_idle ev w :
  idle w -> enabled props w ev = true ->
  idle (exec (handler srv props ev) w).
Proof.
  intros (Hs & Ha & Hc & Hl) He.
  destruct ev; cbn [enabled] in He;
    unfold sideBySideShown, svgWrapperShown, rchieShown, shown,
           dropdownTypes in He;
    rewrite ?Hs, ?Ha, ?Hc in He; cbn in He; try discriminate.
  - repeat split; cbn; auto.
  - destruct slot; repeat split; cbn; auto.
  - repeat split; cbn; auto.
  - cbn [handler]. unfold idle. now rewrite cleanup_state, cleanup_net.
  - cbn [handler]. rewrite exec_bind, initialLoadEffect_unguarded by exact Hguard.
    change (exec (ret tt) ?x) with x.
    unfold idle. now rewrite cleanup_state, cleanup_net.
Qed.

Lemma step_idle ev w : idle w -> idle (step srv props w ev).
Proof.
  intros Hi. unfold step. destruct (enabled props w ev) eqn:He; [|exact Hi].
  rewrite exec_bind. apply commitEffects_idle. now apply handler_idle.
Qed.

Lemma run_idle evs : forall w, idle w -> idle (run srv props evs w).
Proof.
  induction evs as [|ev evs IH]; intros w Hi; [exact Hi|].
  cbn [run fold_left]. apply IH. now apply step_idle.
Qed.

End Idle.

(** C10.  If the entity reference is absent or the candidate list is empty,
    the initial-load effect does nothing: the widget is left as it was
    created, and whatever the user and the environment then do, no request
    is ever issued and the status stays [loading]. *)
Theorem C10_no_start_without_entity_or_candidates
  (srv : Server) (props : Props) :
  JS.truthy_opt (familyAcc props) = false \/ imageTypes props = [] ->
  mount srv props = initialWorld props /\
  forall evs,
    let w := run srv props evs (mount srv props) in
    imageStatus (state w) = Loading /\ net_log (env w) = [].
Proof.
  intros Hg.
  assert (Hguard : JS.truthy_opt (familyAcc props)
                   && (0 <? length (imageTypes props))%nat = false).
  { destruct Hg as [-> | ->]; [reflexivity | now rewrite andb_false_r]. }
  assert (Hm : mount srv props = initialWorld props).
  { unfold mount. rewrite exec_bind.
    rewrite initialLoadEffect_unguarded by exact Hguard.
    change (exec (ret tt) (initialWorld props))
      with (initialWorld props).
    apply commitEffects_not_loaded; [cbn; discriminate | reflexivity]. }
  split; [exact Hm|].
  intros evs w.
  assert (Hi : idle w).
  { unfold w. rewrite Hm. apply run_idle; [exact Hguard | repeat split]. }
  destruct Hi as (Hs & _ & _ & Hl). auto.
Qed.

Lemma C10_witness :
  let props := mkProps None (Some ["rscape"; "cons"]) "rfam" true true true in
  let w := run demoServer props
             [ClickVarna; SelectType "cons"; TimerMain false; Unmount]
             (mount demoServer props) in
  imageStatus (state w) = Loading /\ net_log (env w) = [].
Proof.
  intros props.
  exact (proj2 (C10_no_start_without_entity_or_candidates
                  demoServer props (or_introl eq_refl))
               [ClickVarna; SelectType "cons"; TimerMain false; Unmount]).
Defined.

(** ** C4: the statistics of the annotation pass *)

Lemma annotate_path_counters b s p :
  snd (annotate_path (b, s) p) =
  ((if is_pairing_line p then S b else b),
   (if has_significant_fill p then S s else s)).
Proof.
  unfold annotate_path, is_pairing_line, has_significant_fill.
  cbn [fst snd].
  destruct (attr_is (p_fill p) (significant RSCAPE_COLORS));
    [reflexivity|].
  destruct (attr_is (p_fill p) (conserved97 RSCAPE_COLORS));
    [reflexivity|].
  destruct (attr_is (p_fill p) (conserved90 RSCAPE_COLORS));
    [reflexivity|].
  destruct (attr_is (p_fill p) (conserved75 RSCAPE_COLORS));
    [reflexivity|].
  destruct (attr_is (p_fill p) (conserved50 RSCAPE_COLORS)); reflexivity.
Qed.

Lemma forEach_path_counters ps : forall b s,
  snd (forEach_path ps (b, s)) =
  ((b + length (filter is_pairing_line ps))%nat,
   (s + length (filter has_significant_fill ps))%nat).
Proof.
  induction ps as [|p ps IH]; intros b s; cbn [forEach_path filter length snd].
  - now rewrite !Nat.add_0_r.
  - rewrite annotate_path_counters, IH.
    destruct (is_pairing_line p), (has_significant_fill p);
      cbn [length]; f_equal; lia.
Qed.

Lemma processRscapeSvg_stats slot w el :
  containerRef_current slot w = Some (mkContainer (Some el)) ->
  stats_of slot (exec (processRscapeSvg slot (setStats_of slot)) w)
  = Some (stats_as_counted (paths el)).
Proof.
  intros Hc. unfold processRscapeSvg, exec. rewrite bind_run.
  cbn [gets fst snd]. rewrite Hc. cbn [querySvg svg].
  rewrite bind_run. rewrite forEach_path_counters.
  destruct slot; reflexivity.
Qed.

Lemma significant_subset_counts ps :
  (forall p, In p ps -> has_significant_fill p = true ->
             is_pairing_line p = true) ->
  stats_as_counted ps = stats_as_specified ps.
Proof.
  intros H. unfold stats_as_counted, stats_as_specified. f_equal.
  induction ps as [|p ps IH]; [reflexivity|]. cbn [filter].
  assert (Hp := H p (or_introl eq_refl)).
  assert (IH' := IH (fun q Hq => H q (or_intror Hq))).
  destruct (has_significant_fill p).
  - rewrite Hp by reflexivity. cbn [andb length]. now rewrite IH'.
  - now rewrite andb_false_r.
Qed.

Lemma mounted_current slot el w :
  containerRef_current slot (mounted slot el w)
  = Some (mkContainer (Some el)).
Proof. destruct slot; reflexivity. Qed.

(** The counters are not nested: a path with the significant fill is
    counted whether or not it is a pairing line. *)
Lemma C4_significant_not_a_subset :
  ~ (forall (w : World) (el : SvgElement),
       svgContainerRef (refs w) = Some (mkContainer (Some el)) ->
       rscapeStats (state (exec (processRscapeSvg Main setRscapeStats) w))
       = Some (stats_as_specified (paths el))).
Proof.
  intros H.
  specialize (H (mounted Main shadedDiagram (initialWorld demoProps))
                shadedDiagram eq_refl).
  discriminate H.
Qed.

(** C4 (amended).  On a mounted diagram the annotation pass publishes, for
    its slot, [basepairs] = the number of paths with stroke-width '1.44'
    and [significantBasepairs] = the number of paths with the significant
    fill, each counted over all paths.  When every path with the
    significant fill is a pairing line, these are the pairing lines and
    the significant ones among them.  Mounting the same diagram afresh and
    running the pass again publishes the same counts. *)
Theorem C4_annotation_counts (slot : Slot) (w : World) (el : SvgElement) :
  containerRef_current slot w = Some (mkContainer (Some el)) ->
  let pass := processRscapeSvg slot (setStats_of slot) in
  let w1 := exec pass w in
  let w2 := exec pass (mounted slot el w1) in
  stats_of slot w1 = Some (stats_as_counted (paths el)) /\
  ((forall p, In p (paths el) -> has_significant_fill p = true ->
              is_pairing_line p = true) ->
   stats_of slot w1 = Some (stats_as_specified (paths el))) /\
  stats_of slot w2 = stats_of slot w1.
Proof.
  intros Hc pass w1 w2.
  assert (H1 : stats_of slot w1 = Some (stats_as_counted (paths el)))
    by now apply processRscapeSvg_stats.
  split; [exact H1|]. split.
  - intros Hsub. rewrite H1. f_equal. now apply significant_subset_counts.
  - rewrite H1. apply processRscapeSvg_stats. apply mounted_current.
Qed.

Lemma C4_witness :
  let pass := processRscapeSvg Main setRscapeStats in
  let w1 := exec pass (mounted Main fixtureDiagram (initialWorld demoProps)) in
  let w2 := exec pass (mounted Main fixtureDiagram w1) in
  rscapeStats (state w1) = Some (mkStats 10 3) /\
  rscapeStats (state w2) = Some (mkStats 10 3).
Proof.
  intros pass w1 w2.
  destruct (C4_annotation_counts Main
              (mounted Main fixtureDiagram (initialWorld demoProps))
              fixtureDiagram eq_refl) as (H1 & _ & H2).
  split; [exact H1 | exact (eq_trans H2 H1)].
Defined.

(** ** C5: pan/zoom instances *)

Lemma live_snoc l e : live (l ++ [e]) = pz_step (live l) e.
Proof. unfold live. now rewrite fold_left_app. Qed.

Lemma Slot_eqb_eq a b : Slot_eqb a b = true <-> a = b.
Proof. destruct a, b; cbn; split; congruence. Qed.

Lemma live_on_In s l id : In id (live_on s l) <-> In (id, s) (live l).
Proof.
  unfold live_on. rewrite in_map_iff. split.
  - intros ([i s'] & <- & H). apply filter_In in H. destruct H as [H Hs].
    apply Slot_eqb_eq in Hs. cbn in *. now subst.
  - intros H. exists (id, s). split; [reflexivity|].
    apply filter_In. split; [exact H|]. now apply Slot_eqb_eq.
Qed.

Lemma NoDup_map_filter {A B : Type} (g : A -> B) (f : A -> bool) l :
  NoDup (map g l) -> NoDup (map g (filter f l)).
Proof.
  induction l as [|a l IH]; cbn; intros H; [constructor|].
  inversion H as [|x xs Hnot Hnd]; subst.
  destruct (f a); cbn; auto. constructor; auto.
  intros Hin. apply Hnot. apply in_map_iff in Hin.
  destruct Hin as (y & Hy & Hin). apply filter_In in Hin.
  apply in_map_iff. exists y. tauto.
Qed.

Lemma NoDup_all_equal {A : Type} (a : A) l :
  NoDup l -> (forall x, In x l -> x = a) -> (length l <= 1)%nat.
Proof.
  intros Hnd Hall. destruct l as [|x [|y l]]; cbn; try lia.
  exfalso. inversion Hnd as [|? ? Hnot _]; subst. apply Hnot.
  rewrite (Hall x), (Hall y); cbn; auto.
Qed.

(** at most one live instance per slot *)
Lemma pz_ok_one v s : pz_ok v -> (length (live_on s (snd v)) <= 1)%nat.
Proof.
  intros [Hheld Hnd _].
  destruct (view_ref s v) as [id|] eqn:Href.
  - apply (NoDup_all_equal id).
    + unfold live_on. now apply NoDup_map_filter.
    + intros x Hx. apply live_on_In, Hheld in Hx. congruence.
  - destruct (live_on s (snd v)) as [|x l] eqn:El; cbn; [lia|].
    assert (Hx : In x (live_on s (snd v))) by (rewrite El; now left).
    apply live_on_In, Hheld in Hx. congruence.
Qed.

Lemma NoDup_fst_functional (l : list (nat * Slot)) i s s' :
  NoDup (map fst l) -> In (i, s) l -> In (i, s') l -> s = s'.
Proof.
  induction l as [|[j t] l IH]; cbn; intros Hnd H1 H2; [contradiction|].
  inversion Hnd as [|? ? Hnot Hnd']; subst.
  destruct H1 as [H1 | H1], H2 as [H2 | H2].
  - congruence.
  - injection H1 as -> ->. exfalso. apply Hnot.
    apply in_map_iff. now exists (i, s').
  - injection H2 as -> ->. exfalso. apply Hnot.
    apply in_map_iff. now exists (i, s).
  - auto.
Qed.

Lemma view_ref_set_same s x v : view_ref s (view_set s x v) = x.
Proof. destruct s; reflexivity. Qed.

Lemma view_ref_set_other s s' x v :
  s <> s' -> view_ref s' (view_set s x v) = view_ref s' v.
Proof. destruct s, s'; intros H; try congruence; reflexivity. Qed.

Lemma view_set_log s x v : snd (view_set s x v) = snd v.
Proof. destruct s; reflexivity. Qed.

Lemma Slot_eq_dec (a b : Slot) : a = b \/ a <> b.
Proof. destruct a, b; auto; right; discriminate. Qed.

Lemma release_view_ok s v :
  pz_ok v -> pz_ok (release_view s v) /\ view_ref s (release_view s v) = None.
Proof.
  intros [Hheld Hnd Hfresh]. unfold release_view.
  destruct (view_ref s v) as [id|] eqn:Href; [|split; [split|]; auto].
  split; [|apply view_ref_set_same].
  assert (Hlive : live (snd (view_set s None (fst v, snd v ++ [PzDestroy id])))
                  = filter (fun p => negb (fst p =? id)%nat) (live (snd v))).
  { rewrite view_set_log. cbn [snd]. now rewrite live_snoc. }
  split.
  - intros i t. rewrite Hlive, filter_In. cbn [fst].
    rewrite negb_true_iff, Nat.eqb_neq, Hheld.
    destruct (Slot_eq_dec s t) as [<- | Hne].
    + rewrite view_ref_set_same. split; [|discriminate].
      intros [Hi Hn]. congruence.
    + rewrite view_ref_set_other by exact Hne.
      destruct v as [[m c] l]. destruct t; cbn [view_ref fst snd].
      * split; [tauto|]. intros Hi. split; [exact Hi|]. intros ->.
        apply Hne. apply (NoDup_fst_functional (live l) id); auto.
        -- now apply Hheld.
        -- now apply Hheld.
      * split; [tauto|]. intros Hi. split; [exact Hi|]. intros ->.
        apply Hne. apply (NoDup_fst_functional (live l) id); auto.
        -- now apply Hheld.
        -- now apply Hheld.
  - rewrite Hlive. now apply NoDup_map_filter.
  - intros i t. rewrite Hlive, filter_In, view_set_log. cbn [snd].
    intros [Hi _]. rewrite length_app. cbn. apply Hfresh in Hi. lia.
Qed.

Lemma create_view_ok s v :
  pz_ok v -> view_ref s v = None -> pz_ok (create_view s v).
Proof.
  intros [Hheld Hnd Hfresh] Hnone. unfold create_view.
  assert (Hlive : live (snd (view_set s (Some (length (snd v)))
                     (fst v, snd v ++ [PzCreate (length (snd v)) s])))
                  = live (snd v) ++ [(length (snd v), s)]).
  { rewrite view_set_log. cbn [snd]. now rewrite live_snoc. }
  split.
  - intros i t. rewrite Hlive, in_app_iff. cbn [In].
    destruct (Slot_eq_dec s t) as [<- | Hne].
    + rewrite view_ref_set_same. split.
      * intros [Hi | [Hi | []]]; [|congruence].
        apply Hheld in Hi. congruence.
      * intros [= <-]. right; now left.
    + rewrite view_ref_set_other by exact Hne.
      destruct v as [[m c] l]. destruct t; cbn [view_ref fst snd];
        (split; [intros [Hi | [Hi | []]];
                   [now apply Hheld in Hi | congruence]
                | intros Hi; left; now apply Hheld]).
  - rewrite Hlive, map_app. cbn. apply NoDup_app; [exact Hnd | | ].
    + repeat constructor. intros [].
    + intros x Hx [<- | []]. apply in_map_iff in Hx.
      destruct Hx as ([i t] & Hi & Hin). cbn in Hi. subst i.
      apply Hfresh in Hin. lia.
  - intros i t. rewrite Hlive, in_app_iff, view_set_log. cbn [snd In].
    rewrite length_app. cbn.
    intros [Hi | [Hi | []]]; [apply Hfresh in Hi; lia|].
    injection Hi as <- _. lia.
Qed.

Lemma pz_view_release slot w :
  pz_view (exec (releasePanZoom slot) w) = release_view slot (pz_view w).
Proof.
  unfold releasePanZoom, exec, release_view. rewrite bind_run.
  cbn [gets fst snd]. destruct slot; cbn [panZoomRef_current view_ref pz_view fst snd].
  - destruct (panZoomInstanceRef (refs w)); reflexivity.
  - destruct (panZoomCykInstanceRef (refs w)); reflexivity.
Qed.

Lemma containerRef_release slot slot' w :
  containerRef_current slot (exec (releasePanZoom slot') w)
  = containerRef_current slot w.
Proof.
  unfold releasePanZoom, exec. rewrite bind_run. cbn [gets fst snd].
  destruct (panZoomRef_current slot' w); destruct slot, slot'; reflexivity.
Qed.

(** [initializePanZoom] on a slot: release, then create unless there is no
    diagram or the library raises *)
Lemma pz_view_initialize slot throws w :
  pz_view (exec (initializePanZoom slot slot throws) w) =
  match querySvg (containerRef_current slot w) with
  | None => release_view slot (pz_view w)
  | Some _ =>
      if throws then release_view slot (pz_view w)
      else create_view slot (release_view slot (pz_view w))
  end.
Proof.
  unfold initializePanZoom. rewrite exec_bind.
  rewrite <- pz_view_release.
  rewrite <- (containerRef_release slot slot w).
  set (w1 := exec (releasePanZoom slot) w).
  unfold exec at 1. rewrite bind_run. cbn [gets fst snd].
  destruct (querySvg (containerRef_current slot w1)) as [el|];
    [|reflexivity].
  rewrite bind_run. destruct throws.
  - destruct slot; reflexivity.
  - destruct slot; reflexivity.
Qed.

Lemma pz_view_process slot setStats w :
  (forall v w', pz_view (exec (setStats v) w') = pz_view w') ->
  pz_view (exec (processRscapeSvg slot setStats) w) = pz_view w.
Proof.
  intros Hset. unfold processRscapeSvg, exec at 1. rewrite bind_run.
  cbn [gets fst snd]. destruct (querySvg _); [|reflexivity].
  rewrite bind_run.
  match goal with
  | |- context [snd (setStats ?v ?w')] =>
      change (snd (setStats v w')) with (exec (setStats v) w')
  end.
  rewrite Hset. destruct slot; reflexivity.
Qed.

Section Discipline.

Variable srv : Server.
Variable props : Props.

Lemma pz_view_commit prev w :
  pz_view (exec (commitEffects srv props prev) w) = pz_view w.
Proof.
  destruct (commitEffects_frame srv props prev w) as [_ _ _ Hr Hp].
  unfold pz_view. now rewrite Hr, Hp.
Qed.

Lemma pz_view_switch type w :
  pz_view (exec (handleImageTypeChange srv props type) w) = pz_view w \/
  pz_view (exec (handleImageTypeChange srv props type) w)
  = release_view Cyk (release_view Main (pz_view w)).
Proof.
  destruct (String.eqb_spec type (selectedImageType (state w))) as [He | Hne].
  - left. unfold handleImageTypeChange, exec. rewrite bind_run.
    cbn [gets fst snd]. rewrite He, String.eqb_refl. reflexivity.
  - right. rewrite handleImageTypeChange_run by exact Hne. cbv zeta.
    rewrite <- !pz_view_release.
    destruct (classify _ _); reflexivity.
Qed.

Lemma pz_view_timer slot throws w :
  let timer := match slot with
               | Main => timerMain throws
               | Cyk => timerCyk throws
               end in
  pz_view (exec timer w) = release_view slot (pz_view w) \/
  pz_view (exec timer w) = create_view slot (release_view slot (pz_view w)).
Proof.
  cbv zeta.
  assert (H : forall setStats,
    (forall v w', pz_view (exec (setStats v) w') = pz_view w') ->
    pz_view (exec (processRscapeSvg slot setStats ;;
                   initializePanZoom slot slot throws) w)
    = release_view slot (pz_view w) \/
    pz_view (exec (processRscapeSvg slot setStats ;;
                   initializePanZoom slot slot throws) w)
    = create_view slot (release_view slot (pz_view w))).
  { intros setStats Hset. rewrite exec_bind, pz_view_initialize.
    rewrite pz_view_process by exact Hset.
    destruct (querySvg _); [destruct throws|]; auto. }
  destruct slot; apply H; reflexivity.
Qed.

Lemma handler_pz_ok ev w :
  pz_ok (pz_view w) -> pz_ok (pz_view (exec (handler srv props ev) w)).
Proof.
  intros Hok.
  assert (Hrel : forall s v, pz_ok v -> pz_ok (release_view s v))
    by (intros s v Hv; now apply release_view_ok).
  assert (Hnew : forall s v, pz_ok v ->
            pz_ok (create_view s (release_view s v))).
  { intros s v Hv. destruct (release_view_ok s v Hv) as [H1 H2].
    now apply create_view_ok. }
  destruct ev; cbn [handler].
  - destruct (pz_view_switch type w) as [-> | ->]; auto.
  - exact Hok.
  - unfold downloadImage, exec. rewrite bind_run. cbn [gets fst snd].
    destruct (negb _); exact Hok.
  - unfold handleSvgMouseMove. destruct tooltipText as [t|]; [|exact Hok].
    destruct (JS.truthy t); exact Hok.
  - exact Hok.
  - unfold handleSvgClick, exec. rewrite bind_run. cbn [gets fst snd].
    destruct (_ || _); [exact Hok|]. rewrite bind_run. cbn [gets fst snd].
    destruct (querySvg _) as [el|]; [|exact Hok].
    destruct (el_seq el), (el_outline el), (el_pairs el); exact Hok.
  - unfold handleRchieMouseMove, exec. rewrite !bind_run.
    cbn [gets fst snd]. destruct (negb _); [exact Hok|].
    destruct (rchieImageRef _); exact Hok.
  - exact Hok.
  - exact Hok.
  - destruct (pz_view_timer Main throws w) as [H | H];
      cbv zeta in H; rewrite H; auto.
  - destruct (pz_view_timer Cyk throws w) as [H | H];
      cbv zeta in H; rewrite H; auto.
  - destruct slot; exact Hok.
  - exact Hok.
  - unfold cleanup. rewrite exec_bind, !pz_view_release. auto.
  - rewrite exec_bind.
    destruct (initialLoadEffect_refs srv props (exec cleanup w)) as [Hr Hp].
    unfold pz_view at 1. rewrite Hr, Hp. fold (pz_view (exec cleanup w)).
    unfold cleanup. rewrite exec_bind, !pz_view_release. auto.
Qed.

Lemma step_pz_ok ev w :
  pz_ok (pz_view w) -> pz_ok (pz_view (step srv props w ev)).
Proof.
  intros Hok. unfold step. destruct (enabled props w ev); [|exact Hok].
  rewrite exec_bind, pz_view_commit. now apply handler_pz_ok.
Qed.

Lemma run_pz_ok evs : forall w,
  pz_ok (pz_view w) -> pz_ok (pz_view (run srv props evs w)).
Proof.
  induction evs as [|ev evs IH]; intros w Hok; [exact Hok|].
  cbn [run fold_left]. apply IH. now apply step_pz_ok.
Qed.

Lemma mount_pz_ok : pz_ok (pz_view (mount srv props)).
Proof.
  destruct (mount_shape srv props) as (_ & _ & _ & _ & _ & Hr & Hp).
  unfold pz_view. rewrite Hr, Hp. split; cbn.
  - intros id s. destruct s; cbn; split; [tauto | discriminate
                                         | tauto | discriminate].
  - constructor.
  - tauto.
Qed.

End Discipline.

Lemma run_app srv props evs1 evs2 w :
  run srv props (evs1 ++ evs2) w = run srv props evs2 (run srv props evs1 w).
Proof. unfold run. now rewrite fold_left_app. Qed.

Lemma view_ref_current slot w :
  view_ref slot (pz_view w) = panZoomRef_current slot w.
Proof. destruct slot; reflexivity. Qed.

(** C5.  In every state the widget can reach from its initial load, each
    diagram slot has at most one live pan/zoom instance.  When
    [initializePanZoom] runs on a slot whose ref holds an instance [old],
    the first thing it does to the library is destroy [old]; after that
    either nothing follows and the ref is null, or one new instance,
    different from [old], is created for the slot and stored in the ref;
    [old] is not live afterwards.  In particular two type switches, with
    whatever happens between and after them, leave at most one live
    instance on the main slot. *)
Theorem C5_one_viewport_per_slot
  (srv : Server) (props : Props) (evs : list Event) :
  let w := run srv props evs (mount srv props) in
  (forall slot, (length (live_on slot (pz_log (env w))) <= 1)%nat) /\
  (forall slot throws old,
     panZoomRef_current slot w = Some old ->
     let w' := exec (initializePanZoom slot slot throws) w in
     exists rest,
       pz_log (env w') = pz_log (env w) ++ PzDestroy old :: rest /\
       ((rest = [] /\ panZoomRef_current slot w' = None) \/
        (exists new, rest = [PzCreate new slot] /\ new <> old /\
                     panZoomRef_current slot w' = Some new)) /\
       ~ In old (live_on slot (pz_log (env w'))) /\
       (length (live_on slot (pz_log (env w'))) <= 1)%nat) /\
  (forall t1 between t2 after,
     let w' := run srv props
                 (SelectType t1 :: between ++ SelectType t2 :: after) w in
     (length (live_on Main (pz_log (env w'))) <= 1)%nat).
Proof.
  intros w.
  assert (Hreach : forall more,
            pz_ok (pz_view (run srv props more w))).
  { intros more. unfold w. rewrite <- run_app.
    apply run_pz_ok, mount_pz_ok. }
  assert (Hok : pz_ok (pz_view w)) by exact (Hreach []).
  split; [|split].
  - intros slot. exact (pz_ok_one _ slot Hok).
  - intros slot throws old Hold w'.
    assert (Hok' : pz_ok (pz_view w')).
    { unfold w'. rewrite pz_view_initialize.
      destruct (release_view_ok slot _ Hok) as [H1 H2].
      destruct (querySvg _); [destruct throws|]; auto.
      now apply create_view_ok. }
    assert (Hview := pz_view_initialize slot throws w). fold w' in Hview.
    assert (Hrel : release_view slot (pz_view w)
                   = view_set slot None
                       (fst (pz_view w), pz_log (env w) ++ [PzDestroy old])).
    { unfold release_view. rewrite view_ref_current, Hold. reflexivity. }
    assert (Hlt : (old < length (pz_log (env w)))%nat).
    { apply (pz_fresh _ Hok old slot). apply (pz_held _ Hok).
      now rewrite view_ref_current. }
    assert (Hcases :
      (pz_view w' = release_view slot (pz_view w)) \/
      (pz_view w' = create_view slot (release_view slot (pz_view w)))).
    { rewrite Hview. destruct (querySvg _); [destruct throws|]; auto. }
    assert (Hgone : forall r, panZoomRef_current slot w' = r ->
              r <> Some old -> ~ In old (live_on slot (pz_log (env w')))).
    { intros r Hr Hne Hin. apply live_on_In in Hin.
      apply (pz_held _ Hok') in Hin. rewrite view_ref_current in Hin.
      congruence. }
    destruct Hcases as [Hv | Hv].
    + assert (Hlog : pz_log (env w') = pz_log (env w) ++ [PzDestroy old]).
      { change (pz_log (env w')) with (snd (pz_view w')).
        now rewrite Hv, Hrel, view_set_log. }
      assert (Href : panZoomRef_current slot w' = None).
      { rewrite <- view_ref_current, Hv, Hrel. apply view_ref_set_same. }
      exists []. split; [exact Hlog|]. split; [now left|]. split.
      * apply (Hgone None Href). discriminate.
      * exact (pz_ok_one _ slot Hok').
    + set (new := length (pz_log (env w) ++ [PzDestroy old])).
      assert (Hcreate : create_view slot (release_view slot (pz_view w))
                = view_set slot (Some new)
                    (fst (release_view slot (pz_view w)),
                     (pz_log (env w) ++ [PzDestroy old])
                       ++ [PzCreate new slot])).
      { unfold create_view. rewrite Hrel, view_set_log. reflexivity. }
      assert (Hlog : pz_log (env w')
                     = pz_log (env w) ++ [PzDestroy old; PzCreate new slot]).
      { change (pz_log (env w')) with (snd (pz_view w')).
        rewrite Hv, Hcreate, view_set_log. cbn [snd].
        now rewrite <- app_assoc. }
      assert (Href : panZoomRef_current slot w' = Some new).
      { rewrite <- view_ref_current, Hv, Hcreate. apply view_ref_set_same. }
      assert (Hne : new <> old).
      { unfold new. rewrite length_app. cbn. lia. }
      exists [PzCreate new slot]. split; [exact Hlog|]. split.
      * right. exists new. auto.
      * split; [|exact (pz_ok_one _ slot Hok')].
        apply (Hgone (Some new) Href). congruence.
  - intros t1 between t2 after w'.
    exact (pz_ok_one _ Main (Hreach _)).
Qed.

Lemma C5_witness :
  let w := run svgServer demoProps
             [Mounted Main (Some (mkContainer (Some fixtureDiagram)));
              TimerMain false]
             (mount svgServer demoProps) in
  let w' := exec (initializePanZoom Main Main false) w in
  exists rest,
    pz_log (env w') = pz_log (env w) ++ PzDestroy 0 :: rest /\
    ((rest = [] /\ panZoomRef_current Main w' = None) \/
     (exists new, rest = [PzCreate new Main] /\ new <> 0%nat /\
                  panZoomRef_current Main w' = Some new)) /\
    ~ In 0%nat (live_on Main (pz_log (env w'))) /\
    (length (live_on Main (pz_log (env w'))) <= 1)%nat.
Proof.
  exact (proj1 (proj2 (C5_one_viewport_per_slot svgServer demoProps
           [Mounted Main (Some (mkContainer (Some fixtureDiagram)));
            TimerMain false]))
         Main false 0%nat eq_refl).
Defined.

(** ** C6: the layer toggle *)

Lemma handleSvgClick_advances w p v :
  selectedImageType (state w) <> "rscape" ->
  selectedImageType (state w) <> "rchie" ->
  layers w = Some v ->
  phase w = Some p ->
  selectedImageType (state (click w)) = selectedImageType (state w) /\
  imageStatus (state (click w)) = imageStatus (state w) /\
  phase (click w) = Some (next_phase p) /\
  layers (click w) = Some (layers_of (next_phase p)).
Proof.
  intros Hr Hc Hl Hp.
  apply String.eqb_neq in Hr. apply String.eqb_neq in Hc.
  unfold layers in Hl. unfold phase in Hp.
  unfold click, handleSvgClick, exec, phase, layers.
  rewrite bind_run. cbn [gets fst snd]. rewrite Hr, Hc. cbn [orb].
  rewrite bind_run. cbn [gets fst snd containerRef_current].
  destruct (querySvg (svgContainerRef (refs w))) as [el|]; [|discriminate].
  destruct (el_seq el) as [s|]; [|discriminate].
  destruct (el_outline el) as [o|]; [|discriminate].
  destruct (el_pairs el) as [q|]; [|discriminate].
  unfold phase_of in Hp.
  destruct (svgToggleState (state w) =? 1)%Z eqn:E1.
  { apply Z.eqb_eq in E1. rewrite E1. injection Hp as <-.
    cbn. auto. }
  destruct (svgToggleState (state w) =? 2)%Z eqn:E2.
  { apply Z.eqb_eq in E2. rewrite E2. injection Hp as <-.
    cbn. auto. }
  destruct (svgToggleState (state w) =? 3)%Z eqn:E3; [|discriminate].
  injection Hp as <-. cbn. auto.
Qed.

Lemma commitEffects_same_deps srv props prev w :
  selectedImageType (state w) = selectedImageType prev ->
  imageStatus (state w) = imageStatus prev ->
  exec (commitEffects srv props prev) w = w.
Proof.
  intros Hsel Hst.
  unfold commitEffects, effect_loadRscapeCyk, effect_resetToggle, exec.
  rewrite !bind_run. cbn [gets fst snd].
  rewrite Hsel, Hst, String.eqb_refl.
  replace (Status_eqb (imageStatus prev) (imageStatus prev)) with true
    by (destruct (imageStatus prev); reflexivity).
  cbn [andb ret fst snd]. rewrite Hsel, String.eqb_refl. reflexivity.
Qed.

Lemma lastRendered_selected props w ev :
  selectedImageType (lastRendered props w ev) = selectedImageType (state w).
Proof.
  destruct ev; try reflexivity. cbn [lastRendered].
  destruct (_ && _); reflexivity.
Qed.

Lemma commitEffects_resets srv props prev w :
  selectedImageType (state (exec (commitEffects srv props prev) w))
    <> selectedImageType prev ->
  svgToggleState (state (exec (commitEffects srv props prev) w)) = 1%Z.
Proof.
  unfold commitEffects. rewrite exec_bind.
  set (w1 := exec (effect_loadRscapeCyk srv props prev) w).
  unfold effect_resetToggle, exec. rewrite bind_run. cbn [gets fst snd].
  destruct (String.eqb_spec (selectedImageType prev)
                            (selectedImageType (state w1))) as [He | Hne].
  - cbn [ret snd]. congruence.
  - reflexivity.
Qed.

Lemma has_phase_toggle w w' :
  svgToggleState (state w') = svgToggleState (state w) ->
  has_phase w -> has_phase w'.
Proof. unfold has_phase, phase. now intros ->. Qed.

Lemma has_phase_one w : svgToggleState (state w) = 1%Z -> has_phase w.
Proof. intros H. exists AllVisible. unfold phase. now rewrite H. Qed.

Section Toggle.

Variable srv : Server.
Variable props : Props.

Lemma tryLoadImage_loop_toggle types : forall w,
  svgToggleState (state (exec (tryLoadImage_loop srv props types) w))
  = svgToggleState (state w).
Proof.
  induction types as [|a types IH]; intros w; [reflexivity|].
  cbn [tryLoadImage_loop]. unfold exec. rewrite bind_run, loadImage_run.
  cbn [fst snd]. destruct (classify a _); [reflexivity|].
  apply (IH (log_requests [getRequest props a] w)).
Qed.

Lemma initialLoadEffect_toggle w :
  svgToggleState (state (exec (initialLoadEffect srv props) w))
  = svgToggleState (state w).
Proof.
  unfold initialLoadEffect. destruct (_ && _); [|reflexivity].
  rewrite initializeImages_run. cbv zeta.
  destruct (0 <? length _)%nat; [|reflexivity].
  unfold tryLoadImage, exec at 1. do 2 rewrite bind_run.
  etransitivity; [apply (tryLoadImage_loop_toggle _ _) | reflexivity].
Qed.

Lemma commitEffects_has_phase prev w :
  has_phase w -> has_phase (exec (commitEffects srv props prev) w).
Proof.
  intros Hw. unfold commitEffects. rewrite exec_bind.
  set (w1 := exec (effect_loadRscapeCyk srv props prev) w).
  assert (H1 : svgToggleState (state w1) = svgToggleState (state w)).
  { unfold w1, effect_loadRscapeCyk, exec. rewrite bind_run.
    cbn [gets fst snd]. destruct (_ && _); [reflexivity|].
    destruct (_ && _); [|reflexivity].
    unfold loadRscapeCyk. rewrite !bind_run, loadImage_run. cbn [fst snd].
    destruct (classify _ _); reflexivity. }
  unfold effect_resetToggle, exec. rewrite bind_run. cbn [gets fst snd].
  destruct (_ =? _); cbn [ret snd].
  - now apply (has_phase_toggle w).
  - now apply has_phase_one.
Qed.

Lemma handler_has_phase ev w :
  has_phase w -> has_phase (exec (handler srv props ev) w).
Proof.
  intros Hw. destruct ev; cbn [handler];
    try (apply (has_phase_toggle w); [reflexivity | exact Hw]).
  - destruct (String.eqb_spec type (selectedImageType (state w)))
      as [He | Hne].
    + unfold handleImageTypeChange, exec. rewrite bind_run.
      cbn [gets fst snd]. rewrite He, String.eqb_refl. exact Hw.
    + apply (has_phase_toggle w); [|exact Hw].
      rewrite handleImageTypeChange_run by exact Hne. cbv zeta.
      destruct (classify _ _); cbn; now rewrite !releasePanZoom_state.
  - apply (has_phase_toggle w); [|exact Hw].
    unfold downloadImage, exec. rewrite bind_run. cbn [gets fst snd].
    destruct (negb _); reflexivity.
  - apply (has_phase_toggle w); [|exact Hw].
    unfold handleSvgMouseMove. destruct tooltipText as [t|]; [|reflexivity].
    destruct (JS.truthy t); reflexivity.
  - unfold handleSvgClick, exec. rewrite bind_run. cbn [gets fst snd].
    destruct (_ || _); [exact Hw|]. rewrite bind_run. cbn [gets fst snd].
    destruct (querySvg _) as [el|]; [|exact Hw].
    destruct Hw as [p Hp]. unfold phase, phase_of in Hp.
    assert (Hn : has_phase
      (exec (setSvgToggleState
               (if (svgToggleState (state w) =? 3)%Z then 1%Z
                else (svgToggleState (state w) + 1)%Z)) w)).
    { destruct (svgToggleState (state w) =? 1)%Z eqn:E1.
      { apply Z.eqb_eq in E1. rewrite E1. now exists StructureOnly. }
      destruct (svgToggleState (state w) =? 2)%Z eqn:E2.
      { apply Z.eqb_eq in E2. rewrite E2. now exists SequenceOnly. }
      destruct (svgToggleState (state w) =? 3)%Z eqn:E3; [|discriminate].
      now exists AllVisible. }
    destruct (el_seq el), (el_outline el), (el_pairs el);
      try (eapply has_phase_toggle; [|exact Hn]; reflexivity).
    now exists p.
  - apply (has_phase_toggle w); [|exact Hw].
    unfold handleRchieMouseMove, exec. rewrite !bind_run.
    cbn [gets fst snd]. destruct (negb _); [reflexivity|].
    destruct (rchieImageRef _); reflexivity.
  - apply (has_phase_toggle w); [|exact Hw].
    unfold timerMain, processRscapeSvg, initializePanZoom, releasePanZoom,
      svgPanZoom, exec.
    rewrite !bind_run. cbn [gets fst snd].
    repeat match goal with
           | |- context [match ?x with _ => _ end] => destruct x; cbn
           end; reflexivity.
  - apply (has_phase_toggle w); [|exact Hw].
    unfold timerCyk, processRscapeSvg, initializePanZoom, releasePanZoom,
      svgPanZoom, exec.
    rewrite !bind_run. cbn [gets fst snd].
    repeat match goal with
           | |- context [match ?x with _ => _ end] => destruct x; cbn
           end; reflexivity.
  - apply (has_phase_toggle w); [|exact Hw]. destruct slot; reflexivity.
  - apply (has_phase_toggle w); [|exact Hw].
    unfold cleanup. rewrite exec_bind. now rewrite !releasePanZoom_state.
  - apply (has_phase_toggle w); [|exact Hw].
    now rewrite exec_bind, initialLoadEffect_toggle, cleanup_state.
Qed.

Lemma run_has_phase evs : forall w,
  has_phase w -> has_phase (run srv props evs w).
Proof.
  induction evs as [|ev evs IH]; intros w Hw; [exact Hw|].
  cbn [run fold_left]. apply IH. unfold step.
  destruct (enabled props w ev); [|exact Hw].
  rewrite exec_bind. now apply commitEffects_has_phase, handler_has_phase.
Qed.

(** in every state the widget reaches, the toggle state is a phase *)
Lemma reachable_has_phase evs :
  has_phase (run srv props evs (mount srv props)).
Proof.
  apply run_has_phase. unfold mount. rewrite exec_bind.
  apply commitEffects_has_phase. apply has_phase_one.
  now rewrite initialLoadEffect_toggle.
Qed.

End Toggle.

(** C6.  For a selected type other than ['rscape'] and ['rchie'], on a
    diagram that has the three named sub-layers, a click moves the phase to
    the next one of the cycle all-visible, structure-only, sequence-only,
    and sets the three visibilities to those of the new phase, leaving the
    selected type alone; three clicks come back to the starting phase.
    A click the screen offers does exactly this and nothing else.  And
    whenever an event of the widget changes the selected type, the phase
    afterwards is all-visible; in every state the widget reaches from its
    initial load the toggle state is one of the three phases. *)
Theorem C6_toggle_cycle
  (srv : Server) (props : Props) (w : World) (p : Phase)
  (v : string * string * string) :
  selectedImageType (state w) <> "rscape" ->
  selectedImageType (state w) <> "rchie" ->
  layers w = Some v ->
  phase w = Some p ->
  (phase (click w) = Some (next_phase p) /\
   layers (click w) = Some (layers_of (next_phase p))) /\
  (phase (click (click (click w))) = Some p /\
   layers (click (click (click w))) = Some (layers_of p)) /\
  (enabled props w SvgClick = true -> step srv props w SvgClick = click w) /\
  (forall (w0 : World) (ev : Event),
     selectedImageType (state (step srv props w0 ev))
       <> selectedImageType (state w0) ->
     phase (step srv props w0 ev) = Some AllVisible) /\
  (forall evs, has_phase (run srv props evs (mount srv props))).
Proof.
  intros Hr Hc Hl Hp.
  destruct (handleSvgClick_advances w p v Hr Hc Hl Hp)
    as (S1 & T1 & P1 & L1).
  assert (Hr1 : selectedImageType (state (click w)) <> "rscape")
    by now rewrite S1.
  assert (Hc1 : selectedImageType (state (click w)) <> "rchie")
    by now rewrite S1.
  destruct (handleSvgClick_advances _ _ _ Hr1 Hc1 L1 P1)
    as (S2 & _ & P2 & L2).
  assert (Hr2 : selectedImageType (state (click (click w))) <> "rscape")
    by now rewrite S2.
  assert (Hc2 : selectedImageType (state (click (click w))) <> "rchie")
    by now rewrite S2.
  destruct (handleSvgClick_advances _ _ _ Hr2 Hc2 L2 P2)
    as (S3 & _ & P3 & L3).
  split; [split; assumption|]. split; [|split; [|split]].
  - destruct p; split; assumption.
  - intros He. unfold step. rewrite He, exec_bind.
    now apply commitEffects_same_deps.
  - intros w0 ev Hchg. unfold step in *.
    destruct (enabled props w0 ev); [|congruence].
    rewrite exec_bind in *. unfold phase.
    rewrite commitEffects_resets; [reflexivity|].
    now rewrite lastRendered_selected.
  - intros evs. apply reachable_has_phase.
Qed.

Lemma C6_witness :
  phase (click layeredWorld) = Some StructureOnly /\
  layers (click layeredWorld) = Some ("hidden", "visible", "visible") /\
  phase (click (click (click layeredWorld))) = Some AllVisible /\
  layers (click (click (click layeredWorld)))
    = Some ("visible", "visible", "visible").
Proof.
  destruct (C6_toggle_cycle demoServer demoProps layeredWorld AllVisible
              ("", "", "")) as ((P1 & L1) & (P3 & L3) & _).
  - discriminate.
  - discriminate.
  - reflexivity.
  - reflexivity.
  - auto.
Defined.

(** ** C7: the loupe *)

Lemma prefix_two_minus s :
  String.prefix "--" (String "-" (String "-" s)) = true.
Proof. cbn. destruct s; reflexivity. Qed.

Lemma show_negative z :
  (z < 0)%Z -> JS.show z = ("-" ++ JS.show (- z))%string.
Proof. destruct z as [|p|p]; intros H; try lia. reflexivity. Qed.

Lemma show_unsigned z :
  (0 <= z)%Z -> String.prefix "-" (JS.show z) = false.
Proof.
  destruct z as [|p|p]; intros H; try lia; [reflexivity|].
  unfold JS.show. cbn [Z.to_int NilZero.string_of_int].
  unfold NilZero.string_of_uint.
  destruct (Pos.to_uint p); reflexivity.
Qed.

Lemma render_LoupeBox props w left top background :
  In (LoupeBox left top background) (render props w) <->
  rchieImageRef (refs w) <> None /\
  lp_visible (loupePosition (state w)) = true /\
  selectedImageType (state w) = "rchie" /\
  (left, top, background)
  = ((lp_x (loupePosition (state w)) - 100)%Z,
     (lp_y (loupePosition (state w)) - 100)%Z,
     backgroundPosition (loupePosition (state w))).
Proof.
  split.
  - render_cases; intros H; render_inv H.
    all: match goal with
         | Hc : (_ && _) = true, He : LoupeBox _ _ _ = LoupeBox _ _ _ |- _ =>
             apply andb_true_iff in Hc; destruct Hc as [Hv Hr];
             apply String.eqb_eq in Hr; injection He as <- <- <-;
             repeat split; auto; discriminate
         end.
  - intros (Href & Hv & Hs & [= -> -> ->]). unfold render.
    repeat (apply in_or_app; right).
    destruct (rchieImageRef (refs w)); [|congruence].
    unfold isRchieType. rewrite Hv, Hs. now left.
Qed.

(** C7.  With ['rchie'] selected and its image mounted, a pointer move to
    the whole-pixel position [(clientX, clientY)] shows one loupe, its
    corner 100 left of and above the pointer, and the two numbers its
    [backgroundPosition] is written from are twice the pointer's
    coordinates inside the image's bounding box, minus 100.  The style
    text writes each number after a literal minus sign.  Where the pointer
    is at least 50 pixels from the left (top) edge of the image, the
    number is written without a sign and the horizontal (vertical)
    component is a negative length.  Where it is less than 50 pixels from
    that edge, the number is negative and is written with a minus sign of
    its own, so the component begins with two minus signs: it is no
    length, and the offset is not published.  A pointer move the screen
    offers does exactly this. *)
Theorem C7_offset_text_near_the_edge
  (srv : Server) (props : Props) (w : World) (rect : Rect)
  (clientX clientY : Z) :
  selectedImageType (state w) = "rchie" ->
  rchieImageRef (refs w) = Some rect ->
  let w' := exec (handleRchieMouseMove clientX clientY) w in
  let localX := (clientX - rect_left rect)%Z in
  let localY := (clientY - rect_top rect)%Z in
  let offsetX := (2 * localX - 100)%Z in
  let offsetY := (2 * localY - 100)%Z in
  (loupe_offset (lp_bgX (loupePosition (state w'))) = Some offsetX /\
   loupe_offset (lp_bgY (loupePosition (state w'))) = Some offsetY) /\
  (forall left top background,
     In (LoupeBox left top background) (render props w') <->
     (left, top, background)
     = ((clientX - 100)%Z, (clientY - 100)%Z,
        ("-" ++ JS.show offsetX ++ "px -" ++ JS.show offsetY ++ "px")%string)) /\
  ((localX < 50)%Z ->
   JS.show offsetX = ("-" ++ JS.show (100 - 2 * localX))%string /\
   String.prefix "--"
     ("-" ++ JS.show offsetX ++ "px -" ++ JS.show offsetY ++ "px") = true) /\
  ((localY < 50)%Z ->
   JS.show offsetY = ("-" ++ JS.show (100 - 2 * localY))%string) /\
  ((50 <= localX)%Z -> String.prefix "-" (JS.show offsetX) = false) /\
  ((50 <= localY)%Z -> String.prefix "-" (JS.show offsetY) = false) /\
  (enabled props w (RchieMouseMove clientX clientY) = true ->
   step srv props w (RchieMouseMove clientX clientY) = w').
Proof.
  intros Hsel Href w' localX localY offsetX offsetY.
  assert (Hw' : w' = exec (setLoupePosition
                  (mkLoupe clientX clientY (Some localX) (Some localY) true))
                  w).
  { unfold w', handleRchieMouseMove, exec. rewrite !bind_run.
    cbn [gets fst snd]. rewrite Hsel, Href. reflexivity. }
  assert (Hx : (localX * 2 - 100 = offsetX)%Z) by (unfold offsetX; lia).
  assert (Hy : (localY * 2 - 100 = offsetY)%Z) by (unfold offsetY; lia).
  assert (Hst : state w' = with_loupePosition
                  (mkLoupe clientX clientY (Some localX) (Some localY) true)
                  (state w)) by (rewrite Hw'; reflexivity).
  assert (Hrf : refs w' = refs w) by (rewrite Hw'; reflexivity).
  split; [|split; [|split; [|split; [|split; [|split]]]]].
  - rewrite Hst. cbn [with_loupePosition loupePosition lp_bgX lp_bgY
                      loupe_offset option_map].
    now rewrite Hx, Hy.
  - intros left top background. rewrite render_LoupeBox.
    rewrite Hrf, Href, Hst.
    cbn [with_loupePosition loupePosition selectedImageType lp_visible
         lp_x lp_y].
    unfold backgroundPosition, show_number.
    cbn [lp_bgX lp_bgY loupe_offset option_map]. rewrite Hx, Hy.
    split; [intros (_ & _ & _ & H); exact H|].
    intros H. repeat split; [discriminate | exact Hsel | exact H].
  - intros Hlt.
    assert (Hs : JS.show offsetX = ("-" ++ JS.show (100 - 2 * localX))%string).
    { rewrite show_negative by (unfold offsetX; lia).
      do 2 f_equal. unfold offsetX. lia. }
    split; [exact Hs|]. rewrite Hs. cbn [append]. apply prefix_two_minus.
  - intros Hlt. rewrite show_negative by (unfold offsetY; lia).
    do 2 f_equal. unfold offsetY. lia.
  - intros Hge. apply show_unsigned. unfold offsetX. lia.
  - intros Hge. apply show_unsigned. unfold offsetY. lia.
  - intros He. unfold step. rewrite He, exec_bind. cbn [handler lastRendered].
    fold w'. apply commitEffects_same_deps; rewrite Hst; reflexivity.
Qed.

Lemma C7_witness :
  let w := exec (setSelectedImageType "rchie" ;;
                 setRefs (with_rchieImageRef (Some (mkRect 20 30))))
                (initialWorld demoProps) in
  In (LoupeBox (-70) (-60) "--80px --80px")
     (render demoProps (exec (handleRchieMouseMove 30 40) w)) /\
  In (LoupeBox 0 30 "-60px -100px")
     (render demoProps (exec (handleRchieMouseMove 100 130) w)).
Proof.
  intros w.
  pose proof (C7_offset_text_near_the_edge demoServer demoProps w
                (mkRect 20 30) 30 40 eq_refl eq_refl) as Hnear.
  pose proof (C7_offset_text_near_the_edge demoServer demoProps w
                (mkRect 20 30) 100 130 eq_refl eq_refl) as Hfar.
  split.
  - apply (proj1 (proj2 Hnear)). reflexivity.
  - apply (proj1 (proj2 Hfar)). reflexivity.
Defined.

(** ** C8: the download action *)


(** C8.  On displayed raster content of type ['rchie'] for entity
    RF00001, the earlier copy of the component offers an [image/png] blob
    whose anchor has no file name ([download] is [null]), where the
    component's own [downloadImage] names it [RF00001_rchie_structure.png];
    on vector content both name the file [RF00001_norm_structure.svg]. *)
Theorem C8_legacy_download_has_no_raster_name :
  downloads (env (exec (Legacy.downloadImage demoProps) rasterWorld))
    = [mkDownload "image/png" "PNG" None] /\
  downloads (env (exec (downloadImage demoProps) rasterWorld))
    = [mkDownload "image/png" "PNG" (Some "RF00001_rchie_structure.png")] /\
  downloads (env (exec (Legacy.downloadImage demoProps) vectorWorld))
    = [mkDownload "image/svg+xml" "<svg></svg>"
                  (Some "RF00001_norm_structure.svg")] /\
  downloads (env (exec (downloadImage demoProps) vectorWorld))
    = [mkDownload "image/svg+xml" "<svg></svg>"
                  (Some "RF00001_norm_structure.svg")].
Proof. repeat split; reflexivity. Qed.

(** * Further properties *)

(** ** The two ways the fallback loader ends *)

Section LoaderOutcome.

Variable srv : Server.
Variable props : Props.

(** the world a hit on [t] with content [c] after the failures of [pre]
    leaves *)
Lemma tryLoadImage_loop_outcome types : forall w,
  (exec (tryLoadImage_loop srv props types) w
   = exec (setImageStatus Error ;; setErrorMessage NO_IMAGES_MESSAGE)
          (log_requests (map (getRequest props) types) w) /\
   eval (tryLoadImage_loop srv props types) w = false /\
   forall i p, nth_error types i = Some p ->
     failed (srv (net_log (env w)
                    ++ map (getRequest props) (firstn i types))
                 (getRequest props p)))
  \/
  (exists pre t post c,
     types = pre ++ t :: post /\
     (forall i p, nth_error pre i = Some p ->
        failed (srv (net_log (env w)
                       ++ map (getRequest props) (firstn i pre))
                    (getRequest props p))) /\
     recognized (srv (net_log (env w) ++ map (getRequest props) pre)
                     (getRequest props t)) c /\
     eval (tryLoadImage_loop srv props types) w = true /\
     exec (tryLoadImage_loop srv props types) w
     = exec (setSvgContent c ;;
             setSelectedImageType t ;;
             setIsImageNotAvailable
               (negb (JS.includes c "<svg" || (t =? "rchie"))) ;;
             setImageStatus Loaded)
            (log_requests (map (getRequest props) (pre ++ [t])) w)).
Proof.
  induction types as [|a types IH]; intros w.
  - left. split; [|split].
    + cbn [map]. now rewrite log_requests_nil.
    + reflexivity.
    + intros [|i] p; discriminate.
  - destruct (classify a (srv (net_log (env w)) (getRequest props a)))
      as [r|] eqn:Hc.
    + right. exists [], a, types, (content r).
      apply classify_Some in Hc. destruct Hc as (Hrec & _ & _).
      cbn [app map]. rewrite app_nil_r.
      split; [reflexivity|]. split; [intros [|i] p; discriminate|].
      split; [exact Hrec|].
      unfold eval, exec.
      rewrite (tryLoadImage_loop_hit srv props a types w (content r) Hrec).
      split; reflexivity.
    + assert (Hstep : tryLoadImage_loop srv props (a :: types) w
                = tryLoadImage_loop srv props types
                    (log_requests [getRequest props a] w)).
      { cbn [tryLoadImage_loop]. rewrite bind_run, loadImage_run.
        cbn [fst snd]. now rewrite Hc. }
      assert (Hlog : net_log (env (log_requests [getRequest props a] w))
                     = net_log (env w) ++ [getRequest props a])
        by reflexivity.
      assert (Hfa : failed (srv (net_log (env w)) (getRequest props a)))
        by exact (classify_None_failed a _ Hc).
      unfold eval, exec. rewrite Hstep.
      destruct (IH (log_requests [getRequest props a] w))
        as [(Hw & Hv & Hf) | (pre & t & post & c & Ht & Hf & Hr & Hv & Hw)].
      * left. split; [|split].
        -- unfold exec in Hw. rewrite Hw, log_requests_app. reflexivity.
        -- exact Hv.
        -- intros [|i] p Hp.
           ++ injection Hp as <-. cbn [firstn map]. now rewrite app_nil_r.
           ++ specialize (Hf i p Hp). rewrite Hlog in Hf.
              cbn [firstn map]. now rewrite <- app_assoc in Hf.
      * right. exists (a :: pre), t, post, c.
        split; [now rewrite Ht|]. split; [|split; [|split]].
        -- intros [|i] p Hp.
           ++ injection Hp as <-. cbn [firstn map]. now rewrite app_nil_r.
           ++ specialize (Hf i p Hp). rewrite Hlog in Hf.
              cbn [firstn map]. now rewrite <- app_assoc in Hf.
        -- rewrite Hlog in Hr. cbn [map]. now rewrite <- app_assoc in Hr.
        -- exact Hv.
        -- unfold exec in Hw. rewrite Hw, log_requests_app. reflexivity.
Qed.

End LoaderOutcome.

(** X1.  [tryLoadImage] always ends in one of two ways.  Either every
    candidate failed when its turn came: it returns [false], the status is
    [error] with the fixed message, every candidate was fetched once, in
    order, and the selected type and the content are as before.  Or the
    list splits into candidates that failed, a first candidate that
    answered with a recognized image, and candidates never fetched: it
    returns [true] and the status is [loaded] with that content and type. *)
Theorem X1_loader_ends_exhausted_or_hit
  (srv : Server) (props : Props) (types : list string) (w : World) :
  let w' := exec (tryLoadImage srv props types) w in
  let result := eval (tryLoadImage srv props types) w in
  (result = false /\
   imageStatus (state w') = Error /\
   errorMessage (state w') = NO_IMAGES_MESSAGE /\
   selectedImageType (state w') = selectedImageType (state w) /\
   svgContent (state w') = svgContent (state w) /\
   net_log (env w') = net_log (env w) ++ map (getRequest props) types /\
   forall i p, nth_error types i = Some p ->
     failed (srv (net_log (env w)
                    ++ map (getRequest props) (firstn i types))
                 (getRequest props p)))
  \/
  (result = true /\
   exists pre t post c,
     types = pre ++ t :: post /\
     (forall i p, nth_error pre i = Some p ->
        failed (srv (net_log (env w)
                       ++ map (getRequest props) (firstn i pre))
                    (getRequest props p))) /\
     recognized (srv (net_log (env w) ++ map (getRequest props) pre)
                     (getRequest props t)) c /\
     imageStatus (state w') = Loaded /\
     svgContent (state w') = c /\
     selectedImageType (state w') = t /\
     net_log (env w')
       = net_log (env w) ++ map (getRequest props) (pre ++ [t])).
Proof.
  intros w' result.
  set (w0 := exec (setImageStatus Loading ;; setIsImageNotAvailable false) w).
  assert (Hrun : tryLoadImage srv props types w
                 = tryLoadImage_loop srv props types w0) by reflexivity.
  unfold w', result, exec, eval. rewrite Hrun.
  destruct (tryLoadImage_loop_outcome srv props types w0)
    as [(Hw & Hv & Hf) | (pre & t & post & c & Ht & Hf & Hr & Hv & Hw)];
    unfold exec, eval in *.
  - left. rewrite Hw, Hv. cbn. repeat split; auto.
  - right. rewrite Hw, Hv. split; [reflexivity|].
    exists pre, t, post, c. cbn. repeat split; auto.
Qed.


(** ** The effects after a callback *)

Section Commit.

Variable srv : Server.
Variable props : Props.

Lemma loadRscapeCyk_core w :
  core (exec (loadRscapeCyk srv props) w) = core w.
Proof.
  unfold loadRscapeCyk, exec. do 4 rewrite bind_run. rewrite loadImage_run.
  cbn [fst snd]. destruct (classify _ _); reflexivity.
Qed.

Lemma loadRscapeCyk_log w :
  net_log (env (exec (loadRscapeCyk srv props) w))
  = net_log (env w) ++ [companionRequest props].
Proof.
  unfold loadRscapeCyk, exec. do 4 rewrite bind_run. rewrite loadImage_run.
  cbn [fst snd]. destruct (classify _ _); reflexivity.
Qed.

Lemma commitEffects_core prev w :
  core (exec (commitEffects srv props prev) w) = core w.
Proof.
  unfold commitEffects. rewrite exec_bind.
  set (w1 := exec (effect_loadRscapeCyk srv props prev) w).
  assert (H1 : core w1 = core w).
  { unfold w1, effect_loadRscapeCyk, exec. rewrite bind_run.
    cbn [gets fst snd]. destruct (_ && _); [reflexivity|].
    destruct (_ && _); [apply loadRscapeCyk_core | reflexivity]. }
  rewrite <- H1.
  unfold effect_resetToggle, exec. rewrite bind_run. cbn [gets fst snd].
  destruct (_ =? _); reflexivity.
Qed.

Lemma commitEffects_log prev w :
  net_log (env (exec (commitEffects srv props prev) w))
  = net_log (env w)
    ++ (if companion_due prev w then [companionRequest props] else []).
Proof.
  unfold commitEffects. rewrite exec_bind.
  set (w1 := exec (effect_loadRscapeCyk srv props prev) w).
  assert (H1 : net_log (env w1)
               = net_log (env w)
                 ++ (if companion_due prev w
                     then [companionRequest props] else [])).
  { unfold w1, effect_loadRscapeCyk, companion_due, exec. rewrite bind_run.
    cbn [gets fst snd]. destruct (_ && _); cbn [negb andb].
    - now rewrite app_nil_r.
    - destruct (_ && _).
      + apply loadRscapeCyk_log.
      + cbn. now rewrite app_nil_r. }
  rewrite <- H1.
  unfold effect_resetToggle, exec. rewrite bind_run. cbn [gets fst snd].
  destruct (_ =? _); reflexivity.
Qed.

End Commit.

Lemma core_selected w w' :
  core w' = core w ->
  selectedImageType (state w') = selectedImageType (state w) /\
  svgContent (state w') = svgContent (state w) /\
  imageStatus (state w') = imageStatus (state w) /\
  errorMessage (state w') = errorMessage (state w) /\
  isImageNotAvailable (state w') = isImageNotAvailable (state w) /\
  availableTypes (state w') = availableTypes (state w) /\
  rscapeStats (state w') = rscapeStats (state w).
Proof. unfold core. intros [= -> -> -> -> -> -> ->]. repeat split. Qed.

(** ** The initial load, in full *)

(** After an initial load that ran, the widget is in one of two
    situations; [heads] are the probes, [available] what they found. *)
Lemma mount_outcome srv props :
  JS.truthy_opt (familyAcc props) = true ->
  imageTypes props <> [] ->
  let heads := map (headRequest props) (typesToCheck props) in
  let available := probe_results srv props [] (typesToCheck props) in
  let w := mount srv props in
  availableTypes (state w) = available /\
  rscapeStats (state w) = None /\
  ((imageStatus (state w) = Error /\
    errorMessage (state w) = NO_IMAGES_MESSAGE /\
    selectedImageType (state w) = selectedImageType (initialState props) /\
    svgContent (state w) = "" /\
    net_log (env w) = heads ++ map (getRequest props) available /\
    forall i p, nth_error available i = Some p ->
      failed (srv (heads ++ map (getRequest props) (firstn i available))
                  (getRequest props p)))
   \/
   (exists pre t post c,
      available = pre ++ t :: post /\
      (forall i p, nth_error pre i = Some p ->
         failed (srv (heads ++ map (getRequest props) (firstn i pre))
                     (getRequest props p))) /\
      recognized (srv (heads ++ map (getRequest props) pre)
                      (getRequest props t)) c /\
      imageStatus (state w) = Loaded /\
      svgContent (state w) = c /\
      selectedImageType (state w) = t /\
      isImageNotAvailable (state w)
        = negb (JS.includes c "<svg" || (t =? "rchie")) /\
      net_log (env w)
        = heads ++ map (getRequest props) (pre ++ [t])
          ++ (if t =? "rscape" then [companionRequest props] else []))).
Proof.
  intros Hf Ht heads available w.
  set (wi := exec (initializeImages srv props) (initialWorld props)).
  assert (Hw : w = exec (commitEffects srv props (initialState props)) wi).
  { unfold w, mount. rewrite exec_bind.
    now rewrite initialLoadEffect_guarded. }
  pose proof (commitEffects_core srv props (initialState props) wi) as Hcore.
  rewrite <- Hw in Hcore. apply core_selected in Hcore.
  destruct Hcore as (Cs & Cc & Ct & Ce & Cf & Ca & Cr).
  pose proof (commitEffects_log srv props (initialState props) wi) as Hlog.
  rewrite <- Hw in Hlog.
  assert (Hwi := initializeImages_run srv props (initialWorld props)).
  cbv zeta in Hwi. fold wi in Hwi.
  change (net_log (env (initialWorld props))) with (@nil Request) in Hwi.
  fold available in Hwi.
  set (w1 := exec (setAvailableTypes available)
               (log_requests (map (headRequest props) (typesToCheck props))
                  (initialWorld props))) in Hwi.
  rewrite Cs, Cc, Ct, Ce, Cf, Ca, Cr, Hlog.
  assert (Hexhausted :
    forall l, wi = exec (setImageStatus Error ;;
                         setErrorMessage NO_IMAGES_MESSAGE)
                        (log_requests l
                           (exec (setImageStatus Loading ;;
                                  setIsImageNotAvailable false) w1)) ->
    availableTypes (state wi) = available /\
    rscapeStats (state wi) = None /\
    imageStatus (state wi) = Error /\
    errorMessage (state wi) = NO_IMAGES_MESSAGE /\
    selectedImageType (state wi) = selectedImageType (initialState props) /\
    svgContent (state wi) = "" /\
    net_log (env wi)
      ++ (if companion_due (initialState props) wi
          then [companionRequest props] else [])
    = heads ++ l).
  { intros l ->. repeat split.
    unfold companion_due. cbn. rewrite !andb_false_r. cbn.
    now rewrite app_nil_r. }
  destruct (0 <? length available)%nat eqn:Hlen.
  - set (w0 := exec (setImageStatus Loading ;; setIsImageNotAvailable false)
                    w1) in *.
    assert (Hrun : exec (tryLoadImage srv props available) w1
                   = exec (tryLoadImage_loop srv props available) w0)
      by reflexivity.
    rewrite Hrun in Hwi.
    destruct (tryLoadImage_loop_outcome srv props available w0)
      as [(Hx & _ & Hfl) | (pre & t & post & c & Hsplit & Hfl & Hr & _ & Hx)];
      rewrite Hx in Hwi.
    + destruct (Hexhausted _ Hwi) as (Ha & Hs & H1 & H2 & H3 & H4 & H5).
      split; [exact Ha|]. split; [exact Hs|]. left.
      repeat split; auto.
    + split; [rewrite Hwi; reflexivity|].
      split; [rewrite Hwi; reflexivity|]. right.
      exists pre, t, post, c. split; [exact Hsplit|].
      split; [exact Hfl|]. split; [exact Hr|].
      split; [rewrite Hwi; reflexivity|].
      split; [rewrite Hwi; reflexivity|].
      split; [rewrite Hwi; reflexivity|].
      split; [rewrite Hwi; reflexivity|].
      assert (Hd : companion_due (initialState props) wi = (t =? "rscape")).
      { rewrite Hwi. unfold companion_due, isRscapeType. cbn.
        rewrite andb_false_r. cbn. now rewrite andb_true_r. }
      rewrite Hd, Hwi. cbn. now rewrite <- !app_assoc.
  - destruct available as [|a l]; [|discriminate].
    assert (Hwi' : wi = exec (setImageStatus Error ;;
                              setErrorMessage NO_IMAGES_MESSAGE)
                             (log_requests []
                                (exec (setImageStatus Loading ;;
                                       setIsImageNotAvailable false) w1))).
    { rewrite Hwi, log_requests_nil. reflexivity. }
    destruct (Hexhausted _ Hwi') as (Ha & Hs & H1 & H2 & H3 & H4 & H5).
    split; [exact Ha|]. split; [exact Hs|]. left.
    repeat split; auto.
    intros [|i] p; discriminate.
Qed.


(** ** What each event leaves alone *)

Ltac run_handler :=
  repeat first
    [ rewrite bind_run
    | progress cbn [gets fst snd]
    | match goal with
      | |- context [match ?x with _ => _ end] => destruct x
      end ];
  try reflexivity.

Lemma Status_eqb_refl s : Status_eqb s s = true.
Proof. destruct s; reflexivity. Qed.

Lemma companion_due_same prev w :
  selectedImageType (state w) = selectedImageType prev ->
  imageStatus (state w) = imageStatus prev ->
  companion_due prev w = false.
Proof.
  intros Hs Ht. unfold companion_due.
  now rewrite Hs, Ht, String.eqb_refl, Status_eqb_refl.
Qed.

Section Events.

Variable srv : Server.
Variable props : Props.

(** the annotation timer of the main slot writes the statistics only *)
Lemma timerMain_state throws w :
  state (exec (timerMain throws) w) = state w \/
  exists st, state (exec (timerMain throws) w)
             = with_rscapeStats (Some st) (state w).
Proof.
  unfold timerMain. rewrite exec_bind.
  set (w1 := exec (processRscapeSvg Main setRscapeStats) w).
  assert (H1 : state w1 = state w \/
               exists st, state w1 = with_rscapeStats (Some st) (state w)).
  { unfold w1, processRscapeSvg, exec. rewrite bind_run.
    cbn [gets fst snd]. destruct (querySvg _); [|now left].
    right. eexists. reflexivity. }
  assert (H2 : state (exec (initializePanZoom Main Main throws) w1)
               = state w1).
  { clearbody w1.
    unfold initializePanZoom, releasePanZoom, svgPanZoom, exec.
    run_handler. }
  rewrite H2. exact H1.
Qed.

Lemma timerMain_log throws w :
  net_log (env (exec (timerMain throws) w)) = net_log (env w).
Proof.
  unfold timerMain, processRscapeSvg, initializePanZoom, releasePanZoom,
    svgPanZoom, exec.
  run_handler.
Qed.

Lemma timerCyk_core throws w :
  core (exec (timerCyk throws) w) = core w /\
  net_log (env (exec (timerCyk throws) w)) = net_log (env w).
Proof.
  unfold timerCyk, processRscapeSvg, initializePanZoom, releasePanZoom,
    svgPanZoom, exec.
  split; run_handler.
Qed.

(** every event but the loading ones and the main annotation timer leaves
    the main diagram's cells alone *)
Lemma handler_core ev w :
  is_load_event ev = false ->
  (forall b, ev <> TimerMain b) ->
  core (exec (handler srv props ev) w) = core w.
Proof.
  intros Hload Htim. destruct ev; cbn [handler];
    try discriminate Hload; try (exfalso; now eapply Htim);
    try reflexivity.
  - unfold downloadImage, exec. run_handler.
  - unfold handleSvgMouseMove, exec. run_handler.
  - unfold handleSvgClick, exec. run_handler.
  - unfold handleRchieMouseMove, exec. run_handler.
  - apply timerCyk_core.
  - destruct slot; reflexivity.
  - unfold core. now rewrite cleanup_state.
Qed.

(** no event but the loading ones touches the network *)
Lemma handler_log ev w :
  is_load_event ev = false ->
  net_log (env (exec (handler srv props ev) w)) = net_log (env w).
Proof.
  intros Hload. destruct ev; cbn [handler];
    try discriminate Hload; try reflexivity.
  - unfold downloadImage, exec. run_handler.
  - unfold handleSvgMouseMove, exec. run_handler.
  - unfold handleSvgClick, exec. run_handler.
  - unfold handleRchieMouseMove, exec. run_handler.
  - apply timerMain_log.
  - apply timerCyk_core.
  - destruct slot; reflexivity.
  - apply cleanup_net.
Qed.

Lemma handler_deps ev w :
  is_load_event ev = false ->
  selectedImageType (state (exec (handler srv props ev) w))
    = selectedImageType (state w) /\
  imageStatus (state (exec (handler srv props ev) w))
    = imageStatus (state w).
Proof.
  intros Hload.
  destruct ev as [t| | | | | | | | |b| | | | |] eqn:E;
    try discriminate Hload;
    try (assert (Hc : core (exec (handler srv props ev) w) = core w)
           by (subst ev; apply handler_core;
               [exact Hload | intros b' Hb; discriminate Hb]);
         subst ev; apply core_selected in Hc; tauto).
  cbn [handler].
  destruct (timerMain_state b w) as [-> | (st & ->)]; split; reflexivity.
Qed.

Lemma lastRendered_other ev w :
  is_load_event ev = false -> lastRendered props w ev = state w.
Proof. destruct ev; intros H; try discriminate H; reflexivity. Qed.

End Events.


(** ** A type switch, in full *)

Lemma release_both_refs w :
  let w1 := exec (releasePanZoom Cyk) (exec (releasePanZoom Main) w) in
  panZoomInstanceRef (refs w1) = None /\
  panZoomCykInstanceRef (refs w1) = None /\
  svgContainerRef (refs w1) = svgContainerRef (refs w) /\
  svgContainerCykRef (refs w1) = svgContainerCykRef (refs w) /\
  rchieImageRef (refs w1) = rchieImageRef (refs w).
Proof.
  cbv zeta. destruct w as [s [c1 c2 m c r] e].
  unfold releasePanZoom, exec. rewrite !bind_run.
  destruct m, c; cbn; repeat split; reflexivity.
Qed.

Section SwitchRun.

Variable srv : Server.
Variable props : Props.

Lemma switch_run type w :
  type <> selectedImageType (state w) ->
  let w' := exec (handleImageTypeChange srv props type) w in
  let o := classify type (srv (net_log (env w)) (getRequest props type)) in
  state w' = state (exec (switch_end type o) (exec (switch_begin type) w)) /\
  net_log (env w') = net_log (env w) ++ [getRequest props type] /\
  panZoomInstanceRef (refs w') = None /\
  panZoomCykInstanceRef (refs w') = None /\
  svgContainerRef (refs w') = svgContainerRef (refs w) /\
  svgContainerCykRef (refs w') = svgContainerCykRef (refs w) /\
  rchieImageRef (refs w') = rchieImageRef (refs w).
Proof.
  intros Hne. cbv zeta. rewrite handleImageTypeChange_run by exact Hne.
  cbv zeta.
  set (w1 := exec (releasePanZoom Cyk) (exec (releasePanZoom Main) w)).
  assert (Hs : state w1 = state w)
    by (unfold w1; now rewrite !releasePanZoom_state).
  assert (Hn : net_log (env w1) = net_log (env w))
    by (unfold w1; now rewrite !releasePanZoom_net).
  destruct (release_both_refs w) as (R1 & R2 & R3 & R4 & R5). fold w1 in R1, R2, R3, R4, R5.
  destruct (classify type _); cbn; rewrite Hs, Hn; repeat split; assumption.
Qed.

End SwitchRun.

(** ** More of what the screen shows *)

Lemma render_DownloadButton props w :
  In DownloadButton (render props w) <-> shown (state w) = true.
Proof.
  split.
  - render_cases; intros H; render_inv H; assumption.
  - intros Hs. unfold render.
    do 2 (apply in_or_app; right). apply in_or_app; left.
    rewrite Hs. now left.
Qed.

Lemma render_TypeSelector_shown props w :
  (1 <? length (dropdownTypes (state w)))%nat = true ->
  In (TypeSelector (dropdownTypes (state w))
                   (Status_eqb (imageStatus (state w)) Loading))
     (render props w).
Proof.
  intros H. unfold render. apply in_or_app; left. rewrite H. now left.
Qed.

(** X2.  When the selector offers [type], [type] is not the selected type
    and its content fetch fails, the switch ends with [type] selected,
    status [error] and the message naming [type] on screen; the content
    held before is kept but no download is offered; both pan/zoom refs are
    null; exactly one request was issued; and the selector is still on
    screen, enabled, with the same options. *)
Theorem X2_failed_switch
  (srv : Server) (props : Props) (w : World) (type : string) :
  enabled props w (SelectType type) = true ->
  type <> selectedImageType (state w) ->
  failed (srv (net_log (env w)) (getRequest props type)) ->
  let w' := step srv props w (SelectType type) in
  let message := ("Failed to load " ++ type ++ " image.")%string in
  selectedImageType (state w') = type /\
  imageStatus (state w') = Error /\
  errorMessage (state w') = message /\
  svgContent (state w') = svgContent (state w) /\
  net_log (env w') = net_log (env w) ++ [getRequest props type] /\
  panZoomInstanceRef (refs w') = None /\
  panZoomCykInstanceRef (refs w') = None /\
  In (ErrorBlock message) (render props w') /\
  ~ In DownloadButton (render props w') /\
  In (TypeSelector (dropdownTypes (state w)) false) (render props w').
Proof.
  intros He Hne Hfail w' message.
  set (wh := exec (handleImageTypeChange srv props type) w).
  assert (Hw' : w' = exec (commitEffects srv props (state w)) wh).
  { unfold w', step. rewrite He. cbn [lastRendered]. apply exec_bind. }
  destruct (switch_run srv props type w Hne)
    as (Hst & Hlog & R1 & R2 & _). fold wh in Hst, Hlog, R1, R2.
  rewrite (failed_classify type _ Hfail) in Hst.
  pose proof (commitEffects_core srv props (state w) wh) as Hcore.
  rewrite <- Hw' in Hcore. apply core_selected in Hcore.
  destruct Hcore as (Cs & Cc & Ct & Ce & Cf & Ca & Cr).
  destruct (commitEffects_frame srv props (state w) wh) as [_ _ _ Hr _].
  rewrite <- Hw' in Hr.
  assert (Hdue : companion_due (state w) wh = false).
  { unfold companion_due. rewrite Hst. cbn. now rewrite !andb_false_r. }
  pose proof (commitEffects_log srv props (state w) wh) as Hl.
  rewrite <- Hw', Hdue, app_nil_r in Hl.
  assert (S1 : selectedImageType (state w') = type)
    by (rewrite Cs, Hst; reflexivity).
  assert (S2 : imageStatus (state w') = Error)
    by (rewrite Ct, Hst; reflexivity).
  assert (S3 : errorMessage (state w') = message)
    by (rewrite Ce, Hst; reflexivity).
  assert (S4 : availableTypes (state w') = availableTypes (state w))
    by (rewrite Ca, Hst; reflexivity).
  split; [exact S1|]. split; [exact S2|]. split; [exact S3|].
  split; [rewrite Cc, Hst; reflexivity|].
  split; [rewrite Hl; exact Hlog|].
  split; [rewrite Hr; exact R1|]. split; [rewrite Hr; exact R2|].
  split; [apply render_Error; auto|]. split.
  - intros Hd. apply render_DownloadButton in Hd. unfold shown in Hd.
    rewrite S2 in Hd. discriminate.
  - cbn [enabled] in He. apply andb_true_iff in He. destruct He as [He _].
    apply andb_true_iff in He. destruct He as [Hlen _].
    assert (Hdd : dropdownTypes (state w') = dropdownTypes (state w))
      by (unfold dropdownTypes; now rewrite S4).
    pose proof (render_TypeSelector_shown props w') as Hsel.
    rewrite Hdd, S2 in Hsel. apply Hsel. exact Hlen.
Qed.

Lemma X2_witness :
  let w := mount flakyServer demoProps in
  let w' := step flakyServer demoProps w (SelectType "norm") in
  selectedImageType (state w') = "norm" /\
  imageStatus (state w') = Error /\
  errorMessage (state w') = "Failed to load norm image." /\
  svgContent (state w') = "<svg></svg>".
Proof.
  intros w w'.
  destruct (X2_failed_switch flakyServer demoProps w "norm")
    as (H1 & H2 & H3 & H4 & _).
  - reflexivity.
  - discriminate.
  - apply (classify_None_failed "norm"). reflexivity.
  - repeat split; assumption.
Defined.

(** X6.  After the widget is created, only the events that load the main
    diagram touch the network (a type selection, and a further run of the
    initial-load effect when the candidate list was left out): every other
    event leaves the request log as it is.  A selection the screen offers,
    of a type other than the selected one, issues one content fetch for
    that type; a second request follows only when the type is ['rscape']
    and the switch ended [loaded], and it is the fetch of the companion
    type. *)
Theorem X6_only_loading_events_issue_requests
  (srv : Server) (props : Props) (w : World) (ev : Event) :
  (is_load_event ev = false ->
   net_log (env (step srv props w ev)) = net_log (env w)) /\
  (forall type,
     ev = SelectType type ->
     enabled props w ev = true ->
     type <> selectedImageType (state w) ->
     let w' := step srv props w ev in
     (net_log (env w') = net_log (env w) ++ [getRequest props type] /\
      (type <> "rscape" \/ imageStatus (state w') <> Loaded)) \/
     (net_log (env w')
        = net_log (env w) ++ [getRequest props type; companionRequest props] /\
      type = "rscape" /\ imageStatus (state w') = Loaded)).
Proof.
  split.
  - intros Hload. unfold step. destruct (enabled props w ev); [|reflexivity].
    rewrite exec_bind, commitEffects_log, (lastRendered_other props ev w Hload).
    destruct (handler_deps srv props ev w Hload) as [Hs Ht].
    rewrite (companion_due_same _ _ Hs Ht), app_nil_r.
    now apply handler_log.
  - intros type -> He Hne w'.
    set (wh := exec (handleImageTypeChange srv props type) w).
    assert (Hw' : w' = exec (commitEffects srv props (state w)) wh).
    { unfold w', step. rewrite He. cbn [lastRendered]. apply exec_bind. }
    destruct (switch_run srv props type w Hne) as (Hst & Hlog & _).
    fold wh in Hst, Hlog.
    pose proof (commitEffects_core srv props (state w) wh) as Hcore.
    rewrite <- Hw' in Hcore. apply core_selected in Hcore.
    destruct Hcore as (Cs & _ & Ct & _).
    pose proof (commitEffects_log srv props (state w) wh) as Hl.
    rewrite <- Hw', Hlog in Hl.
    assert (Hsel : selectedImageType (state wh) = type)
      by (rewrite Hst; destruct (classify type _); reflexivity).
    assert (Hdue : companion_due (state w) wh
                   = ((type =? "rscape")
                      && Status_eqb (imageStatus (state wh)) Loaded)).
    { unfold companion_due, isRscapeType. rewrite Hsel.
      apply not_eq_sym in Hne. apply String.eqb_neq in Hne.
      now rewrite Hne. }
    rewrite Hdue in Hl.
    destruct (String.eqb_spec type "rscape") as [-> | Hnr]; cbn [andb] in Hl.
    + destruct (imageStatus (state wh)) eqn:Es; cbn in Hl.
      * left. rewrite app_nil_r in Hl. split; [exact Hl|].
        right. rewrite Ct. congruence.
      * right. rewrite <- app_assoc in Hl. cbn in Hl.
        split; [exact Hl|]. split; [reflexivity | now rewrite Ct].
      * left. rewrite app_nil_r in Hl. split; [exact Hl|].
        right. rewrite Ct. congruence.
    + left. rewrite app_nil_r in Hl. split; [exact Hl | now left].
Qed.

Lemma X6_witness :
  let w := mount svgServer demoProps in
  net_log (env (step svgServer demoProps w ClickVarna)) = net_log (env w) /\
  net_log (env (step svgServer demoProps w (SelectType "norm")))
  = net_log (env w) ++ [getRequest demoProps "norm"].
Proof.
  intros w.
  destruct (X6_only_loading_events_issue_requests svgServer demoProps w
              ClickVarna)
    as [H1 _].
  destruct (X6_only_loading_events_issue_requests svgServer demoProps w
              (SelectType "norm")) as [_ H2].
  split.
  - apply H1. reflexivity.
  - destruct (H2 "norm" eq_refl eq_refl) as [[Hl _] | [_ [Hn _]]].
    + discriminate.
    + exact Hl.
    + discriminate Hn.
Defined.


(** ** A run of the initial-load effect from any state *)

Section Rerun.

Variable srv : Server.
Variable props : Props.

(** After a run of [initializeImages] from [w], the widget is in one of
    two situations; [heads] are the probes, [available] what they found
    this time. *)
Lemma initializeImages_outcome w :
  let heads := map (headRequest props) (typesToCheck props) in
  let log := net_log (env w) ++ heads in
  let available :=
    probe_results srv props (net_log (env w)) (typesToCheck props) in
  let wi := exec (initializeImages srv props) w in
  availableTypes (state wi) = available /\
  rscapeStats (state wi) = rscapeStats (state w) /\
  tooltip (state wi) = tooltip (state w) /\
  loupePosition (state wi) = loupePosition (state w) /\
  ((imageStatus (state wi) = Error /\
    errorMessage (state wi) = NO_IMAGES_MESSAGE /\
    selectedImageType (state wi) = selectedImageType (state w) /\
    svgContent (state wi) = svgContent (state w) /\
    net_log (env wi) = log ++ map (getRequest props) available)
   \/
   (exists pre t post c,
      available = pre ++ t :: post /\
      recognized (srv (log ++ map (getRequest props) pre)
                      (getRequest props t)) c /\
      imageStatus (state wi) = Loaded /\
      svgContent (state wi) = c /\
      selectedImageType (state wi) = t /\
      isImageNotAvailable (state wi)
        = negb (JS.includes c "<svg" || (t =? "rchie")) /\
      net_log (env wi) = log ++ map (getRequest props) (pre ++ [t]))).
Proof.
  intros heads log available wi.
  assert (Hwi := initializeImages_run srv props w).
  cbv zeta in Hwi. fold wi available in Hwi.
  set (w1 := exec (setAvailableTypes available)
               (log_requests (map (headRequest props) (typesToCheck props))
                  w)) in Hwi.
  destruct (0 <? length available)%nat eqn:Hlen.
  - set (w0 := exec (setImageStatus Loading ;; setIsImageNotAvailable false)
                    w1).
    assert (Hrun : exec (tryLoadImage srv props available) w1
                   = exec (tryLoadImage_loop srv props available) w0)
      by reflexivity.
    rewrite Hrun in Hwi.
    assert (Hlog0 : net_log (env w0) = log) by reflexivity.
    destruct (tryLoadImage_loop_outcome srv props available w0)
      as [(Hx & _ & _) | (pre & t & post & c & Hsplit & _ & Hr & _ & Hx)];
      rewrite Hx in Hwi; rewrite Hwi.
    + repeat split. left. repeat split.
    + repeat split. right. exists pre, t, post, c.
      rewrite Hlog0 in Hr. repeat split; assumption.
  - destruct available as [|a l]; [|discriminate].
    rewrite Hwi. repeat split. left. cbn [map]. rewrite app_nil_r.
    repeat split.
Qed.

(** the step of a further run, taken apart *)
Lemma rerun_step w :
  enabled props w InitialEffectRerun = true ->
  step srv props w InitialEffectRerun
  = exec (commitEffects srv props (lastRendered props w InitialEffectRerun))
         (exec (initialLoadEffect srv props) (exec cleanup w)).
Proof.
  intros He. unfold step. rewrite He, exec_bind. cbn [handler].
  now rewrite exec_bind.
Qed.

End Rerun.


(** ** What every reachable state satisfies *)





Section Reachable.

Variable srv : Server.
Variable props : Props.

Lemma switch_same w :
  exec (handleImageTypeChange srv props (selectedImageType (state w))) w = w.
Proof.
  unfold handleImageTypeChange, exec. rewrite bind_run. cbn [gets fst snd].
  now rewrite String.eqb_refl.
Qed.

Lemma mount_unguarded :
  JS.truthy_opt (familyAcc props) && (0 <? length (imageTypes props))%nat
    = false ->
  mount srv props = initialWorld props.
Proof.
  intros Hg. unfold mount, initialLoadEffect. rewrite exec_bind, Hg.
  change (exec (ret tt) (initialWorld props)) with (initialWorld props).
  apply commitEffects_not_loaded; [cbn; discriminate | reflexivity].
Qed.





(** with a candidate list passed by the caller, statistics stay with
    ['rscape'] *)
Lemma step_stats ev w :
  imageTypesFresh props = false ->
  stats_for_rscape w -> stats_for_rscape (step srv props w ev).
Proof.
  intros Hpassed Hst. unfold step.
  destruct (enabled props w ev) eqn:He; [|exact Hst].
  rewrite exec_bind.
  pose proof (commitEffects_core srv props (lastRendered props w ev)
                (exec (handler srv props ev) w)) as Hc.
  apply core_selected in Hc. destruct Hc as (Cs & _ & _ & _ & _ & _ & Cr).
  unfold stats_for_rscape. rewrite Cs, Cr.
  destruct ev as [type| | | | | | | | |b| | | | |] eqn:E;
    try (assert (Hc : core (exec (handler srv props ev) w) = core w)
           by (apply handler_core; subst ev;
               [reflexivity | intros b' Hb; discriminate Hb]);
         apply core_selected in Hc;
         destruct Hc as (Cs' & _ & _ & _ & _ & _ & Cr');
         rewrite <- E, Cs', Cr'; exact Hst).
  - cbn [handler].
    destruct (String.eqb_spec type (selectedImageType (state w)))
      as [-> | Hne]; [now rewrite switch_same|].
    destruct (switch_run srv props type w Hne) as (Hs & _). rewrite Hs.
    destruct (classify type _); cbn; congruence.
  - cbn [handler]. cbn [enabled] in He.
    apply andb_true_iff in He. destruct He as [_ Hr].
    apply String.eqb_eq in Hr.
    destruct (timerMain_state b w) as [Hs | (st & Hs)]; rewrite Hs; cbn;
      auto.
  - cbn [enabled] in He. congruence.
Qed.

Lemma reachable_stats evs :
  imageTypesFresh props = false ->
  stats_for_rscape (run srv props evs (mount srv props)).
Proof.
  intros Hpassed.
  assert (H : forall w, stats_for_rscape w ->
                stats_for_rscape (run srv props evs w)).
  { induction evs as [|ev evs IH]; intros w Hw; [exact Hw|].
    cbn [run fold_left]. apply IH. now apply step_stats. }
  apply H. unfold stats_for_rscape.
  destruct (JS.truthy_opt (familyAcc props)
            && (0 <? length (imageTypes props))%nat) eqn:Hg.
  - apply andb_true_iff in Hg. destruct Hg as [Hf Hl].
    assert (Ht : imageTypes props <> [])
      by (destruct (imageTypes props); [discriminate | congruence]).
    destruct (mount_outcome srv props Hf Ht) as (_ & Hst & _).
    rewrite Hst. congruence.
  - rewrite (mount_unguarded Hg). cbn. congruence.
Qed.

End Reachable.




(** X9.  With a candidate list passed by the caller, in every state the
    widget reaches, statistics of the main diagram exist only while
    ['rscape'] is selected; and, whatever the list, a switch to another
    type clears them at once. *)
Theorem X9_statistics_only_for_rscape
  (srv : Server) (props : Props) (evs : list Event) :
  let w := run srv props evs (mount srv props) in
  (imageTypesFresh props = false ->
   rscapeStats (state w) <> None -> selectedImageType (state w) = "rscape") /\
  (forall type,
     enabled props w (SelectType type) = true ->
     type <> selectedImageType (state w) ->
     rscapeStats (state (step srv props w (SelectType type))) = None).
Proof.
  intros w. split; [intros Hp; now apply reachable_stats|].
  intros type He Hne. unfold step. rewrite He, exec_bind. cbn [handler].
  pose proof (commitEffects_core srv props
                (lastRendered props w (SelectType type))
                (exec (handleImageTypeChange srv props type) w)) as Hc.
  apply core_selected in Hc. destruct Hc as (_ & _ & _ & _ & _ & _ & Cr).
  rewrite Cr.
  destruct (switch_run srv props type w Hne) as (Hs & _). rewrite Hs.
  destruct (classify type _); reflexivity.
Qed.

Lemma X9_witness :
  let w := run svgServer demoProps
             [Mounted Main (Some (mkContainer (Some fixtureDiagram)));
              TimerMain false]
             (mount svgServer demoProps) in
  rscapeStats (state w) = Some (mkStats 10 3) /\
  selectedImageType (state w) = "rscape" /\
  rscapeStats (state (step svgServer demoProps w (SelectType "norm"))) = None.
Proof.
  intros w. split; [reflexivity|].
  pose proof (X9_statistics_only_for_rscape svgServer demoProps
           [Mounted Main (Some (mkContainer (Some fixtureDiagram)));
            TimerMain false]) as [H1 H2].
  split.
  - apply H1; [reflexivity | discriminate].
  - apply (H2 "norm"); [reflexivity | discriminate].
Defined.


(** ** Requests over a whole session *)

Lemma extends_probes w w' : extends_with_gets w w' -> probes w' = probes w.
Proof.
  intros (l & Hl & Hg). unfold probes. rewrite Hl, filter_app.
  assert (H : filter is_probe l = []).
  { clear Hl. induction Hg as [|r l Hr _ IH]; [reflexivity|].
    cbn [filter]. unfold is_probe at 1. rewrite Hr. exact IH. }
  now rewrite H, app_nil_r.
Qed.

Lemma probes_heads props types :
  filter is_probe (map (headRequest props) types)
  = map (headRequest props) types.
Proof. induction types as [|t l IH]; [reflexivity|]. cbn. now rewrite IH. Qed.

Lemma probes_gets props types :
  filter is_probe (map (getRequest props) types) = [].
Proof. induction types as [|t l IH]; [reflexivity | exact IH]. Qed.

Lemma probe_results_stateless srv props (Hs : stateless srv) types :
  forall history,
    probe_results srv props history types
    = filter (fun t => probe_ok (srv [] (headRequest props t))) types.
Proof.
  induction types as [|t rest IH]; intros history; [reflexivity|].
  cbn [probe_results filter]. rewrite IH, (Hs history []).
  now destruct (probe_ok _).
Qed.

Section Session.

Variable srv : Server.
Variable props : Props.

Lemma handler_extends ev w :
  ev <> InitialEffectRerun ->
  extends_with_gets w (exec (handler srv props ev) w).
Proof.
  intros Hev.
  destruct ev as [type| | | | | | | | | | | | | |] eqn:E;
    try (apply extends_same_log; rewrite <- E; apply handler_log;
         subst ev; reflexivity).
  - cbn [handler].
    destruct (String.eqb_spec type (selectedImageType (state w)))
      as [-> | Hne]; [rewrite switch_same; apply extends_refl|].
    destruct (switch_run srv props type w Hne) as (_ & Hlog & _).
    exists [getRequest props type]. split; [exact Hlog | repeat constructor].
  - congruence.
Qed.

Lemma handler_available ev w :
  ev <> InitialEffectRerun ->
  availableTypes (state (exec (handler srv props ev) w))
  = availableTypes (state w).
Proof.
  intros Hev.
  destruct ev as [type| | | | | | | | |b| | | | |] eqn:E;
    try (assert (Hc : core (exec (handler srv props ev) w) = core w)
           by (apply handler_core; subst ev;
               [reflexivity | intros b' Hb; discriminate Hb]);
         apply core_selected in Hc; rewrite <- E; apply Hc).
  - cbn [handler].
    destruct (String.eqb_spec type (selectedImageType (state w)))
      as [-> | Hne]; [now rewrite switch_same|].
    destruct (switch_run srv props type w Hne) as (Hst & _). rewrite Hst.
    destruct (classify type _); reflexivity.
  - cbn [handler].
    destruct (timerMain_state b w) as [Hst | (st & Hst)]; now rewrite Hst.
  - congruence.
Qed.

(** a step that is not a further run of the initial-load effect *)
Lemma step_settled ev w :
  ev <> InitialEffectRerun \/ imageTypesFresh props = false ->
  availableTypes (state (step srv props w ev)) = availableTypes (state w) /\
  extends_with_gets w (step srv props w ev).
Proof.
  intros Hev. unfold step.
  destruct (enabled props w ev) eqn:He;
    [|split; [reflexivity | apply extends_refl]].
  assert (Hne : ev <> InitialEffectRerun).
  { destruct Hev as [Hev | Hev]; [exact Hev|].
    intros ->. cbn [enabled] in He. congruence. }
  rewrite exec_bind.
  pose proof (commitEffects_core srv props (lastRendered props w ev)
                (exec (handler srv props ev) w)) as Hc.
  apply core_selected in Hc. destruct Hc as (_ & _ & _ & _ & _ & Ca & _).
  rewrite Ca. split; [now apply handler_available|].
  eapply extends_trans; [exact (handler_extends ev w Hne)|].
  apply commitEffects_frame.
Qed.

Lemma run_settled evs : forall w,
  imageTypesFresh props = false ->
  availableTypes (state (run srv props evs w)) = availableTypes (state w) /\
  probes (run srv props evs w) = probes w.
Proof.
  induction evs as [|ev evs IH]; intros w Hp; [split; reflexivity|].
  cbn [run fold_left]. destruct (IH (step srv props w ev) Hp) as [Ha Hq].
  unfold run in Ha, Hq. rewrite Ha, Hq.
  destruct (step_settled ev w (or_intror Hp)) as [Hs He].
  split; [exact Hs | now apply extends_probes].
Qed.

(** the available types after a run of the initial-load effect, for a
    service without memory *)
Lemma step_available_stateless ev w :
  stateless srv ->
  availableTypes (state w)
  = filter (fun t => probe_ok (srv [] (headRequest props t)))
           (typesToCheck props) ->
  availableTypes (state (step srv props w ev))
  = filter (fun t => probe_ok (srv [] (headRequest props t)))
           (typesToCheck props).
Proof.
  intros Hs Hw.
  destruct ev as [| | | | | | | | | | | | | |] eqn:E;
    try (rewrite <- E, <- Hw; apply step_settled; left; subst ev;
         discriminate).
  unfold step. destruct (enabled props w InitialEffectRerun); [|exact Hw].
  rewrite exec_bind.
  pose proof (commitEffects_core srv props
                (lastRendered props w InitialEffectRerun)
                (exec (handler srv props InitialEffectRerun) w)) as Hc.
  apply core_selected in Hc. destruct Hc as (_ & _ & _ & _ & _ & Ca & _).
  rewrite Ca. cbn [handler]. rewrite exec_bind.
  unfold initialLoadEffect. destruct (_ && _).
  - destruct (initializeImages_outcome srv props (exec cleanup w))
      as (Ha & _). rewrite Ha. now apply probe_results_stateless.
  - change (exec (ret tt) ?x) with x. now rewrite cleanup_state.
Qed.

Lemma mount_probes :
  probes (mount srv props)
  = if JS.truthy_opt (familyAcc props)
    then map (headRequest props) (typesToCheck props)
    else [].
Proof.
  destruct (JS.truthy_opt (familyAcc props)) eqn:Hf.
  - destruct (imageTypes props) as [|t0 ts] eqn:Hi.
    + rewrite mount_unguarded by (rewrite Hf, Hi; reflexivity).
      unfold typesToCheck. rewrite Hi. reflexivity.
    + assert (Ht : imageTypes props <> []) by (rewrite Hi; discriminate).
      destruct (mount_outcome srv props Hf Ht) as (_ & _ & Hcase).
      unfold probes.
      destruct Hcase as [(_ & _ & _ & _ & Hl & _)
                        | (pre & t & post & c & _ & _ & _ & _ & _ & _ & _ & Hl)];
        rewrite Hl, !filter_app, probes_heads, probes_gets.
      * apply app_nil_r.
      * destruct (t =? "rscape"); cbn; apply app_nil_r.
  - rewrite mount_unguarded by (rewrite Hf; reflexivity). reflexivity.
Qed.

End Session.

(** X3.  With a candidate list passed by the caller, what is available
    is settled by the initial load: through every later event the list of
    available types and the selector's options stay as the initial load
    left them, and the only availability probes ever sent are those of the
    initial load, one per configured type of the fixed list, in configured
    order (none without an entity reference). *)
Theorem X3_availability_settled_at_initial_load
  (srv : Server) (props : Props) (evs : list Event) :
  imageTypesFresh props = false ->
  let w0 := mount srv props in
  let w := run srv props evs w0 in
  availableTypes (state w) = availableTypes (state w0) /\
  dropdownTypes (state w) = dropdownTypes (state w0) /\
  probes w = (if JS.truthy_opt (familyAcc props)
              then map (headRequest props) (typesToCheck props)
              else []).
Proof.
  intros Hp w0 w.
  destruct (run_settled srv props evs w0 Hp) as [Ha Hq]. fold w in Ha, Hq.
  split; [exact Ha|]. split.
  - unfold dropdownTypes. now rewrite Ha.
  - rewrite Hq. apply mount_probes.
Qed.

Lemma X3_witness :
  let w := run demoServer demoProps
             [SelectType "norm"; ClickVarna; SelectType "rchie"]
             (mount demoServer demoProps) in
  availableTypes (state w) = ["rscape"; "norm"; "rchie"] /\
  probes w = map (headRequest demoProps) ["rscape"; "cons"; "norm"; "rchie"].
Proof.
  intros w.
  destruct (X3_availability_settled_at_initial_load demoServer demoProps
              [SelectType "norm"; ClickVarna; SelectType "rchie"] eq_refl)
    as (Ha & _ & Hq).
  split; [etransitivity; [exact Ha | reflexivity] | exact Hq].
Defined.

(** X4.  With an entity reference and a service whose answers do not
    depend on the requests made before, the available types are, at any
    time, exactly the configured types of the fixed list whose probe the
    service answers with an ok status, in configured order; further runs
    of the initial-load effect find the same. *)
Theorem X4_available_types_are_the_answered_probes
  (srv : Server) (props : Props) (evs : list Event) :
  stateless srv ->
  JS.truthy_opt (familyAcc props) = true ->
  availableTypes (state (run srv props evs (mount srv props)))
  = filter (fun t => probe_ok (srv [] (headRequest props t)))
           (typesToCheck props).
Proof.
  intros Hs Hf.
  assert (H : forall w,
            availableTypes (state w)
            = filter (fun t => probe_ok (srv [] (headRequest props t)))
                     (typesToCheck props) ->
            availableTypes (state (run srv props evs w))
            = filter (fun t => probe_ok (srv [] (headRequest props t)))
                     (typesToCheck props)).
  { induction evs as [|ev evs IH]; intros w Hw; [exact Hw|].
    cbn [run fold_left]. apply IH. now apply step_available_stateless. }
  apply H.
  destruct (imageTypes props) as [|t0 ts] eqn:Hi.
  - rewrite mount_unguarded by (rewrite Hf, Hi; reflexivity).
    unfold typesToCheck. rewrite Hi. reflexivity.
  - assert (Ht : imageTypes props <> []) by (rewrite Hi; discriminate).
    destruct (mount_outcome srv props Hf Ht) as (Hav & _).
    rewrite Hav. now apply probe_results_stateless.
Qed.

Lemma X4_witness :
  availableTypes (state (run demoServer defaultProps
                           [InitialEffectRerun; SelectType "norm"]
                           (mount demoServer defaultProps)))
  = ["rscape"; "norm"; "cov"; "ent"; "maxcm"; "fcbp"; "rchie"].
Proof.
  rewrite (X4_available_types_are_the_answered_probes demoServer defaultProps
             [InitialEffectRerun; SelectType "norm"]).
  - reflexivity.
  - intros h h' r. reflexivity.
  - reflexivity.
Defined.

(** X5.  The initial load asks for the companion diagram
    (['rscape-cacofold']) exactly when it ended with ['rscape'] selected
    and status [loaded], be it as a diagram or as the not-available
    placeholder. *)
Theorem X5_companion_requested_iff_rscape_loaded
  (srv : Server) (props : Props) :
  let w := mount srv props in
  In (companionRequest props) (net_log (env w)) <->
  (selectedImageType (state w) = "rscape" /\ imageStatus (state w) = Loaded).
Proof.
  intros w.
  assert (Hhead : forall l, ~ In (companionRequest props)
                              (map (headRequest props) l)).
  { intros l Hin. apply in_map_iff in Hin.
    destruct Hin as (t & Ht & _). discriminate Ht. }
  assert (Hget : forall l, In (companionRequest props)
                             (map (getRequest props) l) ->
                           In "rscape-cacofold" l).
  { intros l Hin. apply in_map_iff in Hin. destruct Hin as (t & Ht & Hin).
    injection Ht as Ht. apply buildImageUrl_inj in Ht. now subst. }
  assert (Hnot : forall l, (forall t, In t l -> In t (typesToCheck props)) ->
                           ~ In "rscape-cacofold" l).
  { intros l Hl Hin. apply Hl, typesToCheck_In in Hin.
    destruct Hin as [_ Hd]. cbn in Hd.
    decompose [or] Hd; try discriminate; contradiction. }
  destruct (JS.truthy_opt (familyAcc props)
            && (0 <? length (imageTypes props))%nat) eqn:Hg.
  - apply andb_true_iff in Hg. destruct Hg as [Hf Hl].
    assert (Ht : imageTypes props <> [])
      by (destruct (imageTypes props); [discriminate | congruence]).
    destruct (mount_outcome srv props Hf Ht) as (_ & _ & Hcase). fold w in Hcase.
    assert (Hsub : forall t,
              In t (probe_results srv props [] (typesToCheck props)) ->
              In t (typesToCheck props))
      by (intros t; apply probe_results_incl).
    destruct Hcase as [(Hs & _ & _ & _ & Hlog & _)
                      | (pre & t & post & c & Hsplit & _ & _ & Hs & _ & Hsel
                         & _ & Hlog)].
    + rewrite Hlog, Hs. split; [|intros [_ H]; discriminate H].
      intros Hin. apply in_app_or in Hin. destruct Hin as [Hin | Hin].
      * now apply Hhead in Hin.
      * apply Hget in Hin. now apply Hnot in Hin.
    + rewrite Hlog, Hs, Hsel. split.
      * intros Hin. split; [|reflexivity].
        apply in_app_or in Hin. destruct Hin as [Hin | Hin];
          [now apply Hhead in Hin|].
        apply in_app_or in Hin. destruct Hin as [Hin | Hin].
        -- apply Hget in Hin. exfalso. revert Hin. apply Hnot.
           intros t' Ht'. apply Hsub. rewrite Hsplit.
           apply in_app_or in Ht'. apply in_or_app.
           destruct Ht' as [Ht' | [<- | []]]; [now left | right; now left].
        -- destruct (String.eqb_spec t "rscape"); [assumption | destruct Hin].
      * intros [-> _]. apply in_or_app. right. apply in_or_app. right.
        now left.
  - unfold w. rewrite (mount_unguarded srv props Hg). cbn.
    split; [intros [] | intros [_ H]; discriminate H].
Qed.

(** X10.  In every state the widget reaches, once the widget is
    unmounted, once the selector switched to another type, or once the
    initial-load effect ran again, no pan/zoom instance is left alive and
    both instance refs are null. *)
Theorem X10_release_leaves_nothing_alive
  (srv : Server) (props : Props) (evs : list Event) (ev : Event) :
  let w := run srv props evs (mount srv props) in
  enabled props w ev = true ->
  ev = Unmount \/ ev = InitialEffectRerun \/
  (exists type, ev = SelectType type /\ type <> selectedImageType (state w)) ->
  let w' := step srv props w ev in
  live (pz_log (env w')) = [] /\
  panZoomInstanceRef (refs w') = None /\
  panZoomCykInstanceRef (refs w') = None.
Proof.
  intros w He Hev w'.
  assert (Hok : pz_ok (pz_view w')).
  { apply step_pz_ok, run_pz_ok, mount_pz_ok. }
  assert (Hrefs : panZoomInstanceRef (refs w') = None /\
                  panZoomCykInstanceRef (refs w') = None).
  { unfold w', step. rewrite He, exec_bind.
    destruct (commitEffects_frame srv props (lastRendered props w ev)
                (exec (handler srv props ev) w)) as [_ _ _ Hr _].
    rewrite Hr.
    destruct Hev as [-> | [-> | (type & -> & Hne)]]; cbn [handler].
    - unfold cleanup. rewrite exec_bind.
      destruct (release_both_refs w) as (R1 & R2 & _). now split.
    - rewrite exec_bind.
      destruct (initialLoadEffect_refs srv props (exec cleanup w)) as [Hi _].
      rewrite Hi. unfold cleanup. rewrite exec_bind.
      destruct (release_both_refs w) as (R1 & R2 & _). now split.
    - destruct (switch_run srv props type w Hne) as (_ & _ & R1 & R2 & _).
      now split. }
  destruct Hrefs as [R1 R2]. split; [|now split].
  destruct (live (pz_log (env w'))) as [|[id s] l] eqn:El; [reflexivity|].
  exfalso.
  assert (Hin : In (id, s) (live (snd (pz_view w'))))
    by (change (In (id, s) (live (pz_log (env w')))); rewrite El; now left).
  apply (pz_held _ Hok) in Hin. destruct s; cbn in Hin; congruence.
Qed.

Lemma X10_witness :
  let evs := [Mounted Main (Some (mkContainer (Some fixtureDiagram)));
              TimerMain false] in
  let w := run svgServer demoProps evs (mount svgServer demoProps) in
  live (pz_log (env w)) = [(0%nat, Main)] /\
  live (pz_log (env (step svgServer demoProps w Unmount))) = [] /\
  live (pz_log (env (step svgServer demoProps w (SelectType "norm")))) = [].
Proof.
  intros evs w. split; [reflexivity|]. split.
  - apply (X10_release_leaves_nothing_alive svgServer demoProps evs Unmount).
    + reflexivity.
    + now left.
  - apply (X10_release_leaves_nothing_alive svgServer demoProps evs
             (SelectType "norm")).
    + reflexivity.
    + right. right. exists "norm". split; [reflexivity | discriminate].
Defined.


(** ** Where the displayed content comes from *)


Section Provenance.

Variable srv : Server.
Variable props : Props.




End Provenance.




(** ** The two passes over a mounted diagram *)





Lemma annotate_tspan_idem t :
  annotate_tspan (annotate_tspan t) = annotate_tspan t.
Proof.
  unfold annotate_tspan at 2.
  destruct (JS.truthy _) eqn:Ht; unfold annotate_tspan; cbn [ts_fill ts_textContent];
    rewrite Ht; reflexivity.
Qed.


Lemma annotate_path_again c c' p :
  annotate_path c (fst (annotate_path c' p))
  = (fst (annotate_path c' p), snd (annotate_path c p)).
Proof.
  destruct p as [f sw cu tt]. unfold annotate_path.
  cbn [p_fill p_stroke_width].
  generalize (significant RSCAPE_COLORS) (conserved97 RSCAPE_COLORS)
    (conserved90 RSCAPE_COLORS) (conserved75 RSCAPE_COLORS)
    (conserved50 RSCAPE_COLORS).
  intros k1 k2 k3 k4 k5.
  destruct (attr_is sw "1.44") eqn:Es;
    destruct (attr_is f k1) eqn:E1;
    try (destruct (attr_is f k2) eqn:E2);
    try (destruct (attr_is f k3) eqn:E3);
    try (destruct (attr_is f k4) eqn:E4);
    try (destruct (attr_is f k5) eqn:E5);
    repeat (progress (cbn; rewrite ?E1, ?E2, ?E3, ?E4, ?E5, ?Es));
    reflexivity.
Qed.

Lemma forEach_path_again ps : forall c c',
  forEach_path (fst (forEach_path ps c')) c
  = (fst (forEach_path ps c'), snd (forEach_path ps c)).
Proof.
  induction ps as [|p ps IH]; intros c c'; [reflexivity|].
  cbn [forEach_path fst snd]. rewrite annotate_path_again. cbn [fst snd].
  rewrite IH. reflexivity.
Qed.




(** X14.  The annotation pass is idempotent: run a second time on the
    diagram it has annotated, it leaves the whole world (diagram, tooltips
    and statistics) as the first run did. *)
Theorem X14_annotation_is_idempotent (slot : Slot) (w : World) :
  let pass := exec (processRscapeSvg slot (setStats_of slot)) in
  pass (pass w) = pass w.
Proof.
  cbv zeta. unfold processRscapeSvg, exec.
  rewrite !bind_run. cbn [gets fst snd].
  destruct w as [s [c1 c2 m c r] e].
  destruct slot; cbn [containerRef_current refs svgContainerRef
                      svgContainerCykRef].
  - destruct (querySvg c1) as [el|] eqn:Hq; cbn; [|rewrite Hq; reflexivity].
    rewrite forEach_path_again, map_map. cbn [fst snd].
    rewrite (map_ext _ _ annotate_tspan_idem).
    destruct s; reflexivity.
  - destruct (querySvg c2) as [el|] eqn:Hq; cbn; [|rewrite Hq; reflexivity].
    rewrite forEach_path_again, map_map. cbn [fst snd].
    rewrite (map_ext _ _ annotate_tspan_idem).
    destruct s; reflexivity.
Qed.


(** ** Pointer feedback: the tooltip and the loupe *)

Lemma render_TooltipBox props w text left top :
  In (TooltipBox text left top) (render props w) <->
  tt_visible (tooltip (state w)) = true /\
  (text, left, top)
  = (tt_content (tooltip (state w)), tt_x (tooltip (state w)),
     tt_y (tooltip (state w))).
Proof.
  split.
  - render_cases; intros H; render_inv H.
    all: match goal with
         | He : TooltipBox _ _ _ = TooltipBox _ _ _ |- _ =>
             injection He as <- <- <-; now split
         end.
  - intros [Hv [= -> -> ->]]. unfold render.
    do 12 (apply in_or_app; right). apply in_or_app; left.
    rewrite Hv. now left.
Qed.

(** the pointer feedback and the outputs other than requests *)
Lemma commitEffects_pointer srv props prev w :
  let w' := exec (commitEffects srv props prev) w in
  tooltip (state w') = tooltip (state w) /\
  loupePosition (state w') = loupePosition (state w) /\
  downloads (env w') = downloads (env w) /\
  opened (env w') = opened (env w).
Proof.
  cbv zeta.
  unfold commitEffects, effect_loadRscapeCyk, effect_resetToggle,
    loadRscapeCyk, loadImage, fetch, exec.
  run_handler; repeat split; reflexivity.
Qed.

Section Pointer.

Variable srv : Server.
Variable props : Props.

Lemma step_other ev w :
  is_load_event ev = false ->
  enabled props w ev = true ->
  step srv props w ev = exec (handler srv props ev) w.
Proof.
  intros Hload He. unfold step. rewrite He, exec_bind.
  rewrite (lastRendered_other props ev w Hload).
  destruct (handler_deps srv props ev w Hload) as [Hs Ht].
  now apply commitEffects_same_deps.
Qed.

Lemma rerun_pointer w :
  tooltip (state (exec (cleanup ;; initialLoadEffect srv props) w))
  = tooltip (state w) /\
  loupePosition (state (exec (cleanup ;; initialLoadEffect srv props) w))
  = loupePosition (state w).
Proof.
  rewrite exec_bind. unfold initialLoadEffect.
  destruct (_ && _).
  - destruct (initializeImages_outcome srv props (exec cleanup w))
      as (_ & _ & Ht & Hl & _).
    rewrite Ht, Hl, cleanup_state. split; reflexivity.
  - change (exec (ret tt) ?x) with x. rewrite cleanup_state.
    split; reflexivity.
Qed.

Lemma handler_tooltip ev w :
  (forall t x y, ev <> SvgMouseMove t x y) -> ev <> SvgMouseLeave ->
  tooltip (state (exec (handler srv props ev) w)) = tooltip (state w).
Proof.
  intros H1 H2.
  destruct ev as [type| | |t x y| | |x y| | |b|b| | | |]; cbn [handler];
    try (exfalso; eapply H1; reflexivity);
    try (exfalso; apply H2; reflexivity);
    try reflexivity.
  - destruct (String.eqb_spec type (selectedImageType (state w)))
      as [-> | Hne]; [now rewrite switch_same|].
    destruct (switch_run srv props type w Hne) as (Hst & _). rewrite Hst.
    destruct (classify type _); reflexivity.
  - unfold downloadImage, exec. run_handler.
  - unfold handleSvgClick, exec. run_handler.
  - unfold handleRchieMouseMove, exec. run_handler.
  - destruct (timerMain_state b w) as [Hst | (st & Hst)]; now rewrite Hst.
  - unfold timerCyk, processRscapeSvg, initializePanZoom, releasePanZoom,
      svgPanZoom, exec.
    run_handler.
  - destruct slot; reflexivity.
  - now rewrite cleanup_state.
  - apply rerun_pointer.
Qed.

Lemma handler_loupe ev w :
  (forall x y, ev <> RchieMouseMove x y) -> ev <> RchieMouseLeave ->
  loupePosition (state (exec (handler srv props ev) w))
    = loupePosition (state w).
Proof.
  intros H1 H2.
  destruct ev as [type| | |t x y| | |x y| | |b|b| | | |]; cbn [handler];
    try (exfalso; eapply H1; reflexivity);
    try (exfalso; apply H2; reflexivity);
    try reflexivity.
  - destruct (String.eqb_spec type (selectedImageType (state w)))
      as [-> | Hne]; [now rewrite switch_same|].
    destruct (switch_run srv props type w Hne) as (Hst & _). rewrite Hst.
    destruct (classify type _); reflexivity.
  - unfold downloadImage, exec. run_handler.
  - unfold handleSvgMouseMove, exec. run_handler.
  - unfold handleSvgClick, exec. run_handler.
  - destruct (timerMain_state b w) as [Hst | (st & Hst)]; now rewrite Hst.
  - unfold timerCyk, processRscapeSvg, initializePanZoom, releasePanZoom,
      svgPanZoom, exec.
    run_handler.
  - destruct slot; reflexivity.
  - now rewrite cleanup_state.
  - apply rerun_pointer.
Qed.

Lemma step_tooltip ev w :
  (forall t x y, ev <> SvgMouseMove t x y) -> ev <> SvgMouseLeave ->
  tooltip (state (step srv props w ev)) = tooltip (state w).
Proof.
  intros H1 H2. unfold step.
  destruct (enabled props w ev); [|reflexivity].
  rewrite exec_bind.
  destruct (commitEffects_pointer srv props (lastRendered props w ev)
              (exec (handler srv props ev) w)) as (Ht & _).
  rewrite Ht. now apply handler_tooltip.
Qed.

Lemma step_loupe ev w :
  (forall x y, ev <> RchieMouseMove x y) -> ev <> RchieMouseLeave ->
  loupePosition (state (step srv props w ev)) = loupePosition (state w).
Proof.
  intros H1 H2. unfold step.
  destruct (enabled props w ev); [|reflexivity].
  rewrite exec_bind.
  destruct (commitEffects_pointer srv props (lastRendered props w ev)
              (exec (handler srv props ev) w)) as (_ & Hl & _).
  rewrite Hl. now apply handler_loupe.
Qed.

End Pointer.

(** X15.  A hover over the R-scape panels puts the tooltip box on screen
    exactly when the element under the pointer carries a non-empty tooltip
    text, with that text, 10 px right of and 28 px above the pointer;
    otherwise, and when the pointer leaves, no tooltip box is on screen.
    No other event changes the tooltip, a type switch included. *)
Theorem X15_tooltip_follows_the_hover
  (srv : Server) (props : Props) (w : World) (ev : Event) :
  (forall text x y,
     ev = SvgMouseMove (Some text) x y -> text <> "" ->
     enabled props w ev = true ->
     forall t l tp,
       In (TooltipBox t l tp) (render props (step srv props w ev)) <->
       (t, l, tp) = (text, (x + 10)%Z, (y - 28)%Z)) /\
  (ev = SvgMouseLeave \/
   (exists x y, ev = SvgMouseMove None x y \/ ev = SvgMouseMove (Some "") x y) ->
   enabled props w ev = true ->
   forall t l tp, ~ In (TooltipBox t l tp) (render props (step srv props w ev))) /\
  ((forall t x y, ev <> SvgMouseMove t x y) -> ev <> SvgMouseLeave ->
   tooltip (state (step srv props w ev)) = tooltip (state w)).
Proof.
  split; [|split].
  - intros text x y -> Hne He t l tp.
    rewrite step_other by (exact He || reflexivity).
    rewrite render_TooltipBox. cbn [handler].
    unfold handleSvgMouseMove. apply String.eqb_neq in Hne.
    unfold JS.truthy. rewrite Hne. cbn.
    split; [intros [_ H]; exact H | intros H; split; [reflexivity | exact H]].
  - intros Hev He t l tp Hin.
    rewrite step_other in Hin
      by (exact He
          || (destruct Hev as [-> | (x & y & [-> | ->])]; reflexivity)).
    apply render_TooltipBox in Hin. destruct Hin as [Hv _].
    destruct Hev as [-> | (x & y & [-> | ->])]; discriminate Hv.
  - apply step_tooltip.
Qed.

Lemma X15_witness :
  let w := mount svgServer demoProps in
  In (TooltipBox "Significant basepair" 110 72)
     (render demoProps
        (step svgServer demoProps w
           (SvgMouseMove (Some "Significant basepair") 100 100))) /\
  ~ In (TooltipBox "Significant basepair" 110 72)
       (render demoProps
          (step svgServer demoProps
             (step svgServer demoProps w
                (SvgMouseMove (Some "Significant basepair") 100 100))
             SvgMouseLeave)).
Proof.
  intros w. split.
  - apply (proj1 (X15_tooltip_follows_the_hover svgServer demoProps w _)
             "Significant basepair" 100%Z 100%Z eq_refl);
      [discriminate | reflexivity | reflexivity].
  - apply (proj1 (proj2 (X15_tooltip_follows_the_hover svgServer demoProps
                           _ SvgMouseLeave)));
      [now left | reflexivity].
Defined.

(** X16.  The loupe is drawn only while ['rchie'] is selected and its
    image is mounted.  When the pointer leaves the image no loupe is on
    screen and the stored position is kept; a pointer move while the
    image is not mounted changes nothing; no other event changes the
    loupe. *)
Theorem X16_loupe_only_over_the_rchie_image
  (srv : Server) (props : Props) (w : World) (ev : Event) :
  (forall l t b,
     In (LoupeBox l t b) (render props w) ->
     selectedImageType (state w) = "rchie" /\ rchieImageRef (refs w) <> None) /\
  (ev = RchieMouseLeave -> enabled props w ev = true ->
   let w' := step srv props w ev in
   (forall l t b, ~ In (LoupeBox l t b) (render props w')) /\
   (lp_x (loupePosition (state w')), lp_y (loupePosition (state w')),
    lp_bgX (loupePosition (state w')), lp_bgY (loupePosition (state w')))
   = (lp_x (loupePosition (state w)), lp_y (loupePosition (state w)),
      lp_bgX (loupePosition (state w)), lp_bgY (loupePosition (state w)))) /\
  (forall x y, ev = RchieMouseMove x y -> rchieImageRef (refs w) = None ->
               step srv props w ev = w) /\
  ((forall x y, ev <> RchieMouseMove x y) -> ev <> RchieMouseLeave ->
   loupePosition (state (step srv props w ev)) = loupePosition (state w)).
Proof.
  split; [|split; [|split]].
  - intros l t b Hin. apply render_LoupeBox in Hin. tauto.
  - intros -> He w'. unfold w'.
    rewrite step_other by (exact He || reflexivity).
    split; [|reflexivity].
    intros l t b Hin. apply render_LoupeBox in Hin.
    destruct Hin as (_ & Hv & _). discriminate Hv.
  - intros x y -> Href. unfold step.
    destruct (enabled props w (RchieMouseMove x y)) eqn:He; [|reflexivity].
    fold (step srv props w (RchieMouseMove x y)) in *.
    assert (Hh : exec (handler srv props (RchieMouseMove x y)) w = w).
    { cbn [handler]. unfold handleRchieMouseMove, exec.
      rewrite !bind_run. cbn [gets fst snd]. rewrite Href.
      now destruct (negb _). }
    rewrite exec_bind, Hh. cbn [lastRendered].
    now apply commitEffects_same_deps.
  - apply step_loupe.
Qed.

Lemma X16_witness :
  let w := exec (setRefs (with_rchieImageRef (Some (mkRect 20 30))))
                rasterWorld in
  let w1 := step demoServer demoProps w (RchieMouseMove 100 130) in
  In (LoupeBox 0 30 "-60px -100px") (render demoProps w1) /\
  ~ In (LoupeBox 0 30 "-60px -100px")
       (render demoProps (step demoServer demoProps w1 RchieMouseLeave)).
Proof.
  intros w w1. split.
  - vm_compute. repeat first [left; reflexivity | right].
  - apply (proj1 (proj2 (X16_loupe_only_over_the_rchie_image demoServer
                           demoProps w1 RchieMouseLeave)));
      reflexivity.
Defined.


(** ** The layer toggle on a diagram without all three layers *)

(** X17.  A click on a diagram of a type other than ['rscape'] and
    ['rchie'] that has at least one of the layers [#seq], [#outline] and
    [#pairs] advances the toggle to the next phase and gives each layer
    that exists the visibility of that phase; a layer that does not exist
    stays absent.  Without any of the three layers, without a mounted
    diagram, or for ['rscape'] and ['rchie'], the click changes nothing. *)
Theorem X17_toggle_sets_the_layers_that_exist (w : World) :
  (selectedImageType (state w) = "rscape" \/
   selectedImageType (state w) = "rchie" \/
   querySvg (svgContainerRef (refs w)) = None \/
   (exists el, querySvg (svgContainerRef (refs w)) = Some el /\
               (el_seq el, el_outline el, el_pairs el) = (None, None, None)) ->
   click w = w) /\
  (forall el p,
     selectedImageType (state w) <> "rscape" ->
     selectedImageType (state w) <> "rchie" ->
     querySvg (svgContainerRef (refs w)) = Some el ->
     (el_seq el, el_outline el, el_pairs el) <> (None, None, None) ->
     phase w = Some p ->
     phase (click w) = Some (next_phase p) /\
     exists el',
       querySvg (svgContainerRef (refs (click w))) = Some el' /\
       el_seq el'
         = set_visibility (el_seq el) (fst (fst (layers_of (next_phase p)))) /\
       el_outline el'
         = set_visibility (el_outline el)
             (snd (fst (layers_of (next_phase p)))) /\
       el_pairs el'
         = set_visibility (el_pairs el) (snd (layers_of (next_phase p))) /\
       (svg_width el', svg_height el', tspans el', paths el', text1000 el')
       = (svg_width el, svg_height el, tspans el, paths el, text1000 el)).
Proof.
  split.
  - intros H. unfold click, handleSvgClick, exec.
    rewrite bind_run. cbn [gets fst snd].
    destruct H as [H | [H | [H | (el & H & Hl)]]].
    + now rewrite H.
    + rewrite H. now destruct (_ =? "rscape").
    + destruct (_ || _); [reflexivity|].
      rewrite bind_run. cbn [gets fst snd containerRef_current].
      now rewrite H.
    + destruct (_ || _); [reflexivity|].
      rewrite bind_run. cbn [gets fst snd containerRef_current].
      rewrite H. injection Hl as -> -> ->. reflexivity.
  - intros el p Hr Hc Hel Hl Hp.
    apply String.eqb_neq in Hr. apply String.eqb_neq in Hc.
    unfold phase in Hp.
    unfold click, handleSvgClick, exec, phase.
    rewrite bind_run. cbn [gets fst snd]. rewrite Hr, Hc. cbn [orb].
    rewrite bind_run. cbn [gets fst snd containerRef_current]. rewrite Hel.
    unfold phase_of in Hp.
    destruct el as [wd ht ts ps tx es eo ep].
    cbn [el_seq el_outline el_pairs] in *.
    destruct (Z.eqb_spec (svgToggleState (state w)) 1) as [E1|N1];
      [|destruct (Z.eqb_spec (svgToggleState (state w)) 2) as [E2|N2];
        [|destruct (Z.eqb_spec (svgToggleState (state w)) 3) as [E3|N3];
          [|discriminate]]];
      injection Hp as <-;
      rewrite ?E1, ?E2, ?E3;
      destruct es, eo, ep; try (exfalso; now apply Hl);
      cbn; (split; [reflexivity|]); eexists; repeat split; reflexivity.
Qed.

Lemma X17_witness :
  let w := mounted Main seqOnlyDiagram
             (exec (setSelectedImageType "norm") (initialWorld demoProps)) in
  phase (click w) = Some StructureOnly /\
  exists el',
    querySvg (svgContainerRef (refs (click w))) = Some el' /\
    el_seq el' = Some "hidden" /\ el_outline el' = None.
Proof.
  intros w.
  destruct (proj2 (X17_toggle_sets_the_layers_that_exist w)
              seqOnlyDiagram AllVisible)
    as (Hp & el' & Hq & Hs & Ho & _);
    try discriminate; try reflexivity.
  split; [exact Hp|]. exists el'. repeat split; assumption.
Defined.

(** ** The download button *)





(** ** The companion diagram *)

Section Companion.

Variable srv : Server.
Variable props : Props.

Lemma initializeImages_companion w :
  companion (exec (initializeImages srv props) w) = companion w.
Proof.
  assert (Hwi := initializeImages_run srv props w).
  cbv zeta in Hwi.
  set (available := probe_results srv props (net_log (env w))
                      (typesToCheck props)) in Hwi.
  set (w1 := exec (setAvailableTypes available)
               (log_requests (map (headRequest props) (typesToCheck props))
                  w)) in Hwi.
  destruct (0 <? length available)%nat.
  - set (w0 := exec (setImageStatus Loading ;; setIsImageNotAvailable false)
                    w1).
    assert (Hrun : exec (tryLoadImage srv props available) w1
                   = exec (tryLoadImage_loop srv props available) w0)
      by reflexivity.
    rewrite Hrun in Hwi.
    destruct (tryLoadImage_loop_outcome srv props available w0)
      as [(Hx & _) | (pre & t & post & c & _ & _ & _ & _ & Hx)];
      rewrite Hx in Hwi; rewrite Hwi; reflexivity.
  - rewrite Hwi. reflexivity.
Qed.

Lemma loadRscapeCyk_coherent w :
  companion_coherent (exec (loadRscapeCyk srv props) w).
Proof.
  unfold loadRscapeCyk, exec. do 4 rewrite bind_run. rewrite loadImage_run.
  cbn [fst snd].
  destruct (classify "rscape-cacofold" _) as [r|] eqn:Hc;
    unfold companion_coherent; cbn; [|discriminate].
  intros _. apply classify_Some in Hc. destruct Hc as (_ & Hsvg & Hav).
  rewrite Hav, Hsvg. cbn. now rewrite orb_false_r.
Qed.

Lemma commitEffects_companion prev w :
  companion_coherent w ->
  companion_coherent (exec (commitEffects srv props prev) w).
Proof.
  intros Hw. unfold commitEffects. rewrite exec_bind.
  set (w1 := exec (effect_loadRscapeCyk srv props prev) w).
  assert (H1 : companion_coherent w1).
  { unfold w1, effect_loadRscapeCyk, exec. rewrite bind_run.
    cbn [gets fst snd]. destruct (_ && _); [exact Hw|].
    destruct (_ && _); [apply loadRscapeCyk_coherent | exact Hw]. }
  unfold effect_resetToggle, exec. rewrite bind_run. cbn [gets fst snd].
  destruct (_ =? _); exact H1.
Qed.

Lemma companion_keeps w w' :
  companion w' = companion w -> companion_coherent w ->
  companion_coherent w'.
Proof.
  unfold companion, companion_coherent. intros [= -> -> ->]. auto.
Qed.

Lemma handler_companion ev w :
  companion_coherent w ->
  companion_coherent (exec (handler srv props ev) w).
Proof.
  intros Hw.
  destruct ev as [type| | |t x y| | |x y| | |b|b| | | |]; cbn [handler];
    try exact Hw.
  - destruct (String.eqb_spec type (selectedImageType (state w)))
      as [-> | Hne]; [now rewrite switch_same|].
    destruct (switch_run srv props type w Hne) as (Hst & _).
    unfold companion_coherent. rewrite Hst.
    destruct (classify type _); cbn; discriminate.
  - apply (companion_keeps w); [|exact Hw].
    unfold downloadImage, exec. run_handler.
  - apply (companion_keeps w); [|exact Hw].
    unfold handleSvgMouseMove, exec. run_handler.
  - apply (companion_keeps w); [|exact Hw].
    unfold handleSvgClick, exec. run_handler.
  - apply (companion_keeps w); [|exact Hw].
    unfold handleRchieMouseMove, exec. run_handler.
  - apply (companion_keeps w); [|exact Hw].
    destruct (timerMain_state b w) as [Hst | (st & Hst)];
      unfold companion; now rewrite Hst.
  - apply (companion_keeps w); [|exact Hw].
    unfold timerCyk, processRscapeSvg, initializePanZoom, releasePanZoom,
      svgPanZoom, exec.
    run_handler.
  - apply (companion_keeps w); [|exact Hw]. destruct slot; reflexivity.
  - apply (companion_keeps w); [|exact Hw].
    unfold companion. now rewrite cleanup_state.
  - apply (companion_keeps w); [|exact Hw].
    rewrite exec_bind. unfold initialLoadEffect. destruct (_ && _).
    + rewrite initializeImages_companion. unfold companion.
      now rewrite cleanup_state.
    + change (exec (ret tt) ?x) with x. unfold companion.
      now rewrite cleanup_state.
Qed.

Lemma reachable_companion evs :
  companion_coherent (run srv props evs (mount srv props)).
Proof.
  assert (H : forall w, companion_coherent w ->
                companion_coherent (run srv props evs w)).
  { induction evs as [|ev evs IH]; intros w Hw; [exact Hw|].
    cbn [run fold_left]. apply IH. unfold step.
    destruct (enabled props w ev); [|exact Hw].
    rewrite exec_bind. now apply commitEffects_companion, handler_companion. }
  apply H. unfold mount. rewrite exec_bind.
  apply commitEffects_companion.
  apply (companion_keeps (initialWorld props)); [|intros H0; discriminate H0].
  unfold initialLoadEffect. destruct (_ && _); [|reflexivity].
  apply initializeImages_companion.
Qed.

End Companion.

Lemma render_side_by_side props w b :
  sideBySideShown (state w) = true ->
  In b (when (Status_eqb (rscapeCykStatus (state w)) Loaded
              && isRscapeCykNotAvailable (state w)) [CykNotAvailable]
        ++ (if Status_eqb (rscapeCykStatus (state w)) Error
               || (Status_eqb (rscapeCykStatus (state w)) Loaded
                   && isRscapeCykNotAvailable (state w))
            then []
            else if Status_eqb (rscapeCykStatus (state w)) Loading
                 then [CykLoading]
                 else when (JS.includes (rscapeCykContent (state w)) "<svg")
                        [CykDiagram])
        ++ when (Status_eqb (rscapeCykStatus (state w)) Error) [CykFailed]) ->
  In b (render props w).
Proof.
  intros Hs Hin. unfold render. do 7 (apply in_or_app; right).
  apply in_or_app; left. rewrite Hs. cbn [when].
  apply in_or_app; right. apply in_or_app; right. exact Hin.
Qed.

(** X19.  In every state the widget reaches, a loaded companion diagram is
    flagged not available exactly when its content has no vector markup;
    so, whenever the two R-scape panels are on screen, the companion's
    panel shows something: the loading indicator, the failure notice, the
    not-available notice, or the diagram. *)
Theorem X19_companion_panel_never_empty
  (srv : Server) (props : Props) (evs : list Event) :
  let w := run srv props evs (mount srv props) in
  companion_coherent w /\
  (sideBySideShown (state w) = true ->
   exists b, In b (render props w) /\ is_companion_panel b = true).
Proof.
  intros w.
  pose proof (reachable_companion srv props evs) as Hc. fold w in Hc.
  split; [exact Hc|]. intros Hs.
  destruct (rscapeCykStatus (state w)) eqn:Est.
  - exists CykLoading. split; [|reflexivity].
    apply render_side_by_side; [exact Hs|]. rewrite Est. cbn. auto.
  - specialize (Hc Est).
    destruct (isRscapeCykNotAvailable (state w)) eqn:En.
    + exists CykNotAvailable. split; [|reflexivity].
      apply render_side_by_side; [exact Hs|]. rewrite Est, En. cbn. auto.
    + symmetry in Hc. apply negb_false_iff in Hc.
      exists CykDiagram. split; [|reflexivity].
      apply render_side_by_side; [exact Hs|]. rewrite Est, En, Hc. cbn. auto.
  - exists CykFailed. split; [|reflexivity].
    apply render_side_by_side; [exact Hs|]. rewrite Est. cbn. auto.
Qed.

Lemma X19_witness :
  let w := run svgServer demoProps [] (mount svgServer demoProps) in
  In CykDiagram (render demoProps w) /\
  exists b, In b (render demoProps w) /\ is_companion_panel b = true.
Proof.
  intros w. split.
  - apply render_side_by_side; [reflexivity|]. cbn. auto.
  - exact (proj2 (X19_companion_panel_never_empty svgServer demoProps [])
             eq_refl).
Defined.


(** ** The loader of the earlier copy *)

Lemma legacy_classify_recognized o c :
  LegacyLoader.classify o = Some c <-> recognized o c.
Proof.
  unfold LegacyLoader.classify, recognized. split.
  - destruct o as [|resp]; [discriminate|].
    destruct (ok resp) eqn:Hok; cbn [negb]; [|discriminate].
    destruct (body resp) as [b|] eqn:Hb; [|discriminate].
    destruct (JS.includes b "<svg") eqn:Hsvg; cbn [negb andb].
    + intros [= <-]. exists resp. repeat split; auto.
    + destruct (content_type resp) as [ct|] eqn:Hct.
      * destruct (JS.includes ct "image/png") eqn:Hpng; cbn [negb];
          [|discriminate].
        intros [= <-]. exists resp. repeat split; auto.
        right. exists ct. auto.
      * cbn. discriminate.
  - intros (resp & -> & Hok & Hb & Himg). rewrite Hok, Hb. cbn [negb].
    destruct Himg as [Hsvg | (ct & Hct & Hpng)].
    + now rewrite Hsvg.
    + rewrite Hct, Hpng. cbn [negb]. now rewrite andb_false_r.
Qed.

Lemma legacy_classify_unusable o :
  unusable o ->
  LegacyLoader.classify o = None \/ LegacyLoader.classify o = Some "".
Proof.
  intros Hu. destruct (LegacyLoader.classify o) as [c|] eqn:Hc; [|now left].
  right. apply legacy_classify_recognized in Hc. now rewrite (Hu c Hc).
Qed.

Section LegacyRuns.

Variable srv : Server.
Variable props : Props.

Lemma legacy_loadImage_run type w :
  LegacyLoader.loadImage srv props type w
  = (LegacyLoader.classify (srv (net_log (env w)) (getRequest props type)),
     log_requests [getRequest props type] w).
Proof. reflexivity. Qed.

Lemma legacy_loop_skip pre : forall rest w,
  (forall i p, nth_error pre i = Some p ->
     unusable (srv (net_log (env w)
                      ++ map (getRequest props) (firstn i pre))
                   (getRequest props p))) ->
  LegacyLoader.tryLoadImage_loop srv props (pre ++ rest) w
  = LegacyLoader.tryLoadImage_loop srv props rest
      (log_requests (map (getRequest props) pre) w).
Proof.
  induction pre as [|a pre IH]; intros rest w H.
  - cbn [app map]. now rewrite log_requests_nil.
  - cbn [app LegacyLoader.tryLoadImage_loop].
    rewrite bind_run, legacy_loadImage_run. cbn [fst snd].
    assert (Ha : unusable (srv (net_log (env w)) (getRequest props a))).
    { specialize (H 0%nat a eq_refl). cbn in H.
      now rewrite app_nil_r in H. }
    assert (Hnext : LegacyLoader.tryLoadImage_loop srv props (pre ++ rest)
                      (log_requests [getRequest props a] w)
                    = LegacyLoader.tryLoadImage_loop srv props rest
                        (log_requests (map (getRequest props) (a :: pre)) w)).
    { rewrite IH.
      - rewrite log_requests_app. reflexivity.
      - intros i p Hi. specialize (H (S i) p Hi).
        cbn [firstn map] in H. unfold log_requests; cbn.
        now rewrite <- app_assoc. }
    destruct (legacy_classify_unusable _ Ha) as [-> | ->];
      [exact Hnext | cbn; exact Hnext].
Qed.

Lemma legacy_loop_log types : forall w,
  exists k,
    net_log (env (exec (LegacyLoader.tryLoadImage_loop srv props types) w))
    = net_log (env w) ++ map (getRequest props) (firstn k types) /\
    availableTypes
      (state (exec (LegacyLoader.tryLoadImage_loop srv props types) w))
    = availableTypes (state w).
Proof.
  induction types as [|a types IH]; intros w.
  - exists 0%nat. cbn. now rewrite app_nil_r.
  - cbn [LegacyLoader.tryLoadImage_loop]. unfold exec.
    rewrite bind_run, legacy_loadImage_run. cbn [fst snd].
    destruct (IH (log_requests [getRequest props a] w)) as (k & Hk & Ha).
    assert (Hskip : exists k0,
      net_log (env (exec (LegacyLoader.tryLoadImage_loop srv props types)
                      (log_requests [getRequest props a] w)))
      = net_log (env w) ++ map (getRequest props) (firstn k0 (a :: types)) /\
      availableTypes
        (state (exec (LegacyLoader.tryLoadImage_loop srv props types)
                  (log_requests [getRequest props a] w)))
      = availableTypes (state w)).
    { exists (S k). rewrite Hk, Ha. cbn. now rewrite <- app_assoc. }
    destruct (LegacyLoader.classify _) as [c|]; [|exact Hskip].
    destruct (JS.truthy c); [|exact Hskip].
    exists 1%nat. cbn. auto.
Qed.

End LegacyRuns.

(** X20.  The loader of the earlier copy passes over a candidate whose
    fetch fails and also one whose recognized answer has an empty body;
    the first candidate with a recognized, non-empty answer is stored and
    selected with status [loaded], and nothing after it is fetched.  The
    earlier copy has no placeholder: the not-available flag is never
    written, also when the content is the raster sentinel. *)
Theorem X20_legacy_loader_skips_empty_answers
  (srv : Server) (props : Props) (pre post : list string) (type : string)
  (c : string) (w : World) :
  (forall i p, nth_error pre i = Some p ->
     unusable (srv (net_log (env w)
                      ++ map (getRequest props) (firstn i pre))
                   (getRequest props p))) ->
  recognized (srv (net_log (env w) ++ map (getRequest props) pre)
                  (getRequest props type)) c ->
  c <> "" ->
  let w' := exec (LegacyLoader.tryLoadImage srv props (pre ++ type :: post))
                 w in
  eval (LegacyLoader.tryLoadImage srv props (pre ++ type :: post)) w = true /\
  (svgContent (state w'), selectedImageType (state w'), imageStatus (state w'))
  = (c, type, Loaded) /\
  net_log (env w')
  = net_log (env w) ++ map (getRequest props) (pre ++ [type]) /\
  isImageNotAvailable (state w') = isImageNotAvailable (state w).
Proof.
  intros Hpre Hrec Hne w'.
  assert (Hrun : LegacyLoader.tryLoadImage srv props (pre ++ type :: post) w
                 = LegacyLoader.tryLoadImage_loop srv props (type :: post)
                     (log_requests (map (getRequest props) pre)
                        (exec (setImageStatus Loading) w))).
  { unfold LegacyLoader.tryLoadImage. rewrite bind_run.
    now rewrite legacy_loop_skip. }
  apply legacy_classify_recognized in Hrec.
  apply String.eqb_neq in Hne.
  unfold w', eval, exec. rewrite Hrun.
  cbn [LegacyLoader.tryLoadImage_loop].
  rewrite bind_run, legacy_loadImage_run. cbn [fst snd].
  change (net_log (env (log_requests (map (getRequest props) pre)
                          (exec (setImageStatus Loading) w))))
    with (net_log (env w) ++ map (getRequest props) pre).
  rewrite Hrec. unfold JS.truthy. rewrite Hne. cbn.
  repeat split. now rewrite map_app, app_assoc.
Qed.

Lemma X20_witness :
  let w := initialWorld demoProps in
  let w' := exec (LegacyLoader.tryLoadImage emptyPngServer demoProps
                    ["rscape"; "cons"]) w in
  imageStatus (state w') = Error /\
  svgContent
    (state (exec (LegacyLoader.tryLoadImage demoServer demoProps
                    ["cons"; "rscape"; "norm"]) w)) = "PNG".
Proof.
  intros w w'. split; [reflexivity|].
  destruct (X20_legacy_loader_skips_empty_answers demoServer demoProps
              ["cons"] ["norm"] "rscape" "PNG" w) as (_ & H & _).
  - intros i p Hi c Hc. destruct i as [|i]; [|destruct i; discriminate Hi].
    cbn in Hi. injection Hi as <-. destruct Hc as (resp & Heq & Hok & _).
    vm_compute in Heq. injection Heq as <-. discriminate Hok.
  - exists (mkResponse true 200 (Some "PNG") (Some "image/png")).
    repeat split. right. exists "image/png". split; reflexivity.
  - discriminate.
  - exact (f_equal (fun x => fst (fst x)) H).
Defined.

(** X21.  The initialization of the earlier copy probes every configured
    type in configured order, also one outside the fixed list of the
    current component (its default list ends with ['rscape-cyk']), and
    records as available exactly those whose probe succeeds. *)
Theorem X21_legacy_initialization_probes_every_type
  (srv : Server) (props : Props) (w : World) :
  let w' := exec (LegacyLoader.initializeImages srv props) w in
  let types := LegacyLoader.imageTypes props in
  availableTypes (state w')
  = probe_results srv props (net_log (env w)) types /\
  exists fetches,
    net_log (env w')
    = net_log (env w) ++ map (headRequest props) types
      ++ map (getRequest props) fetches /\
    (forall t, In t fetches -> In t (availableTypes (state w'))) /\
  (imageTypesProp props = None -> In "rscape-cyk" types).
Proof.
  intros w' types.
  assert (Hrun : LegacyLoader.initializeImages srv props w
    = let available := probe_results srv props (net_log (env w)) types in
      let w1 := exec (setAvailableTypes available)
                  (log_requests (map (headRequest props) types) w) in
      if (0 <? length available)%nat
      then (tt, exec (LegacyLoader.tryLoadImage srv props available) w1)
      else (tt, exec (setImageStatus Error ;;
                      setErrorMessage NO_IMAGES_MESSAGE) w1)).
  { unfold LegacyLoader.initializeImages. rewrite bind_run, checkAll_run.
    cbn [fst snd app]. rewrite bind_run. cbn [fst snd]. fold types.
    destruct (0 <? length _)%nat; reflexivity. }
  cbv zeta in Hrun.
  set (available := probe_results srv props (net_log (env w)) types) in *.
  set (w1 := exec (setAvailableTypes available)
               (log_requests (map (headRequest props) types) w)) in *.
  assert (H : availableTypes (state w') = available /\
              exists fetches,
                net_log (env w')
                = net_log (env w) ++ map (headRequest props) types
                  ++ map (getRequest props) fetches /\
                (forall t, In t fetches -> In t available)).
  { unfold w', exec. rewrite Hrun.
    destruct (0 <? length available)%nat; cbn [snd].
    - unfold LegacyLoader.tryLoadImage, exec. rewrite bind_run.
      destruct (legacy_loop_log srv props available
                  (snd (setImageStatus Loading w1))) as (k & Hk & Ha).
      unfold exec in Hk, Ha. rewrite Hk, Ha. split; [reflexivity|].
      exists (firstn k available). split.
      + cbn. now rewrite <- app_assoc.
      + intros t Ht. rewrite <- (firstn_skipn k available).
        apply in_or_app. now left.
    - split; [reflexivity|]. exists []. split; [|intros t []].
      cbn. now rewrite app_nil_r. }
  destruct H as (Ha & fetches & Hl & Hin).
  split; [exact Ha|]. exists fetches.
  split; [exact Hl|]. split; [now rewrite Ha|].
  intros Hnone. unfold types, LegacyLoader.imageTypes. rewrite Hnone.
  cbn. tauto.
Qed.

Lemma X21_witness :
  In (headRequest defaultProps "rscape-cyk")
     (net_log (env (exec (LegacyLoader.initializeImages emptyServer
                            defaultProps)
                      (initialWorld defaultProps)))).
Proof.
  destruct (X21_legacy_initialization_probes_every_type emptyServer
              defaultProps (initialWorld defaultProps))
    as (_ & fetches & Hl & _).
  rewrite Hl. apply in_or_app. right. apply in_or_app. left.
  apply in_map. cbn. tauto.
Defined.


(** ** The pages the widget opens *)

Section Windows.

Variable srv : Server.
Variable props : Props.

Lemma initializeImages_opened w :
  opened (env (exec (initializeImages srv props) w)) = opened (env w).
Proof.
  assert (Hwi := initializeImages_run srv props w).
  cbv zeta in Hwi.
  set (available := probe_results srv props (net_log (env w))
                      (typesToCheck props)) in Hwi.
  set (w1 := exec (setAvailableTypes available)
               (log_requests (map (headRequest props) (typesToCheck props))
                  w)) in Hwi.
  destruct (0 <? length available)%nat.
  - set (w0 := exec (setImageStatus Loading ;; setIsImageNotAvailable false)
                    w1).
    assert (Hrun : exec (tryLoadImage srv props available) w1
                   = exec (tryLoadImage_loop srv props available) w0)
      by reflexivity.
    rewrite Hrun in Hwi.
    destruct (tryLoadImage_loop_outcome srv props available w0)
      as [(Hx & _) | (pre & t & post & c & _ & _ & _ & _ & Hx)];
      rewrite Hx in Hwi; rewrite Hwi; reflexivity.
  - rewrite Hwi. reflexivity.
Qed.

Lemma cleanup_opened w : opened (env (exec cleanup w)) = opened (env w).
Proof.
  unfold cleanup, releasePanZoom, exec. run_handler.
Qed.

Lemma handler_opened ev w :
  ev <> ClickVarna -> ev <> RchieClick ->
  opened (env (exec (handler srv props ev) w)) = opened (env w).
Proof.
  intros H1 H2.
  destruct ev as [type| | |t x y| | |x y| | |b|b| | | |]; cbn [handler];
    try congruence; try reflexivity.
  - unfold handleImageTypeChange, releasePanZoom, loadImage, fetch, exec.
    run_handler.
  - unfold downloadImage, exec. run_handler.
  - unfold handleSvgMouseMove, exec. run_handler.
  - unfold handleSvgClick, exec. run_handler.
  - unfold handleRchieMouseMove, exec. run_handler.
  - unfold timerMain, processRscapeSvg, initializePanZoom, releasePanZoom,
      svgPanZoom, exec.
    run_handler.
  - unfold timerCyk, processRscapeSvg, initializePanZoom, releasePanZoom,
      svgPanZoom, exec.
    run_handler.
  - destruct slot; reflexivity.
  - apply cleanup_opened.
  - rewrite exec_bind. unfold initialLoadEffect. destruct (_ && _).
    + now rewrite initializeImages_opened, cleanup_opened.
    + apply cleanup_opened.
Qed.

Lemma step_opened ev w :
  opened (env (step srv props w ev))
  = opened (env w)
    ++ (if enabled props w ev
        then match ev with
             | ClickVarna => [buildVarnaUrl props]
             | RchieClick => [buildImageUrl props "rchie"]
             | _ => []
             end
        else []).
Proof.
  unfold step. destruct (enabled props w ev) eqn:He;
    [|now rewrite app_nil_r].
  rewrite exec_bind.
  destruct (commitEffects_pointer srv props (lastRendered props w ev)
              (exec (handler srv props ev) w)) as (_ & _ & _ & Ho).
  rewrite Ho.
  destruct ev as [type| | |t x y| | |x y| | |b|b| | | |] eqn:E;
    try reflexivity;
    rewrite <- E; rewrite handler_opened by (subst ev; discriminate);
    now rewrite app_nil_r.
Qed.

End Windows.

(** X22.  The widget opens a page only on a click of the VARNA button or
    of the R-chie image, one page per click: the VARNA viewer of the
    entity, or the R-chie image of the entity.  In every state the widget
    reaches, the pages opened so far are of these two kinds, the viewer
    only when VARNA is enabled. *)
Theorem X22_only_the_viewer_and_the_rchie_image_are_opened
  (srv : Server) (props : Props) :
  (forall w ev,
     opened (env (step srv props w ev))
     = opened (env w)
       ++ (if enabled props w ev
           then match ev with
                | ClickVarna => [buildVarnaUrl props]
                | RchieClick => [buildImageUrl props "rchie"]
                | _ => []
                end
           else [])) /\
  (forall evs url,
     In url (opened (env (run srv props evs (mount srv props)))) ->
     (url = buildVarnaUrl props /\ varnaEnabled props = true) \/
     url = buildImageUrl props "rchie").
Proof.
  split; [intros w ev; apply step_opened|].
  intros evs.
  assert (H : forall w,
            (forall url, In url (opened (env w)) ->
               (url = buildVarnaUrl props /\ varnaEnabled props = true) \/
               url = buildImageUrl props "rchie") ->
            forall url, In url (opened (env (run srv props evs w))) ->
               (url = buildVarnaUrl props /\ varnaEnabled props = true) \/
               url = buildImageUrl props "rchie").
  { induction evs as [|ev evs IH]; intros w Hw; [exact Hw|].
    cbn [run fold_left]. apply IH. intros url Hin.
    rewrite step_opened in Hin. apply in_app_or in Hin.
    destruct Hin as [Hin | Hin]; [now apply Hw|].
    destruct (enabled props w ev) eqn:He; [|destruct Hin].
    destruct ev; cbn in Hin; try contradiction; destruct Hin as [<- | []].
    - left. split; [reflexivity | exact He].
    - now right. }
  apply H. intros url Hin.
  assert (Ho : opened (env (mount srv props)) = []).
  { unfold mount. rewrite exec_bind.
    destruct (commitEffects_pointer srv props (initialState props)
                (exec (initialLoadEffect srv props) (initialWorld props)))
      as (_ & _ & _ & Ho).
    rewrite Ho. unfold initialLoadEffect. destruct (_ && _); [|reflexivity].
    now rewrite initializeImages_opened. }
  rewrite Ho in Hin. destruct Hin.
Qed.

Lemma X22_witness :
  opened (env (run demoServer demoProps [ClickVarna; SelectType "rchie";
                                          RchieClick]
                 (mount demoServer demoProps)))
  = ["rfam/RF00001/varna"; "rfam/RF00001/image/rchie"].
Proof.
  pose proof (proj1 (X22_only_the_viewer_and_the_rchie_image_are_opened
                       demoServer demoProps)) as Hstep.
  cbn [run fold_left]. rewrite !Hstep. reflexivity.
Defined.
